(** * pmr2.compat: the command-line adapter [pmr2/compat/cli.py]

    A shallow embedding of the handlers ([citation], [codegen], [cmeta],
    [maths], [docgen]), of the signature-driven parser builder
    [generate_cmd_parser] and of the dispatcher [main], together with the
    properties the specification states about them.

    The program is Python 2.  Values are modelled by [pyval]; the file
    system by a finite map from paths to file contents; exceptions by an
    explicit [outcome]; handlers by a state-and-exception monad [M] over the
    file system.  The collaborators that live outside the repository (the
    metadata parser [Cmeta], the CellML API utility, the XSLT and legacy
    transforms, the encoder of [json.dump]) are parameters of the
    development. *)

From Stdlib Require Import String Ascii List Bool Arith Lia.
From stdpp Require Import base option list strings gmap fin_maps.
Import ListNotations.
Local Open Scope string_scope.
Local Open Scope list_scope.
Local Open Scope nat_scope.

(** ** Python values *)

#[warnings="-register-all"] Inductive pyval : Type :=
  | PyNone
  | PyStr (s : string)
  | PyList (l : list pyval)
  | PyTuple (l : list pyval).

(** Truth value testing ([if x:], [if not x:]). *)
Definition truthy (v : pyval) : bool :=
  match v with
  | PyNone => false
  | PyStr s => negb (String.eqb s "")
  | PyList l | PyTuple l => match l with [] => false | _ :: _ => true end
  end.

(** A command-line value: a [str], or [None] when a flag falls back to a
    [None] default. *)
Abbreviation argval := (option string).

Definition to_py (a : argval) : pyval :=
  match a with None => PyNone | Some s => PyStr s end.

(** ** Exceptions and outcomes *)

Inductive exn : Type :=
  | KeyError
  | TypeError
  | AttributeError
  | IOError
  | IndexError
  | ValueError
  | ArgumentError            (* argparse: conflicting option string *)
  | LibraryError (what : string) (* raised inside an external collaborator *)
  | SystemExit (status : nat).   (* argparse: exit(0) after help, exit(2) after a usage error *)

Inductive outcome (A : Type) : Type :=
  | Ok (a : A)
  | Raise (e : exn).
Arguments Ok {A} a.
Arguments Raise {A} e.

Definition obind {A B} (o : outcome A) (k : A -> outcome B) : outcome B :=
  match o with Ok a => k a | Raise e => Raise e end.

(** ** Files *)

(** What a file holds: text, or the output of [json.dump] for a dict or for
    another value.  The serialisation itself is the job of the [json]
    module; a JSON file is represented by the value that was dumped, and a
    file [json.dump] gave up on by [JsonCut]: the beginning of the document,
    as far as the encoder got before it raised.

    The file system maps a path to what the file holds.  A path names one
    file: two handles alias exactly when their paths are the same string
    (no links, no second spelling of a path). *)
Inductive file_data : Type :=
  | Text (s : string)
  | JsonRecord (d : gmap string pyval)
  | JsonValue (v : pyval)
  | JsonCut (document : file_data).

Abbreviation filesystem := (gmap string file_data).

(** The handler monad: a computation reads and updates the file system and
    either returns or raises.  The file system is returned in both cases:
    what was written before an exception stays written. *)
Definition M (A : Type) : Type := filesystem -> outcome A * filesystem.

Definition ret {A} (a : A) : M A := fun fs => (Ok a, fs).
Definition raise {A} (e : exn) : M A := fun fs => (Raise e, fs).
Definition bind {A B} (c : M A) (k : A -> M B) : M B :=
  fun fs => match c fs with
            | (Ok a, fs') => k a fs'
            | (Raise e, fs') => (Raise e, fs')
            end.
Definition lift {A} (o : outcome A) : M A := fun fs => (o, fs).

Notation "x <- c ;; k" := (bind c (fun x => k))
  (at level 100, c at next level, right associativity).
Notation "c ;;; k" := (bind c (fun _ => k))
  (at level 100, right associativity).

(** Monadic iteration, for [for x in xs: ...]. *)
Fixpoint for_each {A} (xs : list A) (body : A -> M unit) : M unit :=
  match xs with
  | [] => ret tt
  | x :: xs' => body x ;;; for_each xs' body
  end.

(** ** String helpers *)

Definition startswith (p s : string) : bool := String.prefix p s.
Definition endswith (p s : string) : bool :=
  String.prefix (String.rev p) (String.rev s).

(** [os.path.join(a, b)] of [posixpath], for one component [b].  [a] may be
    [None] (an argument left at its default): the call then fails where the
    code first uses a string method of it. *)
Definition join (a : argval) (b : string) : outcome string :=
  if startswith "/" b then Ok b
  else match a with
       | None => Raise AttributeError
       | Some path =>
           if String.eqb path "" || endswith "/" path
           then Ok (path +:+ b)
           else Ok (path +:+ "/" +:+ b)
       end.

(** [' '.join(l)] *)
Fixpoint str_join (sep : string) (l : list string) : string :=
  match l with
  | [] => ""
  | [s] => s
  | s :: l' => s +:+ sep +:+ str_join sep l'
  end.

(** A Python dict built from an item list: a later item overrides an earlier
    one with the same key. *)
Definition dict_of_items {V} (items : list (string * V)) : gmap string V :=
  fold_left (fun d kv => <[kv.1 := kv.2]> d) items ∅.

(** [d[k]] for a dict with [str] keys and a key that is a [str] or [None]. *)
Definition dict_getitem {V} (d : gmap string V) (k : argval) : outcome V :=
  match k with
  | Some s => match d !! s with Some v => Ok v | None => Raise KeyError end
  | None => Raise KeyError
  end.

(** [d.get(k, dflt)] *)
Definition dict_get {V} (d : gmap string V) (k : argval) (dflt : V) : V :=
  match k with
  | Some s => default dflt (d !! s)
  | None => dflt
  end.

(** The list comprehension of [f x] for [x] in [l], for an [f] that may raise. *)
Fixpoint map_outcome {A B} (f : A -> outcome B) (l : list A) : outcome (list B) :=
  match l with
  | [] => Ok []
  | x :: l' => obind (f x) (fun y => obind (map_outcome f l') (fun ys => Ok (y :: ys)))
  end.

(** ** Functions as the dispatcher sees them *)

(** A module-level function: its [__name__], what [getargspec] reports
    ([args], and [defaults]: [None] or the tuple of the defaults of the
    trailing parameters), and its body, applied to the values of its
    parameters in declaration order. *)
Record pyfunc : Type := {
  fn_name : string;
  fn_args : list string;
  fn_defaults : option (list argval);
  fn_body : list argval -> M unit;
}.

(** The default the [def] line declares for the [i]-th parameter, if any:
    Python binds the defaults to the last parameters, in order. *)
Definition declared_default (f : pyfunc) (i : nat) : option argval :=
  let ds := default [] (fn_defaults f) in
  let n := length (fn_args f) in
  let d := length ds in
  if (n - d <=? i) && (i <? n) then ds !! (i - (n - d)) else None.

(** A positional call of [f]: parameters that are not given take their
    declared default. *)
Definition bind_positional (f : pyfunc) (vals : list argval) : outcome (list argval) :=
  if length (fn_args f) <? length vals then Raise TypeError
  else map_outcome
         (fun i => match vals !! i with
                   | Some v => Ok v
                   | None => match declared_default f i with
                             | Some v => Ok v
                             | None => Raise TypeError
                             end
                   end)
         (seq 0 (length (fn_args f))).

Definition call_positional (f : pyfunc) (vals : list argval) : M unit :=
  bound <- lift (bind_positional f vals) ;;
  fn_body f bound.

(** A call of [f] with a dict of keyword arguments: every keyword must name a parameter; parameters that
    are not given take their declared default. *)
Definition bind_kwargs (f : pyfunc) (kwargs : gmap string argval) : outcome (list argval) :=
  if forallb (fun k => bool_decide (k ∈ fn_args f)) (map fst (map_to_list kwargs))
  then map_outcome
         (fun ia : nat * string =>
            match kwargs !! ia.2 with
            | Some v => Ok v
            | None => match declared_default f ia.1 with
                      | Some v => Ok v
                      | None => Raise TypeError
                      end
            end)
         (imap (fun i a => (i, a)) (fn_args f))
  else Raise TypeError.

Definition call_kwargs (f : pyfunc) (kwargs : gmap string argval) : M unit :=
  bound <- lift (bind_kwargs f kwargs) ;;
  fn_body f bound.

(** ** argparse

    The part of Python 2.7's [argparse] the program uses: parsers whose
    actions are the built-in help action and [store] options added with
    [add_argument], a sub-parsers group added with [add_subparsers], and
    [parse_args].  A usage error prints the usage and raises
    [SystemExit(2)]; the help action prints the help and raises
    [SystemExit(0)]. *)

Definition usage_error {A} : outcome A := Raise (SystemExit 2).
Definition help_exit {A} : outcome A := Raise (SystemExit 0).

Inductive action_kind : Type := HelpAction | StoreAction.

(** An action of a parser.  [dest = None] stands for [SUPPRESS] (the help
    action stores nothing and has no default to install). *)
Record action : Type := {
  option_strings : list string;
  dest : option string;
  required : bool;
  action_default : argval;
  kind : action_kind;
}.

Global Instance action_kind_eq_dec : EqDecision action_kind.
Proof. solve_decision. Defined.
Global Instance action_eq_dec : EqDecision action.
Proof. solve_decision. Defined.

(** A parser without positional arguments (every sub-command parser, and
    the top-level parser apart from its sub-parsers group). *)
Record ArgumentParser : Type := {
  actions : list action;
}.

(** The group [add_subparsers] returns: the destination of the command
    name, the help lines in the order the commands were added, and the map
    from command name to parser. *)
Record SubParsers : Type := {
  sp_dest : string;
  choices_actions : list (string * string);
  name_parser_map : gmap string ArgumentParser;
}.

Abbreviation namespace := (gmap string argval).

Definition help_action : action :=
  {| option_strings := ["-h"; "--help"]; dest := None; required := false;
     action_default := None; kind := HelpAction |}.

(** [ArgumentParser()]: [add_help] is on by default. *)
Definition new_parser : ArgumentParser := {| actions := [help_action] |}.

(** [_option_string_actions] *)
Definition option_string_actions (p : ArgumentParser) : list (string * action) :=
  flat_map (fun a => map (fun o => (o, a)) (option_strings a)) (actions p).

Definition lookup_option (p : ArgumentParser) (o : string) : option action :=
  snd <$> find (fun oa => String.eqb oa.1 o) (option_string_actions p).

(** [s.replace(a, b)] for one-character [a] and [b]. *)
Fixpoint str_replace (a b : ascii) (s : string) : string :=
  match s with
  | "" => ""
  | String c s' => String (if Ascii.eqb c a then b else c) (str_replace a b s')
  end.

(** [s.lstrip(c)] *)
Fixpoint lstrip (c : ascii) (s : string) : string :=
  match s with
  | String c' s' => if Ascii.eqb c' c then lstrip c s' else s
  | "" => ""
  end.

(** [parser.add_argument(flag, action='store', required=..., default=...)]
    for a flag that starts with ["--"].  The destination is the flag
    without its leading hyphens, the other hyphens turned into underscores;
    a flag made of hyphens only has none, which is a [ValueError]
    (dest= is required).  After that, an option string the parser already
    has is a conflict. *)
Definition add_argument (p : ArgumentParser) (flag : string)
    (req : bool) (dflt : argval) : outcome ArgumentParser :=
  let stripped := lstrip "-" flag in
  if String.eqb stripped "" then Raise ValueError
  else
    match lookup_option p flag with
    | Some _ => Raise ArgumentError
    | None =>
        let a := {| option_strings := [flag];
                    dest := Some (str_replace "-" "_" stripped);
                    required := req; action_default := dflt;
                    kind := StoreAction |} in
        Ok {| actions := actions p ++ [a] |}
    end.

(** *** Recognising an argument string *)

(** [s.split('=', 1)] when ['=' in s]. *)
Fixpoint split_eq (s : string) : option (string * string) :=
  match s with
  | "" => None
  | String c s' =>
      if Ascii.eqb c "=" then Some ("", s')
      else match split_eq s' with
           | Some (l, r) => Some (String c l, r)
           | None => None
           end
  end.

Fixpoint contains_char (c : ascii) (s : string) : bool :=
  match s with
  | "" => false
  | String c' s' => Ascii.eqb c' c || contains_char c s'
  end.

Definition is_digit (c : ascii) : bool :=
  (48 <=? nat_of_ascii c) && (nat_of_ascii c <=? 57).

Fixpoint skip_digits (s : string) : string :=
  match s with
  | String c s' => if is_digit c then skip_digits s' else s
  | "" => ""
  end.

(** Where ['$'] matches: at the end, or before a final newline. *)
Definition at_end (s : string) : bool :=
  String.eqb s "" || String.eqb s (String (ascii_of_nat 10) "").

(** [_negative_number_matcher], ['^-\d+$|^-\d*\.\d+$']. *)
Definition negative_number (s : string) : bool :=
  match s with
  | String "-" t =>
      let r := skip_digits t in
      (negb (String.eqb r t) && at_end r)
      || match r with
         | String "." u =>
             let v := skip_digits u in negb (String.eqb v u) && at_end v
         | _ => false
         end
  | _ => false
  end.

Definition has_negative_number_optionals (p : ArgumentParser) : bool :=
  existsb (fun oa => negative_number oa.1) (option_string_actions p).

(** What [_parse_optional] returns for an option: the action (or [None]
    when no option of this parser matches), the option string, and the
    explicit argument of [--flag=value]. *)
Definition option_tuple : Type := option action * string * option string.

(** [_get_option_tuples]: the options an argument string abbreviates. *)
Definition get_option_tuples (p : ArgumentParser) (s : string) : list option_tuple :=
  match s with
  | String "-" (String "-" _) =>
      let (option_prefix, explicit_arg) :=
        match split_eq s with
        | Some (l, r) => (l, Some r)
        | None => (s, None)
        end in
      omap (fun oa : string * action =>
              if startswith option_prefix oa.1
              then Some (Some oa.2, oa.1, explicit_arg) else None)
           (option_string_actions p)
  | String "-" (String c rest) =>
      let short_option_prefix := String "-" (String c "") in
      omap (fun oa : string * action =>
              if String.eqb oa.1 short_option_prefix
              then Some (Some oa.2, oa.1, Some rest)
              else if startswith s oa.1
                   then Some (Some oa.2, oa.1, None) else None)
           (option_string_actions p)
  | _ => []
  end.

(** [_parse_optional]: [Ok None] for a positional argument string. *)
Definition parse_optional (p : ArgumentParser) (s : string)
    : outcome (option option_tuple) :=
  match s with
  | "" => Ok None
  | String c _ =>
      if negb (Ascii.eqb c "-") then Ok None
      else match lookup_option p s with
      | Some a => Ok (Some (Some a, s, None))
      | None =>
          if String.length s =? 1 then Ok None
          else
            let by_eq :=
              match split_eq s with
              | Some (o, e) =>
                  match lookup_option p o with
                  | Some a => Some (Some a, o, Some e)
                  | None => None
                  end
              | None => None
              end in
            match by_eq with
            | Some t => Ok (Some t)
            | None =>
                match get_option_tuples p s with
                | _ :: _ :: _ => usage_error      (* ambiguous option *)
                | [t] => Ok (Some t)
                | [] =>
                    if negative_number s && negb (has_negative_number_optionals p)
                    then Ok None
                    else if contains_char " " s then Ok None
                    else Ok (Some (None, s, None))
                end
            end
      end
  end.

(** The letter of an argument string in [arg_strings_pattern]. *)
Inductive arg_class : Type :=
  | ClsA                      (* 'A': an argument *)
  | ClsDash                   (* '-': the separator "--" *)
  | ClsO (t : option_tuple).  (* 'O': an option *)

(** Every string is classified before any action is taken; all strings
    after ["--"] are arguments. *)
Fixpoint classify (p : ArgumentParser) (args : list string)
    : outcome (list (string * arg_class)) :=
  match args with
  | [] => Ok []
  | s :: rest =>
      if String.eqb s "--"
      then Ok ((s, ClsDash) :: map (fun x => (x, ClsA)) rest)
      else obind (parse_optional p s) (fun t =>
           obind (classify p rest) (fun r =>
           Ok ((s, match t with None => ClsA | Some t => ClsO t end) :: r)))
  end.

(** *** Consuming the classified strings *)

Record scan_state : Type := {
  st_ns : namespace;
  st_seen : list action;
  st_extras : list string;
}.

Definition add_extra (s : string) (st : scan_state) : scan_state :=
  {| st_ns := st_ns st; st_seen := st_seen st; st_extras := st_extras st ++ [s] |}.

(** [take_action] for a store action: note it as seen, bind its
    destination. *)
Definition take_store (a : action) (v : string) (st : scan_state) : scan_state :=
  {| st_ns := match dest a with
              | Some d => <[d := Some v]> (st_ns st)
              | None => st_ns st
              end;
     st_seen := a :: st_seen st;
     st_extras := st_extras st |}.

(** Whether an option is waiting for its argument.  An option that takes
    one argument must be followed by an ['A'] at once (for an option, the
    separator is taken out of the pattern of its arguments): the scan is
    either between options, or right after an option that wants the next
    string (the given store action, or an option met after a help flag in
    one cluster). *)
Inductive pending : Type :=
  | Idle
  | Want (a : option action).

(** What the loop of [consume_optional] over a cluster of single-dash
    options finds after a help flag, given the explicit argument [e]. *)
Inductive cluster_result : Type :=
  | ClusterHelp      (* the cluster parses: the help action runs first *)
  | ClusterWant      (* it ends in an option that needs the next string *)
  | ClusterError     (* ignored explicit argument *)
  | ClusterCrash.    (* explicit_arg[0] of an empty string *)

Fixpoint help_cluster (p : ArgumentParser) (e : string) : cluster_result :=
  match e with
  | "" => ClusterCrash
  | String c e' =>
      match lookup_option p (String "-" (String c "")) with
      | None => ClusterError
      | Some a =>
          match kind a, e' with
          | HelpAction, "" => ClusterHelp
          | HelpAction, _ => if Ascii.eqb c "-" then ClusterError else help_cluster p e'
          | StoreAction, "" => ClusterWant
          | StoreAction, _ => ClusterHelp
          end
      end
  end.

(** The positional argument of a parser with a sub-parsers group: given
    the strings from the command name on and the namespace, the namespace
    and the strings nothing recognised. *)
Definition positional_fn : Type :=
  list string -> namespace -> outcome (namespace * list string).

(** Does the pattern from here on start with ['-*A']? *)
Fixpoint starts_positional (cl : list (string * arg_class)) : bool :=
  match cl with
  | (_, ClsA) :: _ => true
  | (_, ClsDash) :: rest => starts_positional rest
  | _ => false
  end.

(** The main loop of [_parse_known_args].  [pos] is the positional still
    to be consumed, if the parser has one. *)
Fixpoint scan (p : ArgumentParser) (pos : option positional_fn)
    (cl : list (string * arg_class)) (pd : pending) (st : scan_state)
    : outcome scan_state :=
  match cl with
  | [] =>
      match pd with
      | Want _ => usage_error                  (* expected one argument *)
      | _ => match pos with
             | Some _ => usage_error           (* too few arguments *)
             | None => Ok st
             end
      end
  | (s, c) :: rest =>
      match pd, c with
      | Want (Some a), ClsA => scan p pos rest Idle (take_store a s st)
      | Want None, ClsA => help_exit
      | Want _, _ => usage_error               (* expected one argument *)
      | _, ClsO (None, _, _) => scan p pos rest Idle (add_extra s st)
      | _, ClsO (Some a, ostr, explicit) =>
          match kind a, explicit with
          | StoreAction, Some e => scan p pos rest Idle (take_store a e st)
          | StoreAction, None => scan p pos rest (Want (Some a)) st
          | HelpAction, None => help_exit
          | HelpAction, Some e =>
              if startswith "--" ostr then usage_error   (* ignored explicit argument *)
              else match help_cluster p e with
                   | ClusterHelp => help_exit
                   | ClusterWant => scan p pos rest (Want None) st
                   | ClusterError => usage_error
                   | ClusterCrash => Raise IndexError
                   end
          end
      | _, _ =>
          match pos with
          | Some f =>
              if starts_positional cl
              then obind (f (map fst cl) (st_ns st)) (fun r =>
                   Ok {| st_ns := r.1; st_seen := st_seen st;
                         st_extras := st_extras st ++ r.2 |})
              else scan p pos rest Idle (add_extra s st)
          | None => scan p pos rest Idle (add_extra s st)
          end
      end
  end.

(** The defaults [parse_known_args] installs first, for destinations the
    namespace does not have yet. *)
Definition install_defaults (acts : list action) (ns : namespace) : namespace :=
  fold_left (fun ns a =>
               match dest a with
               | Some d => match ns !! d with
                           | Some _ => ns
                           | None => <[d := action_default a]> ns
                           end
               | None => ns
               end) acts ns.

(** The check that closes [_parse_known_args]. *)
Definition check_required (acts : list action) (seen : list action) : bool :=
  forallb (fun a => negb (required a) || bool_decide (a ∈ seen)) acts.

Definition parse_known_args (p : ArgumentParser) (pos : option positional_fn)
    (args : list string) (ns : namespace) : outcome (namespace * list string) :=
  let ns := install_defaults (actions p) ns in
  obind (classify p args) (fun cl =>
  obind (scan p pos cl Idle {| st_ns := ns; st_seen := []; st_extras := [] |}) (fun st =>
  if check_required (actions p) (st_seen st)
  then Ok (st_ns st, st_extras st)
  else usage_error)).                          (* argument ... is required *)

(** [_SubParsersAction.__call__], after the check of the command name
    against the choices. *)
Definition subparsers_call (grp : SubParsers) : positional_fn :=
  fun values ns =>
    match values with
    | [] => usage_error
    | parser_name :: arg_strings =>
        match name_parser_map grp !! parser_name with
        | None => usage_error                  (* invalid choice *)
        | Some parser =>
            parse_known_args parser None arg_strings
              (<[sp_dest grp := Some parser_name]> ns)
        end
    end.

(** The top-level parser with its sub-parsers group. *)
Record TopParser : Type := {
  top : ArgumentParser;
  group : SubParsers;
}.

(** [argparser.parse_args()] on [sys.argv[1:]]. *)
Definition parse_args (ap : TopParser) (argv : list string) : outcome namespace :=
  obind (parse_known_args (top ap) (Some (subparsers_call (group ap))) argv
           (<[sp_dest (group ap) := None]> ∅)) (fun r =>
  match r.2 with
  | [] => Ok r.1
  | _ :: _ => usage_error                      (* unrecognized arguments *)
  end).

(** ** The parser builder *)

(** [dict(zip(reversed(argspec.args), argspec.defaults or ()))] *)
Definition defaults_of (f : pyfunc) : gmap string argval :=
  dict_of_items (zip (reverse (fn_args f)) (default [] (fn_defaults f))).

(** The flag of a parameter. *)
Definition flag_of (arg : string) : string := "--" +:+ str_replace "_" "-" arg.

(** The inner loop: one [add_argument] per parameter. *)
Fixpoint add_arguments (sub_ap : ArgumentParser) (defaults : gmap string argval)
    (args : list string) : outcome ArgumentParser :=
  match args with
  | [] => Ok sub_ap
  | arg :: args' =>
      obind (add_argument sub_ap (flag_of arg)
               (negb (bool_decide (is_Some (defaults !! arg))))
               (default None (defaults !! arg))) (fun sub_ap' =>
      add_arguments sub_ap' defaults args')
  end.

(** The outer loop.  The parser of a command is put into the group's map
    when [add_parser] creates it and filled afterwards; as a failing
    [add_argument] aborts the whole construction, storing the filled parser
    gives the same result. *)
Fixpoint add_commands (cmd_fns : list (pyfunc * string))
    (commands : gmap string pyfunc) (ap_grp : SubParsers)
    : outcome (gmap string pyfunc * SubParsers) :=
  match cmd_fns with
  | [] => Ok (commands, ap_grp)
  | (cmd_fn, help_text) :: rest =>
      let commands := <[fn_name cmd_fn := cmd_fn]> commands in
      obind (add_arguments new_parser (defaults_of cmd_fn) (fn_args cmd_fn)) (fun sub_ap =>
      add_commands rest commands
        {| sp_dest := sp_dest ap_grp;
           choices_actions := choices_actions ap_grp ++ [(fn_name cmd_fn, help_text)];
           name_parser_map := <[fn_name cmd_fn := sub_ap]> (name_parser_map ap_grp) |})
  end.

Definition generate_cmd_parser (cmd_fns : list (pyfunc * string))
    : outcome (gmap string pyfunc * TopParser) :=
  let argparser := new_parser in
  let ap_grp := {| sp_dest := "cmd"; choices_actions := []; name_parser_map := ∅ |} in
  obind (add_commands cmd_fns ∅ ap_grp) (fun r =>
  Ok (r.1, {| top := argparser; group := r.2 |})).

(** ** The metadata collaborator *)

(** One creator of a citation, as [Cmeta.get_citation] reports it. *)
Record creator_info : Type := {
  family : pyval;
  given : pyval;
  other : list string;
}.

(** One citation, with the keys the handler reads. *)
Record citation_info : Type := {
  citation_id : pyval;
  journal : pyval;
  title : pyval;
  issued : pyval;
  creator : list creator_info;
}.

(** One vcard of [get_dc_vcard_info]. *)
Record vcard_info : Type := {
  vc_given : string;
  vc_family : string;
  vc_orgunit : string;
  vc_orgname : string;
}.

(** A parsed [Cmeta] object, as the record of what its query methods do
    when the handlers call them; each may raise. *)
Record Cmeta : Type := {
  get_license : outcome pyval;
  get_cmetaid : outcome (list pyval);
  get_citation : pyval -> outcome (list citation_info);
  get_keywords : outcome pyval;
  get_dc_title : outcome (list pyval);          (* called with node='' *)
  get_dc_vcard_info : outcome (list vcard_info); (* called with node='' *)
}.

(** ** Specification vocabulary

    Definitions the statements below are phrased with. *)

Definition citation_keys : list string :=
  ["citation_id"; "citation_bibliographicCitation"; "citation_title";
   "citation_issued"; "citation_authors"].

(** The record after the three steps that follow [generate_citation]. *)
Definition after_citation (r0 : gmap string pyval) (kw : pyval)
    (titles : list pyval) (vcards : list vcard_info) : gmap string pyval :=
  let r1 := <["keywords" := kw]> r0 in
  let r2 := match titles with
            | [] => r1
            | t0 :: _ => <["model_title" := t0]> r1
            end in
  match vcards with
  | [] => r2
  | info :: _ =>
      <["model_author_org" := PyStr (vc_orgunit info +:+ ", " +:+ vc_orgname info)]>
        (<["model_author" := PyStr (vc_given info +:+ " " +:+ vc_family info)]> r2)
  end.

(** The store action [add_arguments] adds for a parameter. *)
Definition store_action (defaults : gmap string argval) (arg : string) : action :=
  {| option_strings := [flag_of arg];
     dest := Some (str_replace "-" "_" (lstrip "-" (flag_of arg)));
     required := negb (bool_decide (is_Some (defaults !! arg)));
     action_default := default None (defaults !! arg);
     kind := StoreAction |}.

(** The parser of one command. *)
Definition command_parser (f : pyfunc) : outcome ArgumentParser :=
  add_arguments new_parser (defaults_of f) (fn_args f).

Definition required_store (flag dst : string) : action :=
  {| option_strings := [flag]; dest := Some dst; required := true;
     action_default := None; kind := StoreAction |}.

Definition optional_store (flag dst : string) (dflt : argval) : action :=
  {| option_strings := [flag]; dest := Some dst; required := false;
     action_default := dflt; kind := StoreAction |}.

Definition in_out_parser : ArgumentParser :=
  {| actions := [help_action;
                 required_store "--input-path" "input_path";
                 required_store "--output-dir" "output_dir"] |}.

Definition citation_parser : ArgumentParser :=
  {| actions := [help_action;
                 required_store "--input-path" "input_path";
                 required_store "--output-dir" "output_dir";
                 required_store "--license-uri" "license_uri";
                 optional_store "--file-format" "file_format" None] |}.

Definition docgen_parser : ArgumentParser :=
  {| actions := [help_action;
                 required_store "--doctype" "doctype";
                 required_store "--input-path" "input_path";
                 required_store "--output-dir" "output_dir"] |}.

Definition registry_parser : TopParser :=
  {| top := new_parser;
     group :=
       {| sp_dest := "cmd";
          choices_actions :=
            [("citation", "Citation"); ("cmeta", "CellML metadata");
             ("codegen", "CellML codegen"); ("docgen", "CellML docgen");
             ("maths", "CellML math")];
          name_parser_map :=
            <["maths" := in_out_parser]> (<["docgen" := docgen_parser]>
              (<["codegen" := in_out_parser]> (<["cmeta" := in_out_parser]>
                (<["citation" := citation_parser]> ∅)))) |} |}.

(** The action an argument string is recognised as (spelled out, as
    [--flag=value], or abbreviated), if any. *)
Definition resolves (p : ArgumentParser) (s : string) : option action :=
  match parse_optional p s with
  | Ok (Some (Some a, _, _)) => Some a
  | _ => None
  end.

(** No argument string gives the flag of action [a]. *)
Definition flag_omitted (p : ArgumentParser) (a : action) (args : list string) : bool :=
  forallb (fun s => negb (bool_decide (resolves p s = Some a))) args.

(** Some argument string is a help flag. *)
Definition help_requested (p : ArgumentParser) (args : list string) : bool :=
  existsb (fun s => match resolves p s with
                    | Some a => bool_decide (kind a = HelpAction)
                    | None => false
                    end) args.

(** One entry of [math.json] when [g] is what [mathc2p] makes of an
    expression. *)
Definition maths_entry (g : string -> string) (kv : pyval * list string) : pyval :=
  PyTuple [kv.1; PyList (map (fun e => PyStr (g e)) kv.2)].

(** Does a string start with four digits? *)
Definition starts_with_year (s : string) : bool :=
  match s with
  | String a (String b (String c (String d _))) =>
      is_digit a && is_digit b && is_digit c && is_digit d
  | _ => false
  end.

(** What [cmeta] keeps of an [issued] value. *)
Definition checked_issued (v : pyval) : string :=
  match v with
  | PyStr s => if starts_with_year s then s else ""
  | _ => ""
  end.

(** The entry of [citation_authors] for one creator. *)
Definition author_triple (c : creator_info) : pyval :=
  PyTuple [family c; given c; PyStr (str_join " " (other c))].

(** A string the parser takes as an argument wherever it stands: one that
    does not start with a hyphen. *)
Definition plain_value (v : string) : bool := negb (startswith "-" v).

(** A command line made of flags, each followed by its value.  An item
    holds the flag as written, the action it stands for and the value. *)
Definition flag_values (items : list (string * action * string)) : list string :=
  flat_map (fun x => [x.1.1; x.2]) items.

(** The state of the scan after these items. *)
Definition store_all (items : list (string * action * string)) (st : scan_state)
    : scan_state :=
  fold_left (fun st x => take_store x.1.2 x.2 st) items st.

(** The parameters of a signature that have no default: all but the last
    [len(defaults)]. *)
Definition without_default (f : pyfunc) : list string :=
  take (length (fn_args f) - length (default [] (fn_defaults f))) (fn_args f).

(** The command line that gives parameters values: for each pair of a
    parameter name and a value, the parameter's flag and the value. *)
Definition flags_for (given : list (string * string)) : list string :=
  flat_map (fun x => [flag_of x.1; x.2]) given.

(** The value such a command line gives a parameter: that of the last flag
    for it, if there is one. *)
Fixpoint given_value (given : list (string * string)) (arg : string) : option string :=
  match given with
  | [] => None
  | x :: rest =>
      match given_value rest arg with
      | Some v => Some v
      | None => if String.eqb x.1 arg then Some x.2 else None
      end
  end.

(** What the handler gets for a parameter: the value given, or else the
    default the parameter's flag carries. *)
Definition bound_value (f : pyfunc) (given : list (string * string)) (arg : string)
    : argval :=
  match given_value given arg with
  | Some v => Some v
  | None => default None (defaults_of f !! arg)
  end.

(** The same command line, as flags with their store actions. *)
Definition items_of (f : pyfunc) (given : list (string * string))
    : list (string * action * string) :=
  map (fun x => (flag_of x.1, store_action (defaults_of f) x.1, x.2)) given.

(** Does a parameter name leave its flag a destination?  Not when it is
    made of underscores only: its flag is then made of hyphens only. *)
Definition names_a_destination (arg : string) : bool :=
  negb (String.eqb (lstrip "-" (flag_of arg)) "").

(** ** A sample environment

    Concrete collaborators and files, for the examples that close the
    development. *)

Definition sample_can_write (path : string) : bool := true.

(** Metadata without cmeta id, keywords, title or vcard, and with an empty
    license. *)
Definition bare_metadata : Cmeta :=
  {| get_license := Ok (PyStr "");
     get_cmetaid := Ok [];
     get_citation := fun _ => Ok [];
     get_keywords := Ok (PyList []);
     get_dc_title := Ok [];
     get_dc_vcard_info := Ok [] |}.

Definition uncredited_citation : citation_info :=
  {| citation_id := PyStr "urn:miriam:pubmed:13939463";
     journal := PyStr "Journal of Physiology";
     title := PyStr "A modification of the Hodgkin-Huxley equations";
     issued := PyStr "1962-01";
     creator := [] |}.

(** Metadata with a citation that names no creator. *)
Definition uncredited_metadata : Cmeta :=
  {| get_license := Ok (PyStr "http://creativecommons.org/licenses/by/3.0/");
     get_cmetaid := Ok [PyStr "noble_1962"];
     get_citation := fun _ => Ok [uncredited_citation];
     get_keywords := Ok (PyList [PyStr "cardiac"]);
     get_dc_title := Ok [PyStr "Noble 1962"];
     get_dc_vcard_info :=
       Ok [{| vc_given := "Catherine"; vc_family := "Lloyd";
              vc_orgunit := "Auckland Bioengineering Institute";
              vc_orgname := "The University of Auckland" |}] |}.

Definition sample_Cmeta_new (data : file_data) : outcome Cmeta :=
  match data with
  | Text "<bare/>" => Ok bare_metadata
  | Text "<uncredited/>" => Ok uncredited_metadata
  | _ => Raise (LibraryError "Cmeta")
  end.

Definition sample_loadFromURL (fs : filesystem) (path : argval) : outcome unit :=
  Raise (LibraryError "CellMLAPIUtility").

Definition sample_exportCeleds (m : unit) : outcome (list (string * pyval)) := Ok [].

Definition sample_extractMaths (m : unit) : outcome (list (pyval * list string)) := Ok [].

Definition sample_mathc2p (s : string) : outcome string := Ok s.

Definition sample_tmpdoc2html (data : file_data) : outcome pyval := Ok (PyStr "").

(** A signature with two different defaults, [def f(a, b='x', c='y')]. *)
Definition two_defaults_fn : pyfunc :=
  {| fn_name := "f"; fn_args := ["a"; "b"; "c"];
     fn_defaults := Some [Some "x"; Some "y"];
     fn_body := fun _ => ret tt |}.

Definition sample_fs : filesystem :=
  <["bare.cellml" := Text "<bare/>"]>
    (<["uncredited.cellml" := Text "<uncredited/>"]>
       (<["doc.html" := Text "<p>Noble 1962</p>"]> ∅)).

(** The parser of [two_defaults_fn]. *)
Definition two_defaults_parser : ArgumentParser :=
  {| actions := [help_action;
                 required_store "--a" "a";
                 optional_store "--b" "b" (Some "y");
                 optional_store "--c" "c" (Some "x")] |}.

(** Metadata whose citation names two creators. *)
Definition credited_citation : citation_info :=
  {| citation_id := PyStr "urn:miriam:pubmed:12991237";
     journal := PyStr "Journal of Physiology";
     title := PyStr "A quantitative description of membrane current";
     issued := PyStr "1952";
     creator := [{| family := PyStr "Hodgkin"; given := PyStr "Alan";
                    other := ["Lloyd"] |};
                 {| family := PyStr "Huxley"; given := PyStr "Andrew";
                    other := [] |}] |}.

Definition credited_metadata : Cmeta :=
  {| get_license := Ok PyNone;
     get_cmetaid := Ok [PyStr "hodgkin_1952"];
     get_citation := fun _ => Ok [credited_citation];
     get_keywords := Ok (PyList []);
     get_dc_title := Ok [];
     get_dc_vcard_info := Ok [] |}.

Definition credited_Cmeta_new (data : file_data) : outcome Cmeta :=
  match data with
  | Text "<credited/>" => Ok credited_metadata
  | _ => Raise (LibraryError "Cmeta")
  end.

Definition credited_fs : filesystem := <["hh.cellml" := Text "<credited/>"]> ∅.

(** A model loader that stands for the model by its path, with two
    exports: one of known languages, one with a language in the middle
    that [codegen_fileext] does not know. *)
Definition path_loadFromURL (fs : filesystem) (path : argval) : outcome string :=
  match path with
  | Some p => Ok p
  | None => Raise TypeError
  end.

Definition heart_celeds : list (string * pyval) :=
  [("C", PyStr "double rates[1];"); ("Python", PyStr "from math import *")].

Definition odd_celeds : list (string * pyval) :=
  [("C", PyStr "double rates[1];"); ("Java", PyStr "class Model {}");
   ("Python", PyStr "from math import *")].

Definition path_exportCeleds (m : string) : outcome (list (string * pyval)) :=
  if String.eqb m "odd.cellml" then Ok odd_celeds else Ok heart_celeds.

Definition heart_maths : list (pyval * list string) :=
  [(PyStr "membrane", ["<ci>V</ci>"; "<cn>1</cn>"]); (PyStr "sodium", [])].

Definition odd_maths : list (pyval * list string) :=
  [(PyStr "membrane", ["<ci>V</ci>"; "<bad/>"])].

Definition path_extractMaths (m : string) : outcome (list (pyval * list string)) :=
  if String.eqb m "odd.cellml" then Ok odd_maths else Ok heart_maths.

Definition tagging (s : string) : string := "<mrow>" +:+ s +:+ "</mrow>".

Definition tagging_mathc2p (s : string) : outcome string :=
  if String.eqb s "<bad/>" then Raise (LibraryError "XSLT") else Ok (tagging s).

Definition wrapping_tmpdoc2html (data : file_data) : outcome pyval :=
  match data with
  | Text s => Ok (PyStr ("<html>" +:+ s +:+ "</html>"))
  | _ => Raise (LibraryError "tmpdoc2html")
  end.

(** A handler with a parameter named [help]. *)
Definition explain_fn : pyfunc :=
  {| fn_name := "explain"; fn_args := ["topic"; "help"];
     fn_defaults := None; fn_body := fun _ => ret tt |}.

(** A handler whose first parameter is a lone underscore. *)
Definition blank_fn : pyfunc :=
  {| fn_name := "blank"; fn_args := ["_"; "help"];
     fn_defaults := None; fn_body := fun _ => ret tt |}.

(** An encoder that rejects a byte string holding the byte 0xFF, which no
    UTF-8 text has, with a [UnicodeDecodeError] (a [ValueError]). *)
Fixpoint has_byte_ff (v : pyval) : bool :=
  match v with
  | PyNone => false
  | PyStr s => contains_char "255"%char s
  | PyList l | PyTuple l => existsb has_byte_ff l
  end.

Definition sample_json_rejects (d : file_data) : option exn :=
  match d with
  | JsonRecord r =>
      if existsb (fun kv : string * pyval => has_byte_ff kv.2) (map_to_list r)
      then Some ValueError else None
  | JsonValue v => if has_byte_ff v then Some ValueError else None
  | _ => None
  end.

(** Metadata whose title is not UTF-8. *)
Definition garbled_metadata : Cmeta :=
  {| get_license := Ok PyNone;
     get_cmetaid := Ok [];
     get_citation := fun _ => Ok [];
     get_keywords := Ok (PyList []);
     get_dc_title := Ok [PyStr (String "255"%char "")];
     get_dc_vcard_info := Ok [] |}.

Definition garbled_Cmeta_new (data : file_data) : outcome Cmeta :=
  match data with
  | Text "<garbled/>" => Ok garbled_metadata
  | _ => Raise (LibraryError "Cmeta")
  end.

Definition garbled_fs : filesystem := <["garbled.cellml" := Text "<garbled/>"]> ∅.

Section Handlers.

(** *** Environment *)

(** Whether [open(path, 'w')] succeeds (the directory exists and is
    writable). *)
Variable can_write : string -> bool.

(** [Cmeta(fd)]: parse the metadata of an open file. *)
Variable Cmeta_new : file_data -> outcome Cmeta.

(** The CellML API utility: [cu.model_loader.loadFromURL(path)],
    [cu.exportCeleds(model).items()] (the generated code per language, in
    the order the dict yields it) and [cu.extractMaths(model)]. *)
Variable model : Type.
Variable loadFromURL : filesystem -> argval -> outcome model.
Variable exportCeleds : model -> outcome (list (string * pyval)).
Variable extractMaths : model -> outcome (list (pyval * list string)).

(** The XSLT step of [mathc2p]. *)
Variable mathc2p : string -> outcome string.

(** [tmpdoc2html(inc).getvalue()] *)
Variable tmpdoc2html : file_data -> outcome pyval.

(** The encoder of [json.dump]: [None] when it encodes the whole document,
    or the exception it raises at the first value it cannot encode (a
    byte string that is not UTF-8, a value of a type it does not know). *)
Variable json_rejects : file_data -> option exn.

(** *** File primitives *)

(** [open(path)]: the handle is the path; reads see the file as it is at
    the time of the read. *)
Definition open_r (path : argval) : M string :=
  fun fs => match path with
            | None => (Raise TypeError, fs)
            | Some p => match fs !! p with
                        | Some _ => (Ok p, fs)
                        | None => (Raise IOError, fs)
                        end
            end.

(** [fd.read()] *)
Definition read (h : string) : M file_data :=
  fun fs => match fs !! h with
            | Some d => (Ok d, fs)
            | None => (Raise IOError, fs)
            end.

(** [open(path, 'w')]: creates the file or truncates it. *)
Definition open_w (path : string) : M string :=
  fun fs => if can_write path
            then (Ok path, <[path := Text ""]> fs)
            else (Raise IOError, fs).

(** [fd.write(v)] at the end of what the handle wrote so far. *)
Definition write (h : string) (v : pyval) : M unit :=
  fun fs => match v with
            | PyStr s =>
                let old := match fs !! h with Some (Text t) => t | _ => "" end in
                (Ok tt, <[h := Text (old +:+ s)]> fs)
            | _ => (Raise TypeError, fs)
            end.

(** [fd.write(inc.read())], where the data is whatever the file held. *)
Definition write_data (h : string) (d : file_data) : M unit :=
  fun fs => match d with
            | Text s => write h (PyStr s) fs
            | _ => (Ok tt, <[h := d]> fs)
            end.

(** [json.dump(obj, fd)] into a freshly opened file.  The document is
    written piece by piece as the encoder yields it: when the encoder
    raises, the exception is the caller's and the file keeps the pieces
    written so far. *)
Definition json_dump (d : file_data) (h : string) : M unit :=
  fun fs => match json_rejects d with
            | None => (Ok tt, <[h := d]> fs)
            | Some e => (Raise e, <[h := JsonCut d]> fs)
            end.

(** *** citation *)

Definition citation_cellml (input_path : argval) : M pyval :=
  fd <- open_r input_path ;;
  data <- read fd ;;
  metadata <- lift (Cmeta_new data) ;;
  lift (get_license metadata).

Definition citation_extract : gmap string (argval -> M pyval) :=
  dict_of_items [("cellml", citation_cellml)].

Definition citation (input_path output_dir license_uri file_format : argval)
  : M unit :=
  extracted <- dict_get citation_extract file_format (fun _ => ret PyNone) input_path ;;
  let license_uri := if truthy extracted then extracted else to_py license_uri in
  output_file <- lift (join output_dir "license.txt") ;;
  fd <- open_w output_file ;;
  write fd license_uri.

(** *** codegen *)

Definition codegen_fileext : gmap string string :=
  dict_of_items [("Python", "py"); ("C_IDA", "c"); ("C", "c");
                 ("F77", "f77"); ("MATLAB", "m")].

Definition codegen (input_path output_dir : argval) : M unit :=
  model <- (fun fs => (loadFromURL fs input_path, fs)) ;;
  celeds <- lift (exportCeleds model) ;;
  for_each celeds (fun kv =>
    ext <- lift (dict_getitem codegen_fileext (Some kv.1)) ;;
    output_file <- lift (join output_dir ("code." +:+ kv.1 +:+ "." +:+ ext)) ;;
    fd <- open_w output_file ;;
    write fd kv.2).

(** *** cmeta *)

(** One repetition of the group [(-[0-9]{2})]: what is left after it. *)
Definition re_date_group (s : string) : option string :=
  match s with
  | String "-" (String a (String b s')) =>
      if is_digit a && is_digit b then Some s' else None
  | _ => None
  end.

(** [re_date.search(s)] for [re_date = '^[0-9]{4}(-[0-9]{2}){0,2}']: the
    number of characters matched at the start of [s], or [None]. *)
Definition re_date_search (s : string) : option nat :=
  match s with
  | String a (String b (String c (String d s1))) =>
      if is_digit a && is_digit b && is_digit c && is_digit d then
        match re_date_group s1 with
        | Some s2 => match re_date_group s2 with
                     | Some _ => Some 10
                     | None => Some 7
                     end
        | None => Some 4
        end
      else None
  | _ => None
  end.

(** The nested functions of [cmeta] update the dict [result] of the
    enclosing call; here each takes it and returns it updated. *)
Definition generate_citation (metadata : Cmeta) (result : gmap string pyval)
  : outcome (gmap string pyval) :=
  obind (get_cmetaid metadata) (fun ids =>
  match ids with
  | [] => Ok result
  | id0 :: _ =>
      obind (get_citation metadata id0) (fun citation =>
      match citation with
      | [] => Ok result
      | c0 :: _ =>
          let result := <["citation_id" := citation_id c0]> result in
          let result := <["citation_bibliographicCitation" := journal c0]> result in
          let result := <["citation_title" := title c0]> result in
          let result :=
            match issued c0 with
            | PyStr s =>
                if is_Some_dec (re_date_search s)
                then <["citation_issued" := PyStr s]> result
                else <["citation_issued" := PyStr ""]> result
            | _ => <["citation_issued" := PyStr ""]> result
            end in
          match creator c0 with
          | [] => Ok result
          | cs =>
              let authors :=
                map (fun c =>
                       let other := match other c with
                                    | [] => ""
                                    | o => str_join " " o
                                    end in
                       PyTuple [family c; given c; PyStr other]) cs in
              Ok (<["citation_authors" := PyList authors]> result)
          end
      end)
  end).

Definition generate_keywords (metadata : Cmeta) (result : gmap string pyval)
  : outcome (gmap string pyval) :=
  obind (get_keywords metadata) (fun kw => Ok (<["keywords" := kw]> result)).

Definition generate_model_title (metadata : Cmeta) (result : gmap string pyval)
  : outcome (gmap string pyval) :=
  obind (get_dc_title metadata) (fun model_title =>
  match model_title with
  | [] => Ok result
  | t0 :: _ => Ok (<["model_title" := t0]> result)
  end).

Definition generate_model_authorship (metadata : Cmeta) (result : gmap string pyval)
  : outcome (gmap string pyval) :=
  obind (get_dc_vcard_info metadata) (fun dcvc =>
  match dcvc with
  | [] => Ok result
  | info :: _ =>
      let result :=
        <["model_author" := PyStr (vc_given info +:+ " " +:+ vc_family info)]> result in
      Ok (<["model_author_org" :=
             PyStr (vc_orgunit info +:+ ", " +:+ vc_orgname info)]> result)
  end).

(** The four steps in the order [cmeta] runs them, from the empty dict. *)
Definition cmeta_record (metadata : Cmeta) : outcome (gmap string pyval) :=
  obind (generate_citation metadata ∅) (fun result =>
  obind (generate_keywords metadata result) (fun result =>
  obind (generate_model_title metadata result) (fun result =>
  generate_model_authorship metadata result))).

Definition cmeta (input_path output_dir : argval) : M unit :=
  fd <- open_r input_path ;;
  data <- read fd ;;
  metadata <- lift (Cmeta_new data) ;;
  result <- lift (cmeta_record metadata) ;;
  output_file <- lift (join output_dir "cmeta.json") ;;
  fd <- open_w output_file ;;
  json_dump (JsonRecord result) fd.

(** *** maths *)

Definition maths (input_path output_dir : argval) : M unit :=
  model <- (fun fs => (loadFromURL fs input_path, fs)) ;;
  maths <- lift (extractMaths model) ;;
  maths <- lift (map_outcome
                   (fun kv : pyval * list string =>
                      obind (map_outcome mathc2p kv.2) (fun ms =>
                      Ok (PyTuple [kv.1; PyList (map PyStr ms)])))
                   maths) ;;
  output_file <- lift (join output_dir "math.json") ;;
  fd <- open_w output_file ;;
  json_dump (JsonValue (PyList maths)) fd.

(** *** docgen *)

Definition tmpdoc (input_path output_dir : argval) : M unit :=
  inc <- open_r input_path ;;
  data <- read inc ;;
  output <- lift (tmpdoc2html data) ;;
  output_file <- lift (join output_dir "index.html") ;;
  fd <- open_w output_file ;;
  write fd output.

Definition htmldoc (input_path output_dir : argval) : M unit :=
  inc <- open_r input_path ;;
  output_file <- lift (join output_dir "index.html") ;;
  fd <- open_w output_file ;;
  data <- read inc ;;
  write_data fd data.

(** The handlers as function objects. *)
Definition body2 (f : argval -> argval -> M unit) (vals : list argval) : M unit :=
  match vals with
  | [a; b] => f a b
  | _ => raise TypeError
  end.

Definition htmldoc_fn : pyfunc :=
  {| fn_name := "htmldoc"; fn_args := ["input_path"; "output_dir"];
     fn_defaults := None; fn_body := body2 htmldoc |}.

Definition tmpdoc_fn : pyfunc :=
  {| fn_name := "tmpdoc"; fn_args := ["input_path"; "output_dir"];
     fn_defaults := None; fn_body := body2 tmpdoc |}.

Definition docs : list (pyfunc * string) :=
  [(htmldoc_fn, "HTML Documentation"); (tmpdoc_fn, "CellML legacy tmpdoc")].

Definition docs_lookup : gmap string pyfunc :=
  dict_of_items (map (fun fh : pyfunc * string => (fn_name fh.1, fh.1)) docs).

Definition docgen (doctype input_path output_dir : argval) : M unit :=
  fn <- lift (dict_getitem docs_lookup doctype) ;;
  call_positional fn [input_path; output_dir].

(** *** The command registry *)

Definition citation_fn : pyfunc :=
  {| fn_name := "citation";
     fn_args := ["input_path"; "output_dir"; "license_uri"; "file_format"];
     fn_defaults := Some [None];
     fn_body := fun vals => match vals with
                            | [a; b; c; d] => citation a b c d
                            | _ => raise TypeError
                            end |}.

Definition cmeta_fn : pyfunc :=
  {| fn_name := "cmeta"; fn_args := ["input_path"; "output_dir"];
     fn_defaults := None; fn_body := body2 cmeta |}.

Definition codegen_fn : pyfunc :=
  {| fn_name := "codegen"; fn_args := ["input_path"; "output_dir"];
     fn_defaults := None; fn_body := body2 codegen |}.

Definition docgen_fn : pyfunc :=
  {| fn_name := "docgen"; fn_args := ["doctype"; "input_path"; "output_dir"];
     fn_defaults := None;
     fn_body := fun vals => match vals with
                            | [a; b; c] => docgen a b c
                            | _ => raise TypeError
                            end |}.

Definition maths_fn : pyfunc :=
  {| fn_name := "maths"; fn_args := ["input_path"; "output_dir"];
     fn_defaults := None; fn_body := body2 maths |}.

Definition cmd_fns : list (pyfunc * string) :=
  [(citation_fn, "Citation"); (cmeta_fn, "CellML metadata");
   (codegen_fn, "CellML codegen"); (docgen_fn, "CellML docgen");
   (maths_fn, "CellML math")].

(** *** The dispatcher *)

(** [main()], for the command line [argv] (without the program name). *)
Definition main (argv : list string) : M unit :=
  r <- lift (generate_cmd_parser cmd_fns) ;;
  let (commands, argparser) := r : gmap string pyfunc * TopParser in
  kwargs <- lift (parse_args argparser argv) ;;
  cmd_key <- lift (match kwargs !! "cmd" with
                   | Some v => Ok v
                   | None => Raise KeyError
                   end) ;;
  let kwargs := delete "cmd" kwargs in
  fn <- lift (dict_getitem commands cmd_key) ;;
  call_kwargs fn kwargs.

(** The first statement of [citation]: the format-specific extraction. *)
Definition extract_license (file_format input_path : argval) : M pyval :=
  dict_get citation_extract file_format (fun _ => ret PyNone) input_path.

Definition registry_commands : gmap string pyfunc :=
  <["maths" := maths_fn]> (<["docgen" := docgen_fn]> (<["codegen" := codegen_fn]>
    (<["cmeta" := cmeta_fn]> (<["citation" := citation_fn]> ∅)))).

(** The conversion step of [maths]. *)
Definition convert_maths (ms : list (pyval * list string)) : outcome (list pyval) :=
  map_outcome
    (fun kv : pyval * list string =>
       obind (map_outcome mathc2p kv.2) (fun ms =>
       Ok (PyTuple [kv.1; PyList (map PyStr ms)])))
    ms.

(** The file [codegen] writes for language [k]. *)
Definition code_file (output_dir : argval) (k : string) : outcome string :=
  obind (dict_getitem codegen_fileext (Some k)) (fun ext =>
  join output_dir ("code." +:+ k +:+ "." +:+ ext)).

(** The loop of [codegen] over the exported items. *)
Definition write_celeds (output_dir : argval) (celeds : list (string * pyval)) : M unit :=
  for_each celeds (fun kv =>
    ext <- lift (dict_getitem codegen_fileext (Some kv.1)) ;;
    output_file <- lift (join output_dir ("code." +:+ kv.1 +:+ "." +:+ ext)) ;;
    fd <- open_w output_file ;;
    write fd kv.2).

(** ** Properties of the handlers *)

(** *** Running monadic code *)

Lemma bind_ok {A B} (c : M A) (k : A -> M B) fs a fs' :
  c fs = (Ok a, fs') -> (x <- c ;; k x) fs = k a fs'.
Proof. intros H. unfold bind. now rewrite H. Qed.

Lemma bind_raise {A B} (c : M A) (k : A -> M B) fs e fs' :
  c fs = (Raise e, fs') -> (x <- c ;; k x) fs = (Raise e, fs').
Proof. intros H. unfold bind. now rewrite H. Qed.

Lemma open_r_ok p d (fs : filesystem) :
  fs !! p = Some d -> open_r (Some p) fs = (Ok p, fs).
Proof. intros H. unfold open_r. now rewrite H. Qed.

Lemma read_ok p d (fs : filesystem) :
  fs !! p = Some d -> read p fs = (Ok d, fs).
Proof. intros H. unfold read. now rewrite H. Qed.

Lemma open_w_ok p (fs : filesystem) :
  can_write p = true -> open_w p fs = (Ok p, <[p := Text ""]> fs).
Proof. intros H. unfold open_w. now rewrite H. Qed.

(** Writing a string into a freshly truncated file leaves exactly it. *)
Lemma write_fresh p s (fs : filesystem) :
  write p (PyStr s) (<[p := Text ""]> fs) = (Ok tt, <[p := Text s]> fs).
Proof.
  unfold write. rewrite lookup_insert_eq. simpl.
  now rewrite insert_insert_eq.
Qed.

Lemma json_dump_fresh p d (fs : filesystem) :
  json_dump d p (<[p := Text ""]> fs)
  = match json_rejects d with
    | None => (Ok tt, <[p := d]> fs)
    | Some e => (Raise e, <[p := JsonCut d]> fs)
    end.
Proof. unfold json_dump. destruct (json_rejects d); now rewrite insert_insert_eq. Qed.

(** *** citation *)

Lemma citation_extract_lookup s :
  citation_extract !! s = if String.eqb s "cellml" then Some citation_cellml else None.
Proof.
  unfold citation_extract, dict_of_items. simpl.
  destruct (String.eqb_spec s "cellml") as [->|Hne].
  - apply lookup_insert_eq.
  - rewrite lookup_insert_ne by congruence. apply lookup_empty.
Qed.

(** The extraction only reads. *)
Lemma extract_license_reads file_format input_path fs :
  (extract_license file_format input_path fs).2 = fs.
Proof.
  unfold extract_license, dict_get.
  destruct file_format as [s|]; [|reflexivity].
  rewrite citation_extract_lookup.
  destruct (String.eqb s "cellml"); [|reflexivity]. simpl.
  unfold citation_cellml, bind, open_r, read, lift.
  destruct input_path as [p|]; [|reflexivity].
  destruct (fs !! p) eqn:E; [|reflexivity].
  rewrite E. destruct (Cmeta_new f); reflexivity.
Qed.

(** What [citation] does once the extraction has returned. *)
Lemma citation_after_extraction input_path output_dir license_uri file_format
    fs extracted out :
  (extract_license file_format input_path fs).1 = Ok extracted ->
  join output_dir "license.txt" = Ok out ->
  can_write out = true ->
  citation input_path output_dir license_uri file_format fs =
    write out (if truthy extracted then extracted else to_py license_uri)
          (<[out := Text ""]> fs).
Proof.
  intros Hx Hj Hw.
  pose proof (extract_license_reads file_format input_path fs) as Hfs.
  unfold citation. fold (extract_license file_format input_path).
  destruct (extract_license file_format input_path fs) as [o fs1] eqn:E.
  simpl in Hx, Hfs. subst o fs1.
  rewrite (bind_ok _ _ _ _ _ E).
  unfold bind at 1, lift at 1. rewrite Hj.
  rewrite (bind_ok _ _ _ _ _ (open_w_ok _ _ Hw)). reflexivity.
Qed.

(** C3. When the format-specific extraction of [citation] yields nothing
    ([None]; in particular when [file_format] is not a key of
    [citation_extract]), [license.txt] holds exactly the [license_uri]
    that was passed in; when the extraction yields a license URI, that
    URI is written instead. *)
Theorem citation_writes_license_uri
    input_path output_dir (license_uri : string) file_format fs out :
  join output_dir "license.txt" = Ok out ->
  can_write out = true ->
  ((extract_license file_format input_path fs).1 = Ok PyNone ->
     citation input_path output_dir (Some license_uri) file_format fs
     = (Ok tt, <[out := Text license_uri]> fs))
  /\ ((forall s, file_format = Some s -> citation_extract !! s = None) ->
     citation input_path output_dir (Some license_uri) file_format fs
     = (Ok tt, <[out := Text license_uri]> fs))
  /\ (forall uri, uri <> "" ->
     (extract_license file_format input_path fs).1 = Ok (PyStr uri) ->
     citation input_path output_dir (Some license_uri) file_format fs
     = (Ok tt, <[out := Text uri]> fs)).
Proof.
  intros Hj Hw.
  assert (Hnone : (extract_license file_format input_path fs).1 = Ok PyNone ->
            citation input_path output_dir (Some license_uri) file_format fs
            = (Ok tt, <[out := Text license_uri]> fs)).
  { intros Hx.
    rewrite (citation_after_extraction _ _ _ _ _ _ _ Hx Hj Hw).
    simpl. apply write_fresh. }
  split; [exact Hnone|]. split.
  - intros Hkey. apply Hnone.
    unfold extract_license, dict_get.
    destruct file_format as [s|]; [|reflexivity].
    now rewrite (Hkey s eq_refl).
  - intros uri Hne Hx.
    rewrite (citation_after_extraction _ _ _ _ _ _ _ Hx Hj Hw).
    simpl. destruct (String.eqb_spec uri "") as [->|_]; [congruence|].
    simpl. apply write_fresh.
Qed.

(** C9. When the extractor for the format runs and returns a falsy value
    (such as the empty string), the [license_uri] argument is written to
    [license.txt]: the fallback depends on the truth value of the
    extraction result, not on whether an extractor exists. *)
Theorem citation_falsy_extraction_falls_back
    input_path output_dir (license_uri : string) fs data metadata extracted out :
  fs !! input_path = Some data ->
  Cmeta_new data = Ok metadata ->
  get_license metadata = Ok extracted ->
  truthy extracted = false ->
  join output_dir "license.txt" = Ok out ->
  can_write out = true ->
  is_Some (citation_extract !! "cellml")
  /\ citation (Some input_path) output_dir (Some license_uri) (Some "cellml") fs
     = (Ok tt, <[out := Text license_uri]> fs).
Proof.
  intros Hin Hmd Hlic Hfalsy Hj Hw. split.
  { rewrite citation_extract_lookup. simpl. eauto. }
  assert (Hx : (extract_license (Some "cellml") (Some input_path) fs).1 = Ok extracted).
  { unfold extract_license, dict_get. rewrite citation_extract_lookup. simpl.
    unfold citation_cellml.
    rewrite (bind_ok _ _ _ _ _ (open_r_ok _ _ _ Hin)).
    rewrite (bind_ok _ _ _ _ _ (read_ok _ _ _ Hin)).
    unfold bind, lift. rewrite Hmd, Hlic. reflexivity. }
  rewrite (citation_after_extraction _ _ _ _ _ _ _ Hx Hj Hw).
  rewrite Hfalsy. simpl. apply write_fresh.
Qed.

(** *** cmeta *)

Ltac in_keys :=
  unfold citation_keys;
  repeat first [apply list_elem_of_here | apply list_elem_of_further].

Ltac in_list :=
  unfold cmd_fns;
  repeat first [apply list_elem_of_here | apply list_elem_of_further].

Ltac not_in_keys :=
  let H := fresh "Hin" in
  intros H; unfold citation_keys in H;
  repeat (apply elem_of_cons in H as [H|H]; [discriminate|]);
  now apply elem_of_nil in H.

Lemma cmeta_record_steps metadata r0 kw titles vcards :
  generate_citation metadata ∅ = Ok r0 ->
  get_keywords metadata = Ok kw ->
  get_dc_title metadata = Ok titles ->
  get_dc_vcard_info metadata = Ok vcards ->
  cmeta_record metadata = Ok (after_citation r0 kw titles vcards).
Proof.
  intros H0 Hk Ht Hv. unfold cmeta_record. rewrite H0. simpl.
  unfold generate_keywords. rewrite Hk. simpl.
  unfold generate_model_title. rewrite Ht. simpl.
  unfold generate_model_authorship, after_citation.
  destruct titles; simpl; rewrite Hv; destruct vcards; reflexivity.
Qed.

(** The later steps leave the citation keys alone. *)
Lemma after_citation_other r0 kw titles vcards k :
  k ∈ citation_keys ->
  after_citation r0 kw titles vcards !! k = r0 !! k.
Proof.
  intros Hk. unfold after_citation.
  assert (Hne : k <> "keywords" /\ k <> "model_title"
                /\ k <> "model_author" /\ k <> "model_author_org").
  { unfold citation_keys in Hk.
    repeat (apply elem_of_cons in Hk as [->|Hk]; [repeat split; discriminate|]).
    now apply elem_of_nil in Hk. }
  destruct Hne as (H1 & H2 & H3 & H4).
  destruct titles, vcards;
    repeat (rewrite lookup_insert_ne by congruence); reflexivity.
Qed.

Lemma after_citation_keywords r0 kw titles vcards :
  after_citation r0 kw titles vcards !! "keywords" = Some kw.
Proof.
  unfold after_citation.
  destruct titles, vcards;
    repeat (rewrite lookup_insert_ne by discriminate); apply lookup_insert_eq.
Qed.

Lemma after_citation_model_title r0 kw titles vcards :
  r0 !! "model_title" = None ->
  after_citation r0 kw titles vcards !! "model_title" = head titles.
Proof.
  intros H0. unfold after_citation.
  destruct titles, vcards; simpl;
    repeat (rewrite lookup_insert_ne by discriminate);
    try apply lookup_insert_eq; exact H0.
Qed.

Lemma after_citation_model_author r0 kw titles vcards :
  r0 !! "model_author" = None ->
  r0 !! "model_author_org" = None ->
  after_citation r0 kw titles vcards !! "model_author"
    = (fun info => PyStr (vc_given info +:+ " " +:+ vc_family info)) <$> head vcards
  /\ after_citation r0 kw titles vcards !! "model_author_org"
    = (fun info => PyStr (vc_orgunit info +:+ ", " +:+ vc_orgname info)) <$> head vcards.
Proof.
  intros H1 H2. unfold after_citation.
  destruct titles, vcards; simpl; split;
    repeat (rewrite lookup_insert_ne by discriminate);
    try apply lookup_insert_eq; assumption.
Qed.

(** [generate_citation] adds citation keys only, and none when there is
    no cmeta id or no citation. *)
Lemma generate_citation_spec metadata ids cits :
  get_cmetaid metadata = Ok ids ->
  (forall id0, head ids = Some id0 -> get_citation metadata id0 = Ok cits) ->
  exists r0,
    generate_citation metadata ∅ = Ok r0
    /\ (forall k, k ∉ citation_keys -> r0 !! k = None)
    /\ (ids = [] \/ cits = [] -> r0 = ∅)
    /\ (forall c0, ids <> [] -> head cits = Some c0 ->
          r0 !! "citation_id" = Some (citation_id c0)
          /\ r0 !! "citation_bibliographicCitation" = Some (journal c0)
          /\ r0 !! "citation_title" = Some (title c0)
          /\ is_Some (r0 !! "citation_issued")
          /\ (creator c0 = [] -> r0 !! "citation_authors" = None)
          /\ (creator c0 <> [] -> is_Some (r0 !! "citation_authors"))).
Proof.
  intros Hids Hcit. unfold generate_citation. rewrite Hids. simpl.
  destruct ids as [|id0 ids'].
  { exists ∅. split; [reflexivity|]. split; [intros; apply lookup_empty|].
    split; [reflexivity|]. intros c0 Hne. congruence. }
  rewrite (Hcit id0 eq_refl). simpl.
  destruct cits as [|c0 cits'].
  { exists ∅. split; [reflexivity|]. split; [intros; apply lookup_empty|].
    split; [reflexivity|]. intros c0 _ Hh. discriminate. }
  destruct (creator c0) as [|cr crs] eqn:Ecr;
    destruct (issued c0) as [|s0| |];
    try destruct (is_Some_dec (re_date_search s0));
    (eexists; split; [reflexivity|]; split; [|split];
     [ intros k Hk; repeat (rewrite lookup_insert_ne by (intros <-; apply Hk; in_keys));
       apply lookup_empty
     | intros [H|H]; discriminate
     | intros c0' _ Hh; injection Hh as <-;
       repeat split; try (intros; congruence); try intros _;
       repeat (rewrite lookup_insert_ne by discriminate);
       try (rewrite lookup_insert_eq; eauto);
       try apply lookup_empty ]).
Qed.

(** [cmeta] writes the record the four steps build. *)
Lemma cmeta_writes_record input_path output_dir fs data metadata rec out :
  fs !! input_path = Some data ->
  Cmeta_new data = Ok metadata ->
  cmeta_record metadata = Ok rec ->
  join output_dir "cmeta.json" = Ok out ->
  can_write out = true ->
  (json_rejects (JsonRecord rec) = None ->
   cmeta (Some input_path) output_dir fs = (Ok tt, <[out := JsonRecord rec]> fs))
  /\ (forall e, json_rejects (JsonRecord rec) = Some e ->
      cmeta (Some input_path) output_dir fs
      = (Raise e, <[out := JsonCut (JsonRecord rec)]> fs)).
Proof.
  intros Hin Hmd Hrec Hj Hw.
  assert (Hrun : cmeta (Some input_path) output_dir fs
                 = match json_rejects (JsonRecord rec) with
                   | None => (Ok tt, <[out := JsonRecord rec]> fs)
                   | Some e => (Raise e, <[out := JsonCut (JsonRecord rec)]> fs)
                   end); [|rewrite Hrun; split; [now intros ->|now intros e ->]].
  unfold cmeta.
  rewrite (bind_ok _ _ _ _ _ (open_r_ok _ _ _ Hin)).
  rewrite (bind_ok _ _ _ _ _ (read_ok _ _ _ Hin)).
  unfold bind at 1, lift at 1. rewrite Hmd.
  unfold bind at 1, lift at 1. rewrite Hrec.
  unfold bind at 1, lift at 1. rewrite Hj.
  rewrite (bind_ok _ _ _ _ _ (open_w_ok _ _ Hw)).
  apply json_dump_fresh.
Qed.

(** C6. When the metadata yields no cmeta id, the record [cmeta] writes
    to [cmeta.json] has none of the citation keys.  The record is the one
    the four steps build; with the output file opened, it is written in
    full when the encoder accepts it, and left unfinished in the file, as
    [json.dump] raises, when the encoder does not. *)
Theorem cmeta_no_cmetaid_no_citation_keys
    input_path output_dir fs data metadata kw titles vcards out :
  fs !! input_path = Some data ->
  Cmeta_new data = Ok metadata ->
  get_cmetaid metadata = Ok [] ->
  get_keywords metadata = Ok kw ->
  get_dc_title metadata = Ok titles ->
  get_dc_vcard_info metadata = Ok vcards ->
  join output_dir "cmeta.json" = Ok out ->
  can_write out = true ->
  exists rec,
    cmeta_record metadata = Ok rec
    /\ (json_rejects (JsonRecord rec) = None ->
        cmeta (Some input_path) output_dir fs = (Ok tt, <[out := JsonRecord rec]> fs))
    /\ (forall e, json_rejects (JsonRecord rec) = Some e ->
        cmeta (Some input_path) output_dir fs
        = (Raise e, <[out := JsonCut (JsonRecord rec)]> fs))
    /\ forall k, k ∈ citation_keys -> rec !! k = None.
Proof.
  intros Hin Hmd Hids Hk Ht Hv Hj Hw.
  destruct (generate_citation_spec metadata [] [] Hids) as (r0 & H0 & _ & He & _).
  { intros id0 Hh. discriminate. }
  rewrite (He (or_introl eq_refl)) in H0.
  pose proof (cmeta_record_steps metadata ∅ kw titles vcards H0 Hk Ht Hv) as Hrec.
  destruct (cmeta_writes_record _ output_dir _ data metadata _ out Hin Hmd Hrec Hj Hw)
    as [Hok Hcut].
  exists (after_citation ∅ kw titles vcards).
  split; [exact Hrec|]. split; [exact Hok|]. split; [exact Hcut|].
  intros k Hkey. rewrite after_citation_other by exact Hkey. apply lookup_empty.
Qed.

(** C10. When the metadata yields a cmeta id and a citation whose creator
    list is empty, the record [cmeta] writes has the keys [citation_id],
    [citation_bibliographicCitation], [citation_title] and
    [citation_issued], and does not have [citation_authors].  The record
    is the one the four steps build; with the output file opened, it is
    written in full when the encoder accepts it, and left unfinished in
    the file, as [json.dump] raises, when the encoder does not. *)
Theorem cmeta_citation_without_creators
    input_path output_dir fs data metadata id0 ids c0 cits kw titles vcards out :
  fs !! input_path = Some data ->
  Cmeta_new data = Ok metadata ->
  get_cmetaid metadata = Ok (id0 :: ids) ->
  get_citation metadata id0 = Ok (c0 :: cits) ->
  creator c0 = [] ->
  get_keywords metadata = Ok kw ->
  get_dc_title metadata = Ok titles ->
  get_dc_vcard_info metadata = Ok vcards ->
  join output_dir "cmeta.json" = Ok out ->
  can_write out = true ->
  exists rec,
    cmeta_record metadata = Ok rec
    /\ (json_rejects (JsonRecord rec) = None ->
        cmeta (Some input_path) output_dir fs = (Ok tt, <[out := JsonRecord rec]> fs))
    /\ (forall e, json_rejects (JsonRecord rec) = Some e ->
        cmeta (Some input_path) output_dir fs
        = (Raise e, <[out := JsonCut (JsonRecord rec)]> fs))
    /\ rec !! "citation_id" = Some (citation_id c0)
    /\ rec !! "citation_bibliographicCitation" = Some (journal c0)
    /\ rec !! "citation_title" = Some (title c0)
    /\ is_Some (rec !! "citation_issued")
    /\ rec !! "citation_authors" = None.
Proof.
  intros Hin Hmd Hids Hcit Hcr Hk Ht Hv Hj Hw.
  destruct (generate_citation_spec metadata (id0 :: ids) (c0 :: cits) Hids)
    as (r0 & H0 & _ & _ & Hc).
  { intros i Hh. injection Hh as <-. exact Hcit. }
  destruct (Hc c0 ltac:(discriminate) eq_refl) as (K1 & K2 & K3 & K4 & K5 & _).
  pose proof (cmeta_record_steps metadata r0 kw titles vcards H0 Hk Ht Hv) as Hrec.
  destruct (cmeta_writes_record _ output_dir _ data metadata _ out Hin Hmd Hrec Hj Hw)
    as [Hok Hcut].
  exists (after_citation r0 kw titles vcards).
  split; [exact Hrec|]. split; [exact Hok|]. split; [exact Hcut|].
  rewrite !after_citation_other by in_keys.
  specialize (K5 Hcr). repeat split; assumption.
Qed.

(** C2, as the code has it.  When the metadata queries return and the
    output file can be opened, [cmeta] writes one record to [cmeta.json]:
    in full when the encoder accepts it; when the encoder does not,
    [json.dump] raises and the file is left unfinished.  The citation,
    the model title and the model authorship are each optional on their
    own: when the sub-extraction yields nothing, its keys are absent,
    without an error.  The [keywords] entry is always present and holds
    whatever the keyword extraction returned. *)
Theorem cmeta_record_contents
    input_path output_dir fs data metadata ids cits kw titles vcards out :
  fs !! input_path = Some data ->
  Cmeta_new data = Ok metadata ->
  get_cmetaid metadata = Ok ids ->
  (forall id0, head ids = Some id0 -> get_citation metadata id0 = Ok cits) ->
  get_keywords metadata = Ok kw ->
  get_dc_title metadata = Ok titles ->
  get_dc_vcard_info metadata = Ok vcards ->
  join output_dir "cmeta.json" = Ok out ->
  can_write out = true ->
  exists rec,
    cmeta_record metadata = Ok rec
    /\ (json_rejects (JsonRecord rec) = None ->
        cmeta (Some input_path) output_dir fs = (Ok tt, <[out := JsonRecord rec]> fs))
    /\ (forall e, json_rejects (JsonRecord rec) = Some e ->
        cmeta (Some input_path) output_dir fs
        = (Raise e, <[out := JsonCut (JsonRecord rec)]> fs))
    /\ (ids = [] \/ cits = [] -> forall k, k ∈ citation_keys -> rec !! k = None)
    /\ (ids <> [] -> cits <> [] -> is_Some (rec !! "citation_id"))
    /\ rec !! "model_title" = head titles
    /\ rec !! "model_author"
       = (fun info => PyStr (vc_given info +:+ " " +:+ vc_family info)) <$> head vcards
    /\ rec !! "model_author_org"
       = (fun info => PyStr (vc_orgunit info +:+ ", " +:+ vc_orgname info)) <$> head vcards
    /\ rec !! "keywords" = Some kw.
Proof.
  intros Hin Hmd Hids Hcit Hk Ht Hv Hj Hw.
  destruct (generate_citation_spec metadata ids cits Hids Hcit)
    as (r0 & H0 & Hother & He & Hc).
  assert (Hno : forall k, k ∉ citation_keys -> r0 !! k = None) by exact Hother.
  pose proof (cmeta_record_steps metadata r0 kw titles vcards H0 Hk Ht Hv) as Hrec.
  destruct (cmeta_writes_record _ output_dir _ data metadata _ out Hin Hmd Hrec Hj Hw)
    as [Hok Hcut].
  exists (after_citation r0 kw titles vcards).
  split; [exact Hrec|]. split; [exact Hok|]. split; [exact Hcut|].
  split; [|split; [|split; [|split; [|split]]]].
  - intros Hnone k Hkey. rewrite after_citation_other by exact Hkey.
    rewrite (He Hnone). apply lookup_empty.
  - intros Hi Hc0. destruct cits as [|c0 cits']; [congruence|].
    rewrite after_citation_other by in_keys.
    destruct (Hc c0 Hi eq_refl) as (K1 & _). rewrite K1. eauto.
  - apply after_citation_model_title, Hno. not_in_keys.
  - apply after_citation_model_author; apply Hno; not_in_keys.
  - apply after_citation_model_author; apply Hno; not_in_keys.
  - apply after_citation_keywords.
Qed.

(** *** docgen *)

Lemma docs_lookup_spec s :
  docs_lookup !! s =
    if String.eqb s "tmpdoc" then Some tmpdoc_fn
    else if String.eqb s "htmldoc" then Some htmldoc_fn
    else None.
Proof.
  unfold docs_lookup, dict_of_items. simpl.
  destruct (String.eqb_spec s "tmpdoc") as [->|H1].
  - apply lookup_insert_eq.
  - rewrite lookup_insert_ne by congruence.
    destruct (String.eqb_spec s "htmldoc") as [->|H2].
    + apply lookup_insert_eq.
    + rewrite lookup_insert_ne by congruence. apply lookup_empty.
Qed.

(** [docgen] with doctype ['htmldoc'] is a call of [htmldoc]. *)
Lemma docgen_htmldoc input_path output_dir fs :
  docgen (Some "htmldoc") input_path output_dir fs = htmldoc input_path output_dir fs.
Proof.
  unfold docgen, bind at 1, lift at 1, dict_getitem.
  rewrite docs_lookup_spec. reflexivity.
Qed.

(** C4. For every doctype that is not a key of [docs_lookup], [docgen]
    fails with a [KeyError], and the file system is as it was: the
    failure comes before any file is opened. *)
Theorem docgen_unknown_doctype doctype input_path output_dir fs :
  (forall s, doctype = Some s -> docs_lookup !! s = None) ->
  docgen doctype input_path output_dir fs = (Raise KeyError, fs).
Proof.
  intros Hkey. unfold docgen, bind, lift, dict_getitem.
  destruct doctype as [s|]; [|reflexivity].
  now rewrite (Hkey s eq_refl).
Qed.

(** C5. For every input file, [docgen] with doctype ['htmldoc'] succeeds
    (given that the output file can be opened) and leaves an [index.html]
    in the output directory whose contents are those of the input file;
    when the input is another file than that [index.html], they are the
    contents the input had before the call, and nothing else changes. *)
Theorem docgen_htmldoc_copies input_path output_dir fs data out :
  fs !! input_path = Some data ->
  join output_dir "index.html" = Ok out ->
  can_write out = true ->
  exists fs',
    docgen (Some "htmldoc") (Some input_path) output_dir fs = (Ok tt, fs')
    /\ fs' !! out = fs' !! input_path
    /\ (input_path <> out -> fs' = <[out := data]> fs).
Proof.
  intros Hin Hj Hw. rewrite docgen_htmldoc. unfold htmldoc.
  rewrite (bind_ok _ _ _ _ _ (open_r_ok _ _ _ Hin)).
  unfold bind at 1, lift at 1. rewrite Hj.
  rewrite (bind_ok _ _ _ _ _ (open_w_ok _ _ Hw)).
  destruct (decide (input_path = out)) as [->|Hne].
  - exists (<[out := Text ""]> fs).
    rewrite (bind_ok _ _ _ _ _ (read_ok _ _ _ (lookup_insert_eq _ _ _))).
    unfold write_data. rewrite write_fresh. split; [reflexivity|].
    split; [reflexivity|congruence].
  - exists (<[out := data]> fs).
    assert (Hin' : <[out := Text ""]> fs !! input_path = Some data).
    { rewrite lookup_insert_ne by congruence. exact Hin. }
    rewrite (bind_ok _ _ _ _ _ (read_ok _ _ _ Hin')).
    split; [|split; [|reflexivity]].
    + unfold write_data. destruct data; [apply write_fresh|..];
        now rewrite insert_insert_eq.
    + rewrite lookup_insert_eq, lookup_insert_ne by congruence. now rewrite Hin.
Qed.

(** *** The parser of the registry *)

Lemma command_parser_citation : command_parser citation_fn = Ok citation_parser.
Proof. vm_compute. reflexivity. Qed.

Lemma command_parser_cmeta : command_parser cmeta_fn = Ok in_out_parser.
Proof. vm_compute. reflexivity. Qed.

Lemma command_parser_codegen : command_parser codegen_fn = Ok in_out_parser.
Proof. vm_compute. reflexivity. Qed.

Lemma command_parser_docgen : command_parser docgen_fn = Ok docgen_parser.
Proof. vm_compute. reflexivity. Qed.

Lemma command_parser_maths : command_parser maths_fn = Ok in_out_parser.
Proof. vm_compute. reflexivity. Qed.

(** What [generate_cmd_parser] builds from the registry. *)
Lemma generate_cmd_parser_registry :
  generate_cmd_parser cmd_fns = Ok (registry_commands, registry_parser).
Proof.
  unfold generate_cmd_parser, cmd_fns. cbn [add_commands].
  fold (command_parser citation_fn). rewrite command_parser_citation. cbn [obind].
  fold (command_parser cmeta_fn). rewrite command_parser_cmeta. cbn [obind].
  fold (command_parser codegen_fn). rewrite command_parser_codegen. cbn [obind].
  fold (command_parser docgen_fn). rewrite command_parser_docgen. cbn [obind].
  fold (command_parser maths_fn). rewrite command_parser_maths. cbn [obind].
  reflexivity.
Qed.

(** *** Which flags a command line gives *)

Lemma parse_optional_raise p s e :
  parse_optional p s = Raise e -> e = SystemExit 2.
Proof.
  unfold parse_optional, usage_error. intros H.
  repeat (case_match; try discriminate); congruence.
Qed.

Lemma classify_raise p args e :
  classify p args = Raise e -> e = SystemExit 2.
Proof.
  induction args as [|s rest IH]; simpl; [discriminate|].
  destruct (String.eqb s "--"); [discriminate|].
  destruct (parse_optional p s) as [t|e'] eqn:Ep; simpl.
  - destruct (classify p rest); simpl; [discriminate|].
    intros [= <-]. now apply IH.
  - intros [= <-]. now apply (parse_optional_raise p s).
Qed.

Lemma classify_strings p args cl :
  classify p args = Ok cl -> map fst cl = args.
Proof.
  revert cl. induction args as [|s rest IH]; simpl; intros cl H.
  - now injection H as <-.
  - destruct (String.eqb s "--").
    + injection H as <-. simpl. f_equal.
      rewrite map_map. simpl. apply map_id.
    + destruct (parse_optional p s); [|discriminate]. simpl in H.
      destruct (classify p rest) as [r|]; [|discriminate]. simpl in H.
      injection H as <-. simpl. f_equal. now apply IH.
Qed.

(** A string classified as an option was recognised by [parse_optional]. *)
Lemma classify_option p args cl s t :
  classify p args = Ok cl -> (s, ClsO t) ∈ cl ->
  s ∈ args /\ parse_optional p s = Ok (Some t).
Proof.
  revert cl. induction args as [|s0 rest IH]; simpl; intros cl H Hin.
  - injection H as <-. now apply elem_of_nil in Hin.
  - destruct (String.eqb s0 "--").
    + injection H as <-. apply elem_of_cons in Hin as [Hin|Hin]; [discriminate|].
      apply list_elem_of_fmap in Hin as (x & Hx & _). discriminate.
    + destruct (parse_optional p s0) as [t0|] eqn:Ep; [|discriminate]. simpl in H.
      destruct (classify p rest) as [r|]; [|discriminate]. simpl in H.
      injection H as <-. apply elem_of_cons in Hin as [Hin|Hin].
      * destruct t0 as [t0|]; [|discriminate].
        injection Hin as -> ->. split; [apply list_elem_of_here|exact Ep].
      * destruct (IH r eq_refl Hin) as [H1 H2].
        split; [now apply list_elem_of_further|exact H2].
Qed.

(** The actions a scan of a parser without positionals marks as seen
    were there before, or are the pending one, or come from a string
    classified as their option. *)
Lemma scan_seen p cl : forall pd st st' a,
  scan p None cl pd st = Ok st' ->
  a ∈ st_seen st' ->
  a ∈ st_seen st \/ pd = Want (Some a)
  \/ exists s ostr ex, (s, ClsO (Some a, ostr, ex)) ∈ cl.
Proof.
  induction cl as [|[s c] rest IH]; intros pd st st' a H Ha.
  - simpl in H. destruct pd; try discriminate; injection H as <-; now left.
  - assert (Hnext : forall pd1 st1,
              scan p None rest pd1 st1 = Ok st' ->
              (a ∈ st_seen st1 -> a ∈ st_seen st \/ pd = Want (Some a)
                 \/ exists s' ostr ex, (s', ClsO (Some a, ostr, ex)) ∈ (s, c) :: rest) ->
              (pd1 = Want (Some a) -> a ∈ st_seen st \/ pd = Want (Some a)
                 \/ exists s' ostr ex, (s', ClsO (Some a, ostr, ex)) ∈ (s, c) :: rest) ->
              a ∈ st_seen st \/ pd = Want (Some a)
              \/ exists s' ostr ex, (s', ClsO (Some a, ostr, ex)) ∈ (s, c) :: rest).
    { intros pd1 st1 H1 Hs Hp.
      destruct (IH pd1 st1 st' a H1 Ha) as [K|[K|(s' & ostr & ex & K)]]; auto.
      right; right. exists s', ostr, ex. now apply list_elem_of_further. }
    unfold usage_error, help_exit in *.
    destruct pd as [|[a0|]], c as [| |[[[a1|] ostr] ex]];
      cbn [scan] in H; unfold usage_error, help_exit in H; try discriminate;
      try (destruct (kind a1) eqn:Ek, ex as [e|];
           unfold usage_error, help_exit in H; try discriminate;
           try (destruct (startswith "--" ostr); try discriminate;
                destruct (help_cluster p e); try discriminate));
      try (eapply Hnext; [exact H| |]; cbn [st_seen add_extra take_store];
           [ try (intros [->|K]%elem_of_cons); auto;
             try (right; right; do 3 eexists; apply list_elem_of_here)
           | try discriminate; try (intros [= ->]); auto;
             try (right; right; do 3 eexists; apply list_elem_of_here) ]).
Qed.

(** [explicit_arg[0]] fails only for an empty explicit argument. *)
Lemma help_cluster_crash p e : help_cluster p e = ClusterCrash -> e = "".
Proof.
  induction e as [|c e IH]; [reflexivity|]. cbn [help_cluster].
  destruct (lookup_option p (String "-" (String c ""))) as [a|]; [|discriminate].
  destruct (kind a), e as [|c' e']; try discriminate.
  destruct (Ascii.eqb c "-"); [discriminate|].
  intros H. apply IH in H. discriminate.
Qed.

(** How a scan of a parser without positionals can fail: with a usage
    error; with the help exit, after a help flag; or with an [IndexError],
    at a single-dash help flag with an empty explicit argument. *)
Lemma scan_raise p cl : forall pd st e,
  scan p None cl pd st = Raise e ->
  e = SystemExit 2
  \/ (e = SystemExit 0
      /\ (pd = Want None
          \/ exists s a ostr ex, (s, ClsO (Some a, ostr, ex)) ∈ cl /\ kind a = HelpAction))
  \/ (e = IndexError
      /\ exists s a ostr, (s, ClsO (Some a, ostr, Some "")) ∈ cl
                          /\ kind a = HelpAction /\ startswith "--" ostr = false).
Proof.
  induction cl as [|[s c] rest IH]; intros pd st e H.
  - simpl in H. unfold usage_error in H.
    destruct pd; try discriminate; injection H as <-; now left.
  - assert (Hnext : forall pd1 st1,
              scan p None rest pd1 st1 = Raise e ->
              (pd1 = Want None ->
                 exists s' a ostr ex,
                   (s', ClsO (Some a, ostr, ex)) ∈ (s, c) :: rest /\ kind a = HelpAction) ->
              e = SystemExit 2
              \/ (e = SystemExit 0
                  /\ (pd = Want None
                      \/ exists s' a ostr ex,
                           (s', ClsO (Some a, ostr, ex)) ∈ (s, c) :: rest
                           /\ kind a = HelpAction))
              \/ (e = IndexError
                  /\ exists s' a ostr, (s', ClsO (Some a, ostr, Some "")) ∈ (s, c) :: rest
                                       /\ kind a = HelpAction
                                       /\ startswith "--" ostr = false)).
    { intros pd1 st1 H1 Hp.
      destruct (IH pd1 st1 e H1)
        as [K|[[K [Kp|(s' & a & ostr & ex & Kin & Kh)]]|[K (s' & a & ostr & Kin & Kh)]]].
      - now left.
      - right; left. split; [exact K|]. right. now apply Hp.
      - right; left. split; [exact K|]. right. exists s', a, ostr, ex.
        split; [now apply list_elem_of_further|exact Kh].
      - right; right. split; [exact K|]. exists s', a, ostr.
        split; [now apply list_elem_of_further|exact Kh]. }
    destruct pd as [|[a0|]], c as [| |[[[a1|] ostr] ex]];
      cbn [scan] in H; unfold usage_error, help_exit in H;
      try (injection H as <-; auto; fail);
      try (eapply Hnext; [exact H|]; discriminate).
    destruct (kind a1) eqn:Ek.
    + assert (Hhere : exists s' a ostr' ex',
                (s', ClsO (Some a, ostr', ex')) ∈ (s, ClsO (Some a1, ostr, ex)) :: rest
                /\ kind a = HelpAction).
      { exists s, a1, ostr, ex. split; [apply list_elem_of_here|exact Ek]. }
      destruct ex as [x|]; [|injection H as <-; auto].
      destruct (startswith "--" ostr) eqn:Eo; [injection H as <-; auto|].
      destruct (help_cluster p x) eqn:Ec.
      * injection H as <-. auto.
      * eapply Hnext; [exact H|]. intros _. exact Hhere.
      * injection H as <-. auto.
      * injection H as <-. right; right. split; [reflexivity|].
        apply help_cluster_crash in Ec. subst x.
        exists s, a1, ostr. split; [apply list_elem_of_here|]. now split.
    + destruct ex; (eapply Hnext; [exact H|discriminate]).
Qed.

Lemma check_required_seen acts seen a :
  check_required acts seen = true -> a ∈ acts -> required a = true -> a ∈ seen.
Proof.
  unfold check_required. rewrite forallb_forall. intros H Ha Hr.
  specialize (H a (proj1 (list_elem_of_In _ _) Ha)).
  rewrite Hr in H. simpl in H. now apply bool_decide_eq_true in H.
Qed.

Lemma flag_omitted_spec p a args s :
  flag_omitted p a args = true -> s ∈ args -> resolves p s <> Some a.
Proof.
  unfold flag_omitted. rewrite forallb_forall. intros H Hs.
  specialize (H s (proj1 (list_elem_of_In _ _) Hs)).
  apply negb_true_iff, bool_decide_eq_false in H. exact H.
Qed.

Lemma help_requested_spec p args s a :
  help_requested p args = false -> s ∈ args -> resolves p s = Some a ->
  kind a <> HelpAction.
Proof.
  unfold help_requested. intros H Hs Hr Hk.
  assert (Ht : existsb (fun s => match resolves p s with
                                 | Some a => bool_decide (kind a = HelpAction)
                                 | None => false
                                 end) args = true); [|congruence].
  apply existsb_exists. exists s. split; [now apply list_elem_of_In|].
  rewrite Hr. now apply bool_decide_eq_true.
Qed.

(** *** Help flags with an empty explicit argument *)

Lemma lookup_option_Some p o a :
  lookup_option p o = Some a -> (o, a) ∈ option_string_actions p.
Proof.
  unfold lookup_option.
  destruct (find _ (option_string_actions p)) as [[o' a']|] eqn:E; [|discriminate].
  cbn. intros [= <-]. apply find_some in E as [Hin Heq]. cbn in Heq.
  apply String.eqb_eq in Heq. subst o'. now apply list_elem_of_In.
Qed.

Lemma option_string_actions_elem p o a :
  (o, a) ∈ option_string_actions p -> a ∈ actions p /\ o ∈ option_strings a.
Proof.
  unfold option_string_actions. intros Hin.
  apply list_elem_of_In, in_flat_map in Hin as (a' & Ha & Hin).
  apply in_map_iff in Hin as (o' & [= <- <-] & Ho).
  split; now apply list_elem_of_In.
Qed.

Lemma lookup_option_found p o a :
  (o, a) ∈ option_string_actions p -> lookup_option p o <> None.
Proof.
  unfold lookup_option. intros Hin.
  destruct (find _ (option_string_actions p)) as [x|] eqn:E; [discriminate|].
  apply list_elem_of_In in Hin. pose proof (find_none _ _ E _ Hin) as Hn.
  cbn in Hn. now rewrite String.eqb_refl in Hn.
Qed.

Lemma split_eq_spec s l r : split_eq s = Some (l, r) -> s = l +:+ "=" +:+ r.
Proof.
  revert l r. induction s as [|c s IH]; intros l r H; [discriminate|].
  cbn [split_eq] in H. destruct (Ascii.eqb_spec c "=") as [->|Hc].
  - now injection H as <- <-.
  - destruct (split_eq s) as [[l' r']|]; [|discriminate].
    injection H as <- <-.
    change (String c s = String c (l' +:+ "=" +:+ r')). f_equal. now apply IH.
Qed.

(** [get_option_tuples] with its two cases told apart by a test. *)
Lemma get_option_tuples_cases p c rest :
  get_option_tuples p (String "-" (String c rest)) =
  if Ascii.eqb c "-"
  then let (option_prefix, explicit_arg) :=
         match split_eq (String "-" (String c rest)) with
         | Some (l, r) => (l, Some r)
         | None => (String "-" (String c rest), None)
         end in
       omap (fun oa : string * action =>
               if startswith option_prefix oa.1
               then Some (Some oa.2, oa.1, explicit_arg) else None)
            (option_string_actions p)
  else omap (fun oa : string * action =>
               if String.eqb oa.1 (String "-" (String c ""))
               then Some (Some oa.2, oa.1, Some rest)
               else if startswith (String "-" (String c rest)) oa.1
                    then Some (Some oa.2, oa.1, None) else None)
            (option_string_actions p).
Proof. destruct c as [[] [] [] [] [] [] [] []]; reflexivity. Qed.

(** In a parser whose help flags are [-h] and [--help], the one argument
    string read as a single-dash help flag with an empty explicit argument
    is [-h=]. *)
Lemma empty_help_argument p s a ostr :
  (forall a', a' ∈ actions p -> kind a' = HelpAction ->
     option_strings a' = ["-h"; "--help"]) ->
  parse_optional p s = Ok (Some (Some a, ostr, Some "")) ->
  kind a = HelpAction ->
  startswith "--" ostr = false ->
  s = "-h=".
Proof.
  intros Hhelp H Hk Ho.
  assert (Hflag : forall o, (o, a) ∈ option_string_actions p ->
            startswith "--" o = false -> o = "-h").
  { intros o Hin Hs. apply option_string_actions_elem in Hin as [Ha Hin].
    rewrite (Hhelp a Ha Hk) in Hin.
    apply elem_of_cons in Hin as [->|Hin]; [reflexivity|].
    apply elem_of_cons in Hin as [->|Hin]; [discriminate|].
    now apply elem_of_nil in Hin. }
  unfold parse_optional in H. destruct s as [|c s']; [discriminate|].
  destruct (Ascii.eqb_spec c "-") as [->|Hc]; [|discriminate]. cbn [negb] in H.
  destruct (lookup_option p (String "-" s')) as [a0|] eqn:El; [discriminate|].
  destruct (String.length (String "-" s') =? 1); [discriminate|].
  assert (Htuples :
    match get_option_tuples p (String "-" s') with
    | _ :: _ :: _ => usage_error
    | [t] => Ok (Some t)
    | [] =>
        if negative_number (String "-" s')
           && negb (has_negative_number_optionals p)
        then Ok None
        else if contains_char " " (String "-" s') then Ok None
             else Ok (Some (None, String "-" s', None))
    end = Ok (Some (Some a, ostr, Some "")) -> String "-" s' = "-h=").
  { clear H. intros H.
    destruct (get_option_tuples p (String "-" s')) as [|t [|t2 l]] eqn:Et.
    - repeat (case_match; try discriminate).
    - injection H as ->.
      assert (Hin : (Some a, ostr, Some "") ∈ get_option_tuples p (String "-" s'))
        by (rewrite Et; apply list_elem_of_here).
      clear Et. destruct s' as [|c2 rest]; [now apply elem_of_nil in Hin|].
      rewrite get_option_tuples_cases in Hin.
      destruct (Ascii.eqb_spec c2 "-") as [->|Hc2].
      + destruct (split_eq (String "-" (String "-" rest))) as [[o e]|] eqn:Es.
        * apply list_elem_of_omap in Hin as ([o' a'] & Hin & Hf). cbn [fst snd] in Hf.
          destruct (startswith o o') eqn:Ep; [|discriminate].
          injection Hf as -> -> ->.
          rewrite (Hflag _ Hin Ho) in Ep.
          apply split_eq_spec in Es. unfold startswith in Ep.
          destruct o as [|o1 [|o2 [|o3 o']]]; cbn in Es; try discriminate.
          -- cbn in Ep.
             destruct (ascii_dec o1 "-"); [|discriminate].
             destruct (ascii_dec o2 "h"); [|discriminate].
             subst. discriminate.
          -- cbn in Ep.
             destruct (ascii_dec o1 "-"); [|discriminate].
             destruct (ascii_dec o2 "h"); discriminate.
        * apply list_elem_of_omap in Hin as ([o' a'] & Hin & Hf). cbn [fst snd] in Hf.
          destruct (startswith _ o'); discriminate.
      + apply list_elem_of_omap in Hin as ([o' a'] & Hin & Hf). cbn [fst snd] in Hf.
        destruct (String.eqb_spec o' (String "-" (String c2 ""))) as [->|Hne].
        * injection Hf as -> _ ->. exfalso.
          now apply (lookup_option_found p _ _ Hin).
        * destruct (startswith _ o'); discriminate.
    - discriminate. }
  destruct (split_eq (String "-" s')) as [[o e]|] eqn:Es; [|now apply Htuples].
  destruct (lookup_option p o) as [a0|] eqn:Elo; [|now apply Htuples].
  injection H as -> -> ->.
  apply lookup_option_Some in Elo. rewrite (Hflag _ Elo Ho) in Es.
  now apply split_eq_spec in Es.
Qed.

(** A sub-command parser given a command line that omits one of its
    required flags does not return.  It ends in a usage error, unless the
    command line has a help flag: then the help exit and, at a single-dash
    help flag with an empty explicit argument, an [IndexError] are
    possible too. *)
Lemma parse_known_args_required_omitted p a args ns :
  a ∈ actions p -> required a = true ->
  flag_omitted p a args = true ->
  exists e, parse_known_args p None args ns = Raise e
            /\ (e = SystemExit 2 \/ e = SystemExit 0 \/ e = IndexError)
            /\ (help_requested p args = false -> e = SystemExit 2)
            /\ (e = IndexError ->
                  exists s a' ostr,
                    s ∈ args
                    /\ parse_optional p s = Ok (Some (Some a', ostr, Some ""))
                    /\ kind a' = HelpAction /\ startswith "--" ostr = false).
Proof.
  intros Ha Hreq Hom. unfold parse_known_args.
  destruct (classify p args) as [cl|e] eqn:Ec; simpl.
  2:{ exists e. rewrite (classify_raise p args e Ec).
      split; [reflexivity|]. split; [now left|]. split; [auto|discriminate]. }
  match goal with |- context [scan p None cl Idle ?st0] => set (st := st0) end.
  destruct (scan p None cl Idle st) as [st'|e] eqn:Es; simpl.
  - destruct (check_required (actions p) (st_seen st')) eqn:Ecr.
    + exfalso.
      pose proof (check_required_seen _ _ _ Ecr Ha Hreq) as Hseen.
      destruct (scan_seen p cl Idle st st' a Es Hseen)
        as [K|[K|(s & ostr & ex & K)]].
      * now apply elem_of_nil in K.
      * discriminate.
      * destruct (classify_option _ _ _ _ _ Ec K) as [Hs Hp].
        apply (flag_omitted_spec p a args s Hom Hs).
        unfold resolves. now rewrite Hp.
    + exists (SystemExit 2). split; [reflexivity|]. split; [now left|].
      split; [auto|discriminate].
  - exists e. split; [reflexivity|].
    destruct (scan_raise p cl Idle st e Es)
      as [K|[[K [Kp|(s & a' & ostr & ex & Kin & Kh)]]|[K (s & a' & ostr & Kin & Kh & Ko)]]].
    + subst e. split; [now left|]. split; [auto|discriminate].
    + discriminate.
    + subst e. split; [right; now left|]. split; [|discriminate].
      intros Hh. exfalso. destruct (classify_option _ _ _ _ _ Ec Kin) as [Hs Hp].
      apply (help_requested_spec p args s a' Hh Hs); [|exact Kh].
      unfold resolves. now rewrite Hp.
    + subst e. split; [right; now right|].
      destruct (classify_option _ _ _ _ _ Ec Kin) as [Hs Hp]. split.
      * intros Hh. exfalso.
        apply (help_requested_spec p args s a' Hh Hs); [|exact Kh].
        unfold resolves. now rewrite Hp.
      * intros _. now exists s, a', ostr.
Qed.

(** The top-level parser hands a command line that starts with a
    command name to the parser of that command; a failure there is the
    failure of [parse_args], unless the top-level parser has already
    rejected an argument string. *)
Lemma parse_args_command ap name sub rest (P : exn -> Prop) :
  name_parser_map (group ap) !! name = Some sub ->
  parse_optional (top ap) name = Ok None ->
  String.eqb name "--" = false ->
  P (SystemExit 2) ->
  (forall ns, exists e, parse_known_args sub None rest ns = Raise e /\ P e) ->
  exists e, parse_args ap (name :: rest) = Raise e /\ P e.
Proof.
  intros Hsub Hname Hdd H2 Hfail.
  unfold parse_args, parse_known_args. cbn [classify]. rewrite Hdd, Hname.
  cbn [obind].
  destruct (classify (top ap) rest) as [r|e0] eqn:Ec; cbn [obind].
  2:{ exists e0. split; [reflexivity|].
      now rewrite (classify_raise _ _ _ Ec). }
  cbn [scan starts_positional map fst].
  rewrite (classify_strings _ _ _ Ec).
  unfold subparsers_call at 1. rewrite Hsub.
  match goal with |- context [parse_known_args sub None rest ?ns] =>
    destruct (Hfail ns) as (e & -> & He) end.
  exists e. split; [reflexivity|exact He].
Qed.

Lemma registry_command f help p :
  (f, help) ∈ cmd_fns -> command_parser f = Ok p ->
  name_parser_map (group registry_parser) !! fn_name f = Some p
  /\ parse_optional (top registry_parser) (fn_name f) = Ok None
  /\ String.eqb (fn_name f) "--" = false.
Proof.
  unfold cmd_fns. intros Hin Hp.
  repeat (apply elem_of_cons in Hin as [Hin|Hin];
          [injection Hin as -> ->|]); [..|now apply elem_of_nil in Hin].
  - rewrite command_parser_citation in Hp. injection Hp as <-.
    repeat split; reflexivity.
  - rewrite command_parser_cmeta in Hp. injection Hp as <-.
    repeat split; reflexivity.
  - rewrite command_parser_codegen in Hp. injection Hp as <-.
    repeat split; reflexivity.
  - rewrite command_parser_docgen in Hp. injection Hp as <-.
    repeat split; reflexivity.
  - rewrite command_parser_maths in Hp. injection Hp as <-.
    repeat split; reflexivity.
Qed.

(** The help flags of the registry's parsers are argparse's own. *)
Lemma registry_help_action f help p :
  (f, help) ∈ cmd_fns -> command_parser f = Ok p ->
  forall a, a ∈ actions p -> kind a = HelpAction ->
  option_strings a = ["-h"; "--help"].
Proof.
  unfold cmd_fns. intros Hin Hp a Ha Hk.
  repeat (apply elem_of_cons in Hin as [Hin|Hin];
          [injection Hin as -> ->|]); [..|now apply elem_of_nil in Hin].
  - rewrite command_parser_citation in Hp. injection Hp as <-.
    cbn [actions citation_parser] in Ha.
    repeat (apply elem_of_cons in Ha as [->|Ha]; [try reflexivity; discriminate|]).
    now apply elem_of_nil in Ha.
  - rewrite command_parser_cmeta in Hp. injection Hp as <-.
    cbn [actions in_out_parser] in Ha.
    repeat (apply elem_of_cons in Ha as [->|Ha]; [try reflexivity; discriminate|]).
    now apply elem_of_nil in Ha.
  - rewrite command_parser_codegen in Hp. injection Hp as <-.
    cbn [actions in_out_parser] in Ha.
    repeat (apply elem_of_cons in Ha as [->|Ha]; [try reflexivity; discriminate|]).
    now apply elem_of_nil in Ha.
  - rewrite command_parser_docgen in Hp. injection Hp as <-.
    cbn [actions docgen_parser] in Ha.
    repeat (apply elem_of_cons in Ha as [->|Ha]; [try reflexivity; discriminate|]).
    now apply elem_of_nil in Ha.
  - rewrite command_parser_maths in Hp. injection Hp as <-.
    cbn [actions in_out_parser] in Ha.
    repeat (apply elem_of_cons in Ha as [->|Ha]; [try reflexivity; discriminate|]).
    now apply elem_of_nil in Ha.
Qed.

(** C7, as the code has it.  For every registered command and every
    required flag of it, a command line for that command that omits the
    flag makes argument parsing end the run: [main] raises what
    [parse_args] raised, the handler is not called and the file system is
    untouched.  The failure is a usage error ([SystemExit(2)]) whenever no
    argument string is read as a help flag.  When one is, the run ends in
    the parser all the same, in one of three ways: a usage error, the help
    exit ([SystemExit(0)]), or an [IndexError] raised inside argparse, and
    this last only when the string [-h=] is on the command line. *)
Theorem required_flag_omitted_stops_in_parser f help p a rest fs :
  (f, help) ∈ cmd_fns ->
  command_parser f = Ok p ->
  a ∈ actions p ->
  required a = true ->
  flag_omitted p a rest = true ->
  exists e,
    parse_args registry_parser (fn_name f :: rest) = Raise e
    /\ main (fn_name f :: rest) fs = (Raise e, fs)
    /\ (e = SystemExit 2 \/ e = SystemExit 0 \/ e = IndexError)
    /\ (help_requested p rest = false -> e = SystemExit 2)
    /\ (e = IndexError -> "-h=" ∈ rest).
Proof.
  intros Hin Hp Ha Hreq Hom.
  destruct (registry_command f help p Hin Hp) as (Hsub & Hname & Hdd).
  destruct (parse_args_command registry_parser (fn_name f) p rest
              (fun e => (e = SystemExit 2 \/ e = SystemExit 0 \/ e = IndexError)
                        /\ (help_requested p rest = false -> e = SystemExit 2)
                        /\ (e = IndexError -> "-h=" ∈ rest))
              Hsub Hname Hdd) as (e & He & Hu).
  { split; [now left|]. split; [auto|discriminate]. }
  { intros ns.
    destruct (parse_known_args_required_omitted p a rest ns Ha Hreq Hom)
      as (e & He & Hkinds & Hno & Hcrash).
    exists e. split; [exact He|]. split; [exact Hkinds|]. split; [exact Hno|].
    intros Hi. destruct (Hcrash Hi) as (s & a' & ostr & Hs & Hpo & Hk & Ho).
    now rewrite <- (empty_help_argument p s a' ostr
                      (registry_help_action f help p Hin Hp) Hpo Hk Ho). }
  exists e. split; [exact He|]. split; [|exact Hu].
  unfold main. unfold bind at 1, lift at 1.
  rewrite generate_cmd_parser_registry.
  unfold bind at 1, lift at 1. now rewrite He.
Qed.

(** *** The parser builder *)

Lemma add_arguments_actions defaults args : forall p p',
  add_arguments p defaults args = Ok p' ->
  actions p' = actions p ++ map (store_action defaults) args.
Proof.
  induction args as [|arg args IH]; intros p p' H; simpl in H.
  - injection H as <-. simpl. now rewrite app_nil_r.
  - unfold add_argument in H. cbv zeta in H.
    destruct (String.eqb (lstrip "-" (flag_of arg)) ""); [discriminate|].
    destruct (lookup_option p (flag_of arg)); [discriminate|].
    cbn [obind] in H. apply IH in H. rewrite H. cbn [actions map].
    now rewrite <- app_assoc.
Qed.

(** Every underscore is replaced: none is left, and the other characters
    stay where they are. *)
Lemma str_replace_get a b s i :
  String.get i (str_replace a b s)
  = (fun c => if Ascii.eqb c a then b else c) <$> String.get i s.
Proof.
  revert i. induction s as [|c s IH]; intros i; simpl; [reflexivity|].
  destruct i; simpl; [reflexivity|apply IH].
Qed.

Lemma str_replace_none_left a b s :
  a <> b -> contains_char a (str_replace a b s) = false.
Proof.
  intros Hab. induction s as [|c s IH]; simpl; [reflexivity|].
  rewrite IH, orb_false_r.
  destruct (Ascii.eqb_spec c a) as [->|Hc].
  - apply Ascii.eqb_neq. congruence.
  - now apply Ascii.eqb_neq.
Qed.

(** The dict built from [zip ks vs] with distinct keys maps the [i]-th key
    to the [i]-th value. *)
Lemma fold_insert_absent {V} (ks : list string) :
  forall (vs : list V) (m : gmap string V) k,
  k ∉ ks ->
  fold_left (fun d kv => <[kv.1 := kv.2]> d) (zip ks vs) m !! k = m !! k.
Proof.
  induction ks as [|k0 ks IH]; intros vs m k Hk; [reflexivity|].
  destruct vs as [|v0 vs]; [reflexivity|]. simpl.
  apply not_elem_of_cons in Hk as [Hne Hk].
  rewrite IH by exact Hk. simpl. now rewrite lookup_insert_ne by congruence.
Qed.

Lemma fold_insert_zip_lookup {V} (ks : list string) :
  forall (vs : list V) (m : gmap string V) i k,
  NoDup ks -> ks !! i = Some k ->
  fold_left (fun d kv => <[kv.1 := kv.2]> d) (zip ks vs) m !! k
  = match vs !! i with Some v => Some v | None => m !! k end.
Proof.
  induction ks as [|k0 ks IH]; intros vs m i k Hnd Hi; [discriminate|].
  apply NoDup_cons in Hnd as [Hk0 Hnd].
  destruct vs as [|v0 vs]; [now destruct i|]. simpl.
  destruct i as [|i]; simpl in Hi |- *.
  - injection Hi as ->. rewrite fold_insert_absent by exact Hk0.
    simpl. apply lookup_insert_eq.
  - rewrite (IH vs _ i k Hnd Hi). destruct (vs !! i); [reflexivity|].
    simpl. apply lookup_insert_ne. intros ->.
    apply Hk0. now apply list_elem_of_lookup_2 with i.
Qed.

(** The builder zips the reversed parameter list with the defaults in
    declaration order: the parameter at index [i] of [n] gets the default
    at index [n - 1 - i]. *)
Lemma defaults_of_lookup f i arg :
  NoDup (fn_args f) -> fn_args f !! i = Some arg ->
  defaults_of f !! arg
  = default [] (fn_defaults f) !! (length (fn_args f) - S i).
Proof.
  intros Hnd Hi. unfold defaults_of, dict_of_items.
  assert (Hlt : i < length (fn_args f)) by now apply lookup_lt_Some with arg.
  rewrite (fold_insert_zip_lookup _ _ _ (length (fn_args f) - S i) arg).
  - rewrite lookup_empty.
    now destruct (default [] (fn_defaults f) !! (length (fn_args f) - S i)).
  - now rewrite reverse_Permutation.
  - rewrite reverse_lookup by lia. rewrite <- Hi. f_equal. lia.
Qed.

(** For every signature with distinct parameter names, the flag of a
    parameter is required iff the parameter is not one of the trailing
    defaulted ones. *)
Lemma store_action_required f i arg :
  NoDup (fn_args f) -> fn_args f !! i = Some arg ->
  required (store_action (defaults_of f) arg)
  = (i <? length (fn_args f) - length (default [] (fn_defaults f))).
Proof.
  intros Hnd Hi. cbn [required store_action].
  rewrite (defaults_of_lookup f i arg Hnd Hi).
  assert (Hlt : i < length (fn_args f)) by now apply lookup_lt_Some with arg.
  destruct (Nat.ltb_spec i (length (fn_args f) - length (default [] (fn_defaults f)))).
  - rewrite bool_decide_eq_false_2; [reflexivity|].
    rewrite lookup_lt_is_Some. lia.
  - rewrite bool_decide_eq_true_2; [reflexivity|].
    rewrite lookup_lt_is_Some. lia.
Qed.

(** The default the flag gets is the declared one when the tuple of
    defaults reads the same in both directions (in particular when there
    is at most one default). *)
Lemma store_action_default f i arg :
  NoDup (fn_args f) -> fn_args f !! i = Some arg ->
  reverse (default [] (fn_defaults f)) = default [] (fn_defaults f) ->
  length (default [] (fn_defaults f)) <= length (fn_args f) ->
  required (store_action (defaults_of f) arg) = false ->
  declared_default f i = Some (action_default (store_action (defaults_of f) arg)).
Proof.
  intros Hnd Hi Hrev Hlen Hreq.
  rewrite (store_action_required f i arg Hnd Hi) in Hreq.
  apply Nat.ltb_ge in Hreq.
  assert (Hlt : i < length (fn_args f)) by now apply lookup_lt_Some with arg.
  unfold declared_default. cbn [action_default store_action].
  rewrite (defaults_of_lookup f i arg Hnd Hi).
  replace (_ <=? i) with true by (symmetry; now apply Nat.leb_le).
  replace (i <? _) with true by (symmetry; now apply Nat.ltb_lt).
  cbn [andb]. set (ds := default [] (fn_defaults f)) in *.
  assert (E : ds !! (i - (length (fn_args f) - length ds))
              = ds !! (length (fn_args f) - S i)).
  { transitivity (reverse ds !! (i - (length (fn_args f) - length ds)));
      [now rewrite Hrev|].
    rewrite reverse_lookup by lia. f_equal. lia. }
  rewrite E.
  destruct (ds !! (length (fn_args f) - S i)) eqn:E'; [reflexivity|].
  apply lookup_ge_None in E'. lia.
Qed.

Lemma lookup_map {A B} (g : A -> B) (l : list A) i :
  map g l !! i = g <$> l !! i.
Proof.
  revert i. induction l as [|x l IH]; intros [|i]; simpl; auto.
Qed.

(** The handlers of the registry have well-formed signatures, and the
    builder finds no conflicting flag among them. *)
Lemma registry_signature f help :
  (f, help) ∈ cmd_fns ->
  NoDup (fn_args f)
  /\ reverse (default [] (fn_defaults f)) = default [] (fn_defaults f)
  /\ length (default [] (fn_defaults f)) <= length (fn_args f)
  /\ (forall arg, arg ∈ fn_args f ->
        str_replace "-" "_" (lstrip "-" (flag_of arg)) = arg)
  /\ exists p, command_parser f = Ok p.
Proof.
  unfold cmd_fns. intros Hin.
  repeat (apply elem_of_cons in Hin as [Hin|Hin];
          [injection Hin as -> ->|]); [..|now apply elem_of_nil in Hin].
  all: split; [apply (bool_decide_unpack _); vm_compute; exact I|].
  all: split; [reflexivity|]. all: split; [simpl; lia|].
  all: split;
    [intros arg Harg; cbn [fn_args citation_fn cmeta_fn codegen_fn docgen_fn maths_fn] in Harg;
     repeat (apply elem_of_cons in Harg as [->|Harg]; [reflexivity|]);
     now apply elem_of_nil in Harg|].
  - exists citation_parser. apply command_parser_citation.
  - exists in_out_parser. apply command_parser_cmeta.
  - exists in_out_parser. apply command_parser_codegen.
  - exists docgen_parser. apply command_parser_docgen.
  - exists in_out_parser. apply command_parser_maths.
Qed.

(** C1. For every handler of the registry, the flag the parser builder
    makes for a parameter is required iff the parameter is not among the
    trailing defaulted parameters of the handler's signature, and the flag
    of a defaulted parameter carries the declared default. *)
Theorem registry_required_iff_no_default f help i arg :
  (f, help) ∈ cmd_fns ->
  fn_args f !! i = Some arg ->
  exists commands ap sub_ap a,
    generate_cmd_parser cmd_fns = Ok (commands, ap)
    /\ name_parser_map (group ap) !! fn_name f = Some sub_ap
    /\ actions sub_ap !! S i = Some a
    /\ option_strings a = [flag_of arg]
    /\ dest a = Some arg
    /\ required a
       = (i <? length (fn_args f) - length (default [] (fn_defaults f)))
    /\ (required a = false -> declared_default f i = Some (action_default a)).
Proof.
  intros Hin Hi.
  destruct (registry_signature f help Hin) as (Hnd & Hrev & Hlen & Hdest & p & Hp).
  destruct (registry_command f help p Hin Hp) as (Hsub & _).
  exists registry_commands, registry_parser, p, (store_action (defaults_of f) arg).
  split; [apply generate_cmd_parser_registry|]. split; [exact Hsub|].
  split; [|split; [reflexivity|split; [|split]]].
  - rewrite (add_arguments_actions _ _ _ _ Hp).
    change (map (store_action (defaults_of f)) (fn_args f) !! i
            = Some (store_action (defaults_of f) arg)).
    now rewrite lookup_map, Hi.
  - cbn [dest store_action]. f_equal. apply Hdest.
    now apply list_elem_of_lookup_2 with i.
  - now apply store_action_required.
  - now apply store_action_default.
Qed.

(** C8. For every handler of the registry, the parser has exactly one
    sub-command with the handler's name; its flags are the built-in help
    flags and one flag per declared parameter, in order, named ["--"]
    followed by the parameter name with every underscore replaced by a
    hyphen.  The sub-commands are those of the handlers and no others. *)
Theorem registry_one_subcommand_per_handler f help :
  (f, help) ∈ cmd_fns ->
  exists commands ap sub_ap,
    generate_cmd_parser cmd_fns = Ok (commands, ap)
    /\ commands !! fn_name f = Some f
    /\ filter (fun c => c.1 = fn_name f) (choices_actions (group ap))
       = [(fn_name f, help)]
    /\ name_parser_map (group ap) !! fn_name f = Some sub_ap
    /\ flat_map option_strings (actions sub_ap)
       = ["-h"; "--help"]
         ++ map (fun arg => "--" +:+ str_replace "_" "-" arg) (fn_args f)
    /\ (forall n, is_Some (name_parser_map (group ap) !! n) ->
          exists f' help', (f', help') ∈ cmd_fns /\ fn_name f' = n).
Proof.
  intros Hin.
  destruct (registry_signature f help Hin) as (_ & _ & _ & _ & p & Hp).
  destruct (registry_command f help p Hin Hp) as (Hsub & _).
  exists registry_commands, registry_parser, p.
  split; [apply generate_cmd_parser_registry|].
  split; [|split; [|split; [exact Hsub|split]]].
  - clear Hp Hsub. unfold cmd_fns in Hin. unfold registry_commands.
    repeat (apply elem_of_cons in Hin as [Hin|Hin];
            [injection Hin as -> ->|]); [..|now apply elem_of_nil in Hin];
      cbn [fn_name citation_fn cmeta_fn codegen_fn docgen_fn maths_fn];
      repeat (rewrite lookup_insert_ne by discriminate);
      apply lookup_insert_eq.
  - clear Hp Hsub. unfold cmd_fns in Hin.
    repeat (apply elem_of_cons in Hin as [Hin|Hin];
            [injection Hin as -> ->|]); [..|now apply elem_of_nil in Hin];
      reflexivity.
  - rewrite (add_arguments_actions _ _ _ _ Hp). cbn [actions new_parser app].
    cbn [flat_map help_action option_strings app]. do 2 f_equal.
    induction (fn_args f) as [|arg args IH]; [reflexivity|].
    cbn [map flat_map store_action option_strings app]. now rewrite IH.
  - intros n Hn. cbn [group registry_parser name_parser_map] in Hn.
    assert (Hmem : forall g h, (g, h) ∈ cmd_fns ->
              exists f' help', (f', help') ∈ cmd_fns /\ fn_name f' = fn_name g)
      by (intros g h Hg; now exists g, h).
    apply lookup_insert_is_Some in Hn as [<-|[_ Hn]];
      [apply (Hmem maths_fn "CellML math"); in_list|].
    apply lookup_insert_is_Some in Hn as [<-|[_ Hn]];
      [apply (Hmem docgen_fn "CellML docgen"); in_list|].
    apply lookup_insert_is_Some in Hn as [<-|[_ Hn]];
      [apply (Hmem codegen_fn "CellML codegen"); in_list|].
    apply lookup_insert_is_Some in Hn as [<-|[_ Hn]];
      [apply (Hmem cmeta_fn "CellML metadata"); in_list|].
    apply lookup_insert_is_Some in Hn as [<-|[_ Hn]];
      [apply (Hmem citation_fn "Citation"); in_list|].
    rewrite lookup_empty in Hn. now destruct Hn.
Qed.

(** ** Further properties of the handlers *)

(** *** What a handler leaves alone *)

Lemma open_w_other p q (fs : filesystem) :
  q <> p -> (open_w p fs).2 !! q = fs !! q.
Proof.
  intros Hq. unfold open_w. destruct (can_write p); [|reflexivity].
  simpl. now rewrite lookup_insert_ne by congruence.
Qed.

Lemma write_other h v q (fs : filesystem) :
  q <> h -> (write h v fs).2 !! q = fs !! q.
Proof.
  intros Hq. unfold write. destruct v; try reflexivity.
  simpl. now rewrite lookup_insert_ne by congruence.
Qed.

Lemma write_data_other h d q (fs : filesystem) :
  q <> h -> (write_data h d fs).2 !! q = fs !! q.
Proof.
  intros Hq. unfold write_data. destruct d; [now apply write_other|..];
    simpl; now rewrite lookup_insert_ne by congruence.
Qed.

(** Opening the output and writing into it changes that file only. *)
Lemma open_then_write_other {A} (out : string) (k : string -> M A) q (fs : filesystem) :
  q <> out ->
  (forall fs1, (k out fs1).2 !! q = fs1 !! q) ->
  ((fd <- open_w out ;; k fd) fs).2 !! q = fs !! q.
Proof.
  intros Hq Hk. unfold bind, open_w. destruct (can_write out); [|reflexivity].
  rewrite Hk. now rewrite lookup_insert_ne by congruence.
Qed.

Lemma htmldoc_other input_path output_dir q fs :
  (forall out, join output_dir "index.html" = Ok out -> q <> out) ->
  (htmldoc input_path output_dir fs).2 !! q = fs !! q.
Proof.
  intros Hq. unfold htmldoc, bind at 1, open_r.
  destruct input_path as [ip|]; [|reflexivity].
  destruct (fs !! ip) eqn:Ein; [|reflexivity].
  unfold bind at 1, lift at 1.
  destruct (join output_dir "index.html") as [out|] eqn:Ej; [|reflexivity].
  apply open_then_write_other; [now apply Hq|].
  intros fs1. unfold bind, read. destruct (fs1 !! ip); [|reflexivity].
  apply write_data_other. now apply Hq.
Qed.

Lemma tmpdoc_other input_path output_dir q fs :
  (forall out, join output_dir "index.html" = Ok out -> q <> out) ->
  (tmpdoc input_path output_dir fs).2 !! q = fs !! q.
Proof.
  intros Hq. unfold tmpdoc, bind at 1, open_r.
  destruct input_path as [ip|]; [|reflexivity].
  destruct (fs !! ip) as [data|] eqn:Ein; [|reflexivity].
  unfold bind at 1, read. rewrite Ein.
  unfold bind at 1, lift at 1. destruct (tmpdoc2html data); [|reflexivity].
  unfold bind at 1, lift at 1.
  destruct (join output_dir "index.html") as [out|] eqn:Ej; [|reflexivity].
  apply open_then_write_other; [now apply Hq|].
  intros fs1. apply write_other. now apply Hq.
Qed.

(** X5. Every handler that writes one file changes that file only: any
    other path holds after the call what it held before, whether the call
    succeeds or fails. *)
Theorem handlers_change_only_their_output
    input_path output_dir license_uri file_format doctype q fs :
  ((forall out, join output_dir "license.txt" = Ok out -> q <> out) ->
     (citation input_path output_dir license_uri file_format fs).2 !! q = fs !! q)
  /\ ((forall out, join output_dir "cmeta.json" = Ok out -> q <> out) ->
     (cmeta input_path output_dir fs).2 !! q = fs !! q)
  /\ ((forall out, join output_dir "math.json" = Ok out -> q <> out) ->
     (maths input_path output_dir fs).2 !! q = fs !! q)
  /\ ((forall out, join output_dir "index.html" = Ok out -> q <> out) ->
     (docgen doctype input_path output_dir fs).2 !! q = fs !! q).
Proof.
  split; [|split; [|split]]; intros Hq.
  - unfold citation. fold (extract_license file_format input_path).
    pose proof (extract_license_reads file_format input_path fs) as Hfs.
    unfold bind at 1.
    destruct (extract_license file_format input_path fs) as [[x|e] fs1];
      simpl in Hfs; subst fs1; [|reflexivity].
    unfold bind at 1, lift at 1.
    destruct (join output_dir "license.txt") as [out|] eqn:Ej; [|reflexivity].
    apply open_then_write_other; [now apply Hq|].
    intros fs1. apply write_other. now apply Hq.
  - unfold cmeta, bind at 1, open_r.
    destruct input_path as [ip|]; [|reflexivity].
    destruct (fs !! ip) as [data|] eqn:Ein; [|reflexivity].
    unfold bind at 1, read. rewrite Ein.
    unfold bind at 1, lift at 1. destruct (Cmeta_new data) as [md|]; [|reflexivity].
    unfold bind at 1, lift at 1. destruct (cmeta_record md) as [rec|]; [|reflexivity].
    unfold bind at 1, lift at 1.
    destruct (join output_dir "cmeta.json") as [out|] eqn:Ej; [|reflexivity].
    apply open_then_write_other; [now apply Hq|].
    intros fs1. unfold json_dump. destruct (json_rejects _); simpl;
      (rewrite lookup_insert_ne; [reflexivity|]); intros <-; now apply (Hq out).
  - unfold maths, bind at 1.
    destruct (loadFromURL fs input_path) as [m|]; [|reflexivity].
    unfold bind at 1, lift at 1. destruct (extractMaths m) as [ms|]; [|reflexivity].
    unfold bind at 1, lift at 1.
    destruct (map_outcome _ ms) as [conv|]; [|reflexivity].
    unfold bind at 1, lift at 1.
    destruct (join output_dir "math.json") as [out|] eqn:Ej; [|reflexivity].
    apply open_then_write_other; [now apply Hq|].
    intros fs1. unfold json_dump. destruct (json_rejects _); simpl;
      (rewrite lookup_insert_ne; [reflexivity|]); intros <-; now apply (Hq out).
  - unfold docgen, bind at 1, lift at 1, dict_getitem.
    destruct doctype as [s|]; [|reflexivity].
    rewrite docs_lookup_spec.
    destruct (String.eqb s "tmpdoc"); [now apply tmpdoc_other|].
    destruct (String.eqb s "htmldoc"); [now apply htmldoc_other|reflexivity].
Qed.

(** [docgen] with doctype ['tmpdoc'] is a call of [tmpdoc]. *)
Lemma docgen_tmpdoc input_path output_dir fs :
  docgen (Some "tmpdoc") input_path output_dir fs = tmpdoc input_path output_dir fs.
Proof.
  unfold docgen, bind at 1, lift at 1, dict_getitem.
  rewrite docs_lookup_spec. reflexivity.
Qed.

(** X6. A missing input file makes the handler fail with [IOError] before
    it opens its output: nothing is created, and an output file that
    exists is not truncated. *)
Theorem missing_input_fails_before_output input_path output_dir license_uri fs :
  fs !! input_path = None ->
  cmeta (Some input_path) output_dir fs = (Raise IOError, fs)
  /\ docgen (Some "htmldoc") (Some input_path) output_dir fs = (Raise IOError, fs)
  /\ docgen (Some "tmpdoc") (Some input_path) output_dir fs = (Raise IOError, fs)
  /\ citation (Some input_path) output_dir license_uri (Some "cellml") fs
     = (Raise IOError, fs).
Proof.
  intros Hin. repeat split.
  - unfold cmeta, bind, open_r. now rewrite Hin.
  - rewrite docgen_htmldoc. unfold htmldoc, bind, open_r. now rewrite Hin.
  - rewrite docgen_tmpdoc. unfold tmpdoc, bind, open_r. now rewrite Hin.
  - assert (Hx : extract_license (Some "cellml") (Some input_path) fs
                 = (Raise IOError, fs)).
    { unfold extract_license, dict_get. rewrite citation_extract_lookup. simpl.
      unfold citation_cellml, bind, open_r. now rewrite Hin. }
    unfold citation. fold (extract_license (Some "cellml") (Some input_path)).
    now rewrite (bind_raise _ _ _ _ _ Hx).
Qed.

(** The whole of [cmeta], step by step. *)
Lemma cmeta_run input_path output_dir fs :
  cmeta input_path output_dir fs =
  match input_path with
  | None => (Raise TypeError, fs)
  | Some ip =>
      match fs !! ip with
      | None => (Raise IOError, fs)
      | Some data =>
          match Cmeta_new data with
          | Raise e => (Raise e, fs)
          | Ok metadata =>
              match cmeta_record metadata with
              | Raise e => (Raise e, fs)
              | Ok rec =>
                  match join output_dir "cmeta.json" with
                  | Raise e => (Raise e, fs)
                  | Ok out =>
                      if can_write out
                      then match json_rejects (JsonRecord rec) with
                           | None => (Ok tt, <[out := JsonRecord rec]> fs)
                           | Some e => (Raise e, <[out := JsonCut (JsonRecord rec)]> fs)
                           end
                      else (Raise IOError, fs)
                  end
              end
          end
      end
  end.
Proof.
  unfold cmeta, bind at 1, open_r.
  destruct input_path as [ip|]; [|reflexivity].
  destruct (fs !! ip) as [data|] eqn:Ein; [|reflexivity].
  unfold bind at 1, read. rewrite Ein.
  unfold bind at 1, lift at 1. destruct (Cmeta_new data) as [md|]; [|reflexivity].
  unfold bind at 1, lift at 1. destruct (cmeta_record md) as [rec|]; [|reflexivity].
  unfold bind at 1, lift at 1.
  destruct (join output_dir "cmeta.json") as [out|] eqn:Ej; [|reflexivity].
  unfold bind, open_w. destruct (can_write out); [|reflexivity].
  apply json_dump_fresh.
Qed.

(** The whole of [maths], step by step. *)
Lemma maths_run input_path output_dir fs :
  maths input_path output_dir fs =
  match loadFromURL fs input_path with
  | Raise e => (Raise e, fs)
  | Ok m =>
      match extractMaths m with
      | Raise e => (Raise e, fs)
      | Ok ms =>
          match convert_maths ms with
          | Raise e => (Raise e, fs)
          | Ok converted =>
              match join output_dir "math.json" with
              | Raise e => (Raise e, fs)
              | Ok out =>
                  if can_write out
                  then match json_rejects (JsonValue (PyList converted)) with
                       | None => (Ok tt, <[out := JsonValue (PyList converted)]> fs)
                       | Some e =>
                           (Raise e, <[out := JsonCut (JsonValue (PyList converted))]> fs)
                       end
                  else (Raise IOError, fs)
              end
          end
      end
  end.
Proof.
  unfold maths, bind at 1.
  destruct (loadFromURL fs input_path) as [m|]; [|reflexivity].
  unfold bind at 1, lift at 1. destruct (extractMaths m) as [ms|]; [|reflexivity].
  unfold bind at 1, lift at 1. fold (convert_maths ms).
  destruct (convert_maths ms) as [conv|]; [|reflexivity].
  unfold bind at 1, lift at 1.
  destruct (join output_dir "math.json") as [out|] eqn:Ej; [|reflexivity].
  unfold bind, open_w. destruct (can_write out); [|reflexivity].
  apply json_dump_fresh.
Qed.

(** X7. [cmeta] and [maths] end in one of three ways.  They fail before
    the output file is opened, and the file system is as it was.  Or they
    succeed, and one file has changed: the output, which holds the dumped
    document.  Or [json.dump] raises: the exception is the handler's, and
    the output file, already opened for writing, is left with an unfinished
    document.  The encoder's is the only failure that leaves a changed file
    system. *)
Theorem json_handlers_fail_early_or_in_dump input_path output_dir fs :
  ((exists e, cmeta input_path output_dir fs = (Raise e, fs))
   \/ exists out rec,
        join output_dir "cmeta.json" = Ok out
        /\ ((json_rejects (JsonRecord rec) = None
             /\ cmeta input_path output_dir fs = (Ok tt, <[out := JsonRecord rec]> fs))
            \/ exists e,
                 json_rejects (JsonRecord rec) = Some e
                 /\ cmeta input_path output_dir fs
                    = (Raise e, <[out := JsonCut (JsonRecord rec)]> fs)))
  /\ ((exists e, maths input_path output_dir fs = (Raise e, fs))
      \/ exists out v,
           join output_dir "math.json" = Ok out
           /\ ((json_rejects (JsonValue v) = None
                /\ maths input_path output_dir fs = (Ok tt, <[out := JsonValue v]> fs))
               \/ exists e,
                    json_rejects (JsonValue v) = Some e
                    /\ maths input_path output_dir fs
                       = (Raise e, <[out := JsonCut (JsonValue v)]> fs))).
Proof.
  split.
  - rewrite cmeta_run.
    destruct input_path as [ip|]; [|left; eauto].
    destruct (fs !! ip) as [data|]; [|left; eauto].
    destruct (Cmeta_new data) as [md|]; [|left; eauto].
    destruct (cmeta_record md) as [rec|]; [|left; eauto].
    destruct (join output_dir "cmeta.json") as [out|]; [|left; eauto].
    destruct (can_write out); [|left; eauto].
    right. exists out, rec. split; [reflexivity|].
    destruct (json_rejects (JsonRecord rec)) as [e|]; [right; eauto|left; auto].
  - rewrite maths_run.
    destruct (loadFromURL fs input_path) as [m|]; [|left; eauto].
    destruct (extractMaths m) as [ms|]; [|left; eauto].
    destruct (convert_maths ms) as [conv|]; [|left; eauto].
    destruct (join output_dir "math.json") as [out|]; [|left; eauto].
    destruct (can_write out); [|left; eauto].
    right. exists out, (PyList conv). split; [reflexivity|].
    destruct (json_rejects (JsonValue (PyList conv))) as [e|]; [right; eauto|left; auto].
Qed.

(** A comprehension whose function succeeds on every element is a [map];
    one whose function fails on some element fails. *)
Lemma map_outcome_total {A B} (f : A -> outcome B) (h : A -> B) (l : list A) :
  (forall x, x ∈ l -> f x = Ok (h x)) -> map_outcome f l = Ok (map h l).
Proof.
  induction l as [|x l IH]; intros H; [reflexivity|]. simpl.
  rewrite (H x) by apply list_elem_of_here. simpl.
  rewrite IH by (intros y Hy; apply H; now apply list_elem_of_further).
  reflexivity.
Qed.

Lemma map_outcome_raise {A B} (f : A -> outcome B) (l : list A) x e :
  x ∈ l -> f x = Raise e -> exists e', map_outcome f l = Raise e'.
Proof.
  induction l as [|y l IH]; intros Hx Hf; [now apply elem_of_nil in Hx|].
  simpl. destruct (f y) as [b|e1] eqn:Ey; [|eauto]. simpl.
  apply elem_of_cons in Hx as [->|Hx]; [congruence|].
  destruct (IH Hx Hf) as [e' ->]. simpl. eauto.
Qed.

(** X8. When every expression converts, the document [maths] dumps to
    [math.json] holds one entry per extracted item, in order, with the
    item's key and its expressions converted one by one.  It is written in
    full when the encoder accepts it; when the encoder does not,
    [json.dump] raises and the file is left unfinished. *)
Theorem maths_converts_each_expression
    input_path output_dir fs m ms (g : string -> string) out :
  loadFromURL fs input_path = Ok m ->
  extractMaths m = Ok ms ->
  (forall kv e, kv ∈ ms -> e ∈ kv.2 -> mathc2p e = Ok (g e)) ->
  join output_dir "math.json" = Ok out ->
  can_write out = true ->
  (json_rejects (JsonValue (PyList (map (maths_entry g) ms))) = None ->
   maths input_path output_dir fs
   = (Ok tt, <[out := JsonValue (PyList (map (maths_entry g) ms))]> fs))
  /\ (forall e, json_rejects (JsonValue (PyList (map (maths_entry g) ms))) = Some e ->
      maths input_path output_dir fs
      = (Raise e, <[out := JsonCut (JsonValue (PyList (map (maths_entry g) ms)))]> fs)).
Proof.
  intros Hl Hx Hg Hj Hw. rewrite maths_run, Hl, Hx.
  assert (Hc : convert_maths ms = Ok (map (maths_entry g) ms)).
  { unfold convert_maths. apply map_outcome_total. intros kv Hkv.
    rewrite (map_outcome_total mathc2p g) by (intros e He; now apply (Hg kv)).
    simpl. unfold maths_entry. now rewrite map_map. }
  rewrite Hc, Hj, Hw. split; [now intros ->|now intros e ->].
Qed.

(** X9. When one expression fails to convert, [maths] fails and no
    [math.json] is written: the conversion of all items comes before the
    output file is opened. *)
Theorem maths_failed_conversion_writes_nothing
    input_path output_dir fs m ms kv expr e :
  loadFromURL fs input_path = Ok m ->
  extractMaths m = Ok ms ->
  kv ∈ ms -> expr ∈ kv.2 -> mathc2p expr = Raise e ->
  exists e', maths input_path output_dir fs = (Raise e', fs).
Proof.
  intros Hl Hx Hkv Hin Hf. rewrite maths_run, Hl, Hx.
  destruct (map_outcome_raise mathc2p kv.2 expr e Hin Hf) as [e1 H1].
  assert (Hc : exists e', convert_maths ms = Raise e').
  { unfold convert_maths.
    apply (map_outcome_raise _ ms kv e1 Hkv). now rewrite H1. }
  destruct Hc as [e' ->]. eauto.
Qed.

(** X10. [docgen] with doctype ['tmpdoc'] writes what the legacy transform
    makes of the input into [index.html]; when the transform fails, the
    failure is the handler's and no file is opened for writing. *)
Theorem docgen_tmpdoc_writes_transform input_path output_dir fs data :
  fs !! input_path = Some data ->
  (forall html out,
     tmpdoc2html data = Ok (PyStr html) ->
     join output_dir "index.html" = Ok out ->
     can_write out = true ->
     docgen (Some "tmpdoc") (Some input_path) output_dir fs
     = (Ok tt, <[out := Text html]> fs))
  /\ (forall e,
       tmpdoc2html data = Raise e ->
       docgen (Some "tmpdoc") (Some input_path) output_dir fs = (Raise e, fs)).
Proof.
  intros Hin. split.
  - intros html out Ht Hj Hw. rewrite docgen_tmpdoc. unfold tmpdoc.
    rewrite (bind_ok _ _ _ _ _ (open_r_ok _ _ _ Hin)).
    rewrite (bind_ok _ _ _ _ _ (read_ok _ _ _ Hin)).
    unfold bind at 1, lift at 1. rewrite Ht.
    unfold bind at 1, lift at 1. rewrite Hj.
    rewrite (bind_ok _ _ _ _ _ (open_w_ok _ _ Hw)).
    apply write_fresh.
  - intros e Ht. rewrite docgen_tmpdoc. unfold tmpdoc.
    rewrite (bind_ok _ _ _ _ _ (open_r_ok _ _ _ Hin)).
    rewrite (bind_ok _ _ _ _ _ (read_ok _ _ _ Hin)).
    unfold bind, lift. now rewrite Ht.
Qed.

(** *** codegen *)

Lemma codegen_run input_path output_dir fs :
  codegen input_path output_dir fs =
  match loadFromURL fs input_path with
  | Raise e => (Raise e, fs)
  | Ok m =>
      match exportCeleds m with
      | Raise e => (Raise e, fs)
      | Ok celeds => write_celeds output_dir celeds fs
      end
  end.
Proof.
  unfold codegen, bind at 1.
  destruct (loadFromURL fs input_path) as [m|]; [|reflexivity].
  unfold bind at 1, lift at 1. destruct (exportCeleds m); reflexivity.
Qed.

(** One turn of the loop. *)
Lemma write_celeds_cons output_dir k v rest fs :
  write_celeds output_dir ((k, v) :: rest) fs =
  match code_file output_dir k with
  | Raise e => (Raise e, fs)
  | Ok out =>
      if can_write out
      then match v with
           | PyStr s => write_celeds output_dir rest (<[out := Text s]> fs)
           | _ => (Raise TypeError, <[out := Text ""]> fs)
           end
      else (Raise IOError, fs)
  end.
Proof.
  unfold write_celeds at 1, code_file. cbn [for_each fst snd].
  unfold bind at 1. unfold bind at 1, lift at 1.
  destruct (dict_getitem codegen_fileext (Some k)) as [ext|]; [|reflexivity].
  cbn [obind]. unfold bind at 1, lift at 1.
  destruct (join output_dir _) as [out|]; [|reflexivity].
  unfold bind at 1, open_w. destruct (can_write out); [|reflexivity].
  destruct v; try reflexivity.
  rewrite write_fresh. reflexivity.
Qed.

Lemma for_each_app {A} (pre rest : list A) (body : A -> M unit) fs :
  for_each (pre ++ rest) body fs =
  match for_each pre body fs with
  | (Ok _, fs1) => for_each rest body fs1
  | (Raise e, fs1) => (Raise e, fs1)
  end.
Proof.
  revert fs. induction pre as [|x pre IH]; intros fs; [reflexivity|].
  cbn [app for_each]. unfold bind.
  destruct (body x fs) as [[u|e] fs1]; [apply IH|reflexivity].
Qed.

Lemma codegen_fileext_lookup k ext :
  codegen_fileext !! k = Some ext ->
  (k, ext) ∈ [("Python", "py"); ("C_IDA", "c"); ("C", "c"); ("F77", "f77"); ("MATLAB", "m")].
Proof.
  unfold codegen_fileext, dict_of_items. cbn [fold_left fst snd]. intros H.
  repeat (apply lookup_insert_Some in H as [[<- <-]|[_ H]];
          [repeat first [apply list_elem_of_here | apply list_elem_of_further]|]).
  now rewrite lookup_empty in H.
Qed.

(** Different languages have different output files. *)
Lemma code_file_inj output_dir k1 k2 out :
  code_file output_dir k1 = Ok out -> code_file output_dir k2 = Ok out -> k1 = k2.
Proof.
  unfold code_file, dict_getitem.
  destruct (codegen_fileext !! k1) as [e1|] eqn:E1; [|discriminate].
  destruct (codegen_fileext !! k2) as [e2|] eqn:E2; [|discriminate].
  apply codegen_fileext_lookup in E1, E2. cbn [obind]. unfold join.
  destruct output_dir as [d|].
  2:{ repeat (apply elem_of_cons in E1 as [[= -> ->]|E1]; [discriminate|]).
      now apply elem_of_nil in E1. }
  repeat (apply elem_of_cons in E1 as [[= -> ->]|E1];
          [|try (now apply elem_of_nil in E1)]);
    repeat (apply elem_of_cons in E2 as [[= -> ->]|E2];
            [|try (now apply elem_of_nil in E2)]);
    try reflexivity;
    cbn [startswith String.prefix ascii_dec ascii_rec ascii_rect bool_dec bool_rec
         bool_rect sumbool_rec sumbool_rect];
    destruct (String.eqb d "" || endswith "/" d);
    intros [= <-] [= H];
    apply (inj (String.app _)) in H; discriminate.
Qed.

(** The loop over items with known languages, string values and writable
    files: every item's file holds its value, nothing else changes. *)
Lemma write_celeds_all output_dir celeds : forall fs,
  NoDup celeds.*1 ->
  (forall k v, (k, v) ∈ celeds ->
     exists out s, code_file output_dir k = Ok out /\ can_write out = true /\ v = PyStr s) ->
  exists fs',
    write_celeds output_dir celeds fs = (Ok tt, fs')
    /\ (forall k s, (k, PyStr s) ∈ celeds ->
          exists out, code_file output_dir k = Ok out /\ fs' !! out = Some (Text s))
    /\ (forall q, (forall k, k ∈ celeds.*1 -> code_file output_dir k <> Ok q) ->
          fs' !! q = fs !! q).
Proof.
  induction celeds as [|[k v] rest IH]; intros fs Hnd Hok.
  - exists fs. split; [reflexivity|]. split; [|reflexivity].
    intros k s H. now apply elem_of_nil in H.
  - cbn [fmap list_fmap fst] in Hnd. apply NoDup_cons in Hnd as [Hk Hnd].
    destruct (Hok k v (list_elem_of_here _ _)) as (out & s & Hf & Hw & ->).
    destruct (IH (<[out := Text s]> fs) Hnd) as (fs' & Hrun & Hfiles & Hframe).
    { intros k' v' H'. apply Hok. now apply list_elem_of_further. }
    exists fs'. split; [|split].
    + now rewrite write_celeds_cons, Hf, Hw.
    + intros k' s' [[= -> ->]|H']%elem_of_cons.
      * exists out. split; [exact Hf|]. rewrite Hframe; [apply lookup_insert_eq|].
        intros k2 Hk2 Hf2. apply Hk.
        now rewrite (code_file_inj _ _ _ _ Hf Hf2).
      * now apply Hfiles.
    + intros q Hq. rewrite Hframe.
      * apply lookup_insert_ne. intros <-.
        apply (Hq k); [apply list_elem_of_here|exact Hf].
      * intros k2 Hk2. apply Hq. now apply list_elem_of_further.
Qed.

(** X11. When every exported language has a known extension, [codegen]
    writes one file per language, [code.<language>.<extension>] in the
    output directory, holding that language's code; no other file
    changes. *)
Theorem codegen_writes_one_file_per_language input_path output_dir fs m celeds :
  loadFromURL fs input_path = Ok m ->
  exportCeleds m = Ok celeds ->
  NoDup celeds.*1 ->
  (forall k v, (k, v) ∈ celeds ->
     exists out s, code_file output_dir k = Ok out /\ can_write out = true /\ v = PyStr s) ->
  exists fs',
    codegen input_path output_dir fs = (Ok tt, fs')
    /\ (forall k s, (k, PyStr s) ∈ celeds ->
          exists out, code_file output_dir k = Ok out /\ fs' !! out = Some (Text s))
    /\ (forall q, (forall k, k ∈ celeds.*1 -> code_file output_dir k <> Ok q) ->
          fs' !! q = fs !! q).
Proof.
  intros Hl Hx Hnd Hok. rewrite codegen_run, Hl, Hx.
  now apply write_celeds_all.
Qed.

(** X12. A language without a known extension stops [codegen] with a
    [KeyError] where the loop meets it: the files of the languages before
    it stay written, and those of the languages after it are not
    written. *)
Theorem codegen_unknown_language_keeps_earlier_files
    input_path output_dir fs m pre k v post fs1 :
  loadFromURL fs input_path = Ok m ->
  exportCeleds m = Ok (pre ++ (k, v) :: post) ->
  codegen_fileext !! k = None ->
  write_celeds output_dir pre fs = (Ok tt, fs1) ->
  codegen input_path output_dir fs = (Raise KeyError, fs1).
Proof.
  intros Hl Hx Hk Hpre. rewrite codegen_run, Hl, Hx.
  unfold write_celeds in *. rewrite for_each_app, Hpre.
  fold (write_celeds output_dir ((k, v) :: post)).
  rewrite write_celeds_cons. unfold code_file, dict_getitem. now rewrite Hk.
Qed.

(** *** cmeta: the citation entries *)

(** The date pattern accepts exactly the strings that start with four
    digits, whatever follows. *)
Lemma re_date_search_spec s :
  is_Some (re_date_search s) <-> starts_with_year s = true.
Proof.
  unfold re_date_search, starts_with_year.
  destruct s as [|a [|b [|c [|d s1]]]];
    try (split; [intros [x Hx]; discriminate|discriminate]).
  destruct (is_digit a && is_digit b && is_digit c && is_digit d).
  - split; [reflexivity|intros _].
    destruct (re_date_group s1) as [s2|]; [destruct (re_date_group s2)|]; eauto.
  - split; [intros [x Hx]; discriminate|discriminate].
Qed.

(** The record [generate_citation] builds from the first citation. *)
Lemma generate_citation_run metadata id0 ids c0 cits :
  get_cmetaid metadata = Ok (id0 :: ids) ->
  get_citation metadata id0 = Ok (c0 :: cits) ->
  generate_citation metadata ∅ =
  Ok (let r := <["citation_issued" := PyStr (checked_issued (issued c0))]>
                 (<["citation_title" := title c0]>
                    (<["citation_bibliographicCitation" := journal c0]>
                       (<["citation_id" := citation_id c0]> ∅))) in
      match creator c0 with
      | [] => r
      | _ :: _ => <["citation_authors" := PyList (map author_triple (creator c0))]> r
      end).
Proof.
  intros Hids Hcit. unfold generate_citation. rewrite Hids. cbn [obind].
  rewrite Hcit. cbn [obind].
  assert (Hissued :
    match issued c0 with
    | PyStr s =>
        if is_Some_dec (re_date_search s)
        then <["citation_issued" := PyStr s]>
               (<["citation_title" := title c0]>
                  (<["citation_bibliographicCitation" := journal c0]>
                     (<["citation_id" := citation_id c0]> (∅ : gmap string pyval))))
        else <["citation_issued" := PyStr ""]>
               (<["citation_title" := title c0]>
                  (<["citation_bibliographicCitation" := journal c0]>
                     (<["citation_id" := citation_id c0]> ∅)))
    | _ => <["citation_issued" := PyStr ""]>
             (<["citation_title" := title c0]>
                (<["citation_bibliographicCitation" := journal c0]>
                   (<["citation_id" := citation_id c0]> ∅)))
    end
    = <["citation_issued" := PyStr (checked_issued (issued c0))]>
        (<["citation_title" := title c0]>
           (<["citation_bibliographicCitation" := journal c0]>
              (<["citation_id" := citation_id c0]> ∅)))).
  { unfold checked_issued. destruct (issued c0) as [|s| |]; try reflexivity.
    destruct (is_Some_dec (re_date_search s)) as [Hs|Hs].
    - apply re_date_search_spec in Hs. now rewrite Hs.
    - destruct (starts_with_year s) eqn:Ey; [|reflexivity].
      exfalso. apply Hs. now apply re_date_search_spec. }
  rewrite Hissued.
  destruct (creator c0) as [|cr crs]; [reflexivity|].
  cbv zeta. do 3 f_equal.
  apply map_ext. intros c. unfold author_triple.
  now destruct (other c) as [|o os].
Qed.

(** The record [cmeta] writes when there is a citation. *)
Lemma cmeta_with_citation
    input_path output_dir fs data metadata id0 ids c0 cits kw titles vcards out :
  fs !! input_path = Some data ->
  Cmeta_new data = Ok metadata ->
  get_cmetaid metadata = Ok (id0 :: ids) ->
  get_citation metadata id0 = Ok (c0 :: cits) ->
  get_keywords metadata = Ok kw ->
  get_dc_title metadata = Ok titles ->
  get_dc_vcard_info metadata = Ok vcards ->
  join output_dir "cmeta.json" = Ok out ->
  can_write out = true ->
  exists r0 rec,
    generate_citation metadata ∅ = Ok r0
    /\ cmeta_record metadata = Ok rec
    /\ (json_rejects (JsonRecord rec) = None ->
        cmeta (Some input_path) output_dir fs = (Ok tt, <[out := JsonRecord rec]> fs))
    /\ (forall e, json_rejects (JsonRecord rec) = Some e ->
        cmeta (Some input_path) output_dir fs
        = (Raise e, <[out := JsonCut (JsonRecord rec)]> fs))
    /\ forall k, k ∈ citation_keys -> rec !! k = r0 !! k.
Proof.
  intros Hin Hmd Hids Hcit Hk Ht Hv Hj Hw.
  pose proof (generate_citation_run metadata id0 ids c0 cits Hids Hcit) as H0.
  match type of H0 with _ = Ok ?r =>
    pose proof (cmeta_record_steps metadata r kw titles vcards H0 Hk Ht Hv) as Hrec;
    destruct (cmeta_writes_record _ output_dir _ data metadata _ out Hin Hmd Hrec Hj Hw)
      as [Hok Hcut];
    exists r, (after_citation r kw titles vcards) end.
  split; [exact H0|]. split; [exact Hrec|]. split; [exact Hok|]. split; [exact Hcut|].
  intros k Hkey. now apply after_citation_other.
Qed.

(** X13. The [citation_issued] entry is always a string: the [issued]
    value itself when that is a string starting with four digits (whatever
    follows them), and the empty string otherwise.  (The record is written
    in full when the encoder accepts it, and left unfinished in the file
    when it does not.) *)
Theorem cmeta_issued_is_checked
    input_path output_dir fs data metadata id0 ids c0 cits kw titles vcards out :
  fs !! input_path = Some data ->
  Cmeta_new data = Ok metadata ->
  get_cmetaid metadata = Ok (id0 :: ids) ->
  get_citation metadata id0 = Ok (c0 :: cits) ->
  get_keywords metadata = Ok kw ->
  get_dc_title metadata = Ok titles ->
  get_dc_vcard_info metadata = Ok vcards ->
  join output_dir "cmeta.json" = Ok out ->
  can_write out = true ->
  exists rec,
    cmeta_record metadata = Ok rec
    /\ (json_rejects (JsonRecord rec) = None ->
        cmeta (Some input_path) output_dir fs = (Ok tt, <[out := JsonRecord rec]> fs))
    /\ (forall e, json_rejects (JsonRecord rec) = Some e ->
        cmeta (Some input_path) output_dir fs
        = (Raise e, <[out := JsonCut (JsonRecord rec)]> fs))
    /\ rec !! "citation_issued" = Some (PyStr (checked_issued (issued c0))).
Proof.
  intros Hin Hmd Hids Hcit Hk Ht Hv Hj Hw.
  destruct (cmeta_with_citation input_path output_dir fs data metadata id0 ids c0 cits
              kw titles vcards out) as (r0 & rec & H0 & Hrec & Hok & Hcut & Hkeys); auto.
  exists rec. split; [exact Hrec|]. split; [exact Hok|]. split; [exact Hcut|].
  rewrite Hkeys by in_keys.
  rewrite (generate_citation_run metadata id0 ids c0 cits Hids Hcit) in H0.
  injection H0 as <-. cbv zeta.
  destruct (creator c0); [|rewrite lookup_insert_ne by discriminate];
    apply lookup_insert_eq.
Qed.

(** X14. When the first citation names creators, [citation_authors] holds
    one triple per creator, in order: family name, given name, and the
    other names joined by single spaces (the empty string when there are
    none).  (The record is written in full when the encoder accepts it,
    and left unfinished in the file when it does not.) *)
Theorem cmeta_authors_one_triple_per_creator
    input_path output_dir fs data metadata id0 ids c0 cits kw titles vcards out :
  fs !! input_path = Some data ->
  Cmeta_new data = Ok metadata ->
  get_cmetaid metadata = Ok (id0 :: ids) ->
  get_citation metadata id0 = Ok (c0 :: cits) ->
  creator c0 <> [] ->
  get_keywords metadata = Ok kw ->
  get_dc_title metadata = Ok titles ->
  get_dc_vcard_info metadata = Ok vcards ->
  join output_dir "cmeta.json" = Ok out ->
  can_write out = true ->
  exists rec,
    cmeta_record metadata = Ok rec
    /\ (json_rejects (JsonRecord rec) = None ->
        cmeta (Some input_path) output_dir fs = (Ok tt, <[out := JsonRecord rec]> fs))
    /\ (forall e, json_rejects (JsonRecord rec) = Some e ->
        cmeta (Some input_path) output_dir fs
        = (Raise e, <[out := JsonCut (JsonRecord rec)]> fs))
    /\ rec !! "citation_authors" = Some (PyList (map author_triple (creator c0))).
Proof.
  intros Hin Hmd Hids Hcit Hcr Hk Ht Hv Hj Hw.
  destruct (cmeta_with_citation input_path output_dir fs data metadata id0 ids c0 cits
              kw titles vcards out) as (r0 & rec & H0 & Hrec & Hok & Hcut & Hkeys); auto.
  exists rec. split; [exact Hrec|]. split; [exact Hok|]. split; [exact Hcut|].
  rewrite Hkeys by in_keys.
  rewrite (generate_citation_run metadata id0 ids c0 cits Hids Hcit) in H0.
  injection H0 as <-. cbv zeta.
  destruct (creator c0); [congruence|]. apply lookup_insert_eq.
Qed.

(** *** The parser builder, for any registry *)

Lemma add_commands_other fns : forall commands grp r n,
  add_commands fns commands grp = Ok r ->
  n ∉ map (fun fh : pyfunc * string => fn_name fh.1) fns ->
  r.1 !! n = commands !! n
  /\ name_parser_map r.2 !! n = name_parser_map grp !! n.
Proof.
  induction fns as [|[g hg] fns IH]; intros commands grp r n H Hn.
  - injection H as <-. split; reflexivity.
  - cbn [add_commands] in H. fold (command_parser g) in H.
    destruct (command_parser g) as [p|]; [|discriminate]. cbn [obind] in H.
    cbn [map fst] in Hn. apply not_elem_of_cons in Hn as [Hne Hn].
    destruct (IH _ _ _ n H Hn) as [H1 H2]. rewrite H1, H2. cbn [name_parser_map].
    split; apply lookup_insert_ne; congruence.
Qed.

Lemma add_commands_lookup fns : forall commands grp r f h,
  add_commands fns commands grp = Ok r ->
  NoDup (map (fun fh : pyfunc * string => fn_name fh.1) fns) ->
  (f, h) ∈ fns ->
  r.1 !! fn_name f = Some f
  /\ exists p, command_parser f = Ok p /\ name_parser_map r.2 !! fn_name f = Some p.
Proof.
  induction fns as [|[g hg] fns IH]; intros commands grp r f h H Hnd Hin.
  - now apply elem_of_nil in Hin.
  - cbn [add_commands] in H. fold (command_parser g) in H.
    destruct (command_parser g) as [p|] eqn:Ep; [|discriminate]. cbn [obind] in H.
    cbn [map fst] in Hnd. apply NoDup_cons in Hnd as [Hg Hnd].
    apply elem_of_cons in Hin as [[= -> ->]|Hin].
    + destruct (add_commands_other _ _ _ _ (fn_name g) H Hg) as [H1 H2].
      rewrite H1, H2. cbn [name_parser_map]. rewrite !lookup_insert_eq.
      split; [reflexivity|]. now exists p.
    + now apply (IH _ _ r f h H Hnd).
Qed.

(** X15. For any registry with distinct handler names that the builder
    accepts, the command table maps each handler's name to the handler, and
    the sub-parsers group maps it to the parser made from that handler's
    signature. *)
Theorem generate_cmd_parser_maps_each_handler fns commands ap f h :
  generate_cmd_parser fns = Ok (commands, ap) ->
  NoDup (map (fun fh : pyfunc * string => fn_name fh.1) fns) ->
  (f, h) ∈ fns ->
  commands !! fn_name f = Some f
  /\ exists p, command_parser f = Ok p
               /\ name_parser_map (group ap) !! fn_name f = Some p.
Proof.
  unfold generate_cmd_parser. intros H Hnd Hin.
  destruct (add_commands fns ∅ _) as [r|] eqn:Er; [|discriminate].
  cbn [obind] in H. injection H as <- <-. cbn [group].
  now apply (add_commands_lookup fns _ _ r f h Er).
Qed.

(** X16. For any signature with distinct parameter names, the parser of
    the command has, after the help action, one store action per
    parameter in order, and the flag of a parameter is required iff the
    parameter is not one of the trailing defaulted ones. *)
Theorem builder_required_for_any_signature f p i arg :
  command_parser f = Ok p ->
  NoDup (fn_args f) ->
  fn_args f !! i = Some arg ->
  exists a,
    actions p !! S i = Some a
    /\ option_strings a = [flag_of arg]
    /\ kind a = StoreAction
    /\ required a
       = (i <? length (fn_args f) - length (default [] (fn_defaults f))).
Proof.
  intros Hp Hnd Hi. exists (store_action (defaults_of f) arg).
  split; [|split; [reflexivity|split; [reflexivity|]]].
  - rewrite (add_arguments_actions _ _ _ _ Hp).
    change (map (store_action (defaults_of f)) (fn_args f) !! i
            = Some (store_action (defaults_of f) arg)).
    now rewrite lookup_map, Hi.
  - now apply store_action_required.
Qed.

(** X17. The builder pairs the reversed parameter list with the defaults
    in declaration order: of [n] parameters, the one at index [i] gets the
    default at index [n - 1 - i] of the defaults tuple, where the signature
    declares the one at index [i - (n - d)].  The two agree when there is
    one default; with more, the defaults are handed out in reverse. *)
Theorem builder_pairs_defaults_in_reverse f p i arg :
  command_parser f = Ok p ->
  NoDup (fn_args f) ->
  fn_args f !! i = Some arg ->
  length (fn_args f) - length (default [] (fn_defaults f)) <= i ->
  exists a,
    actions p !! S i = Some a
    /\ Some (action_default a)
       = default [] (fn_defaults f) !! (length (fn_args f) - S i)
    /\ declared_default f i
       = default [] (fn_defaults f)
           !! (i - (length (fn_args f) - length (default [] (fn_defaults f)))).
Proof.
  intros Hp Hnd Hi Hge. exists (store_action (defaults_of f) arg).
  assert (Hlt : i < length (fn_args f)) by now apply lookup_lt_Some with arg.
  split; [|split].
  - rewrite (add_arguments_actions _ _ _ _ Hp).
    change (map (store_action (defaults_of f)) (fn_args f) !! i
            = Some (store_action (defaults_of f) arg)).
    now rewrite lookup_map, Hi.
  - cbn [action_default store_action].
    rewrite (defaults_of_lookup f i arg Hnd Hi).
    destruct (default [] (fn_defaults f) !! (length (fn_args f) - S i)) eqn:E;
      [reflexivity|].
    apply lookup_ge_None in E. lia.
  - unfold declared_default.
    replace (_ <=? i) with true by (symmetry; now apply Nat.leb_le).
    replace (i <? _) with true by (symmetry; now apply Nat.ltb_lt).
    reflexivity.
Qed.

(** *** Flags and destinations *)

Lemma str_replace_back a b s :
  contains_char b s = false -> str_replace b a (str_replace a b s) = s.
Proof.
  induction s as [|c s IH]; [reflexivity|]. cbn [contains_char str_replace].
  intros [Hc Hs]%orb_false_iff. rewrite (IH Hs). f_equal.
  destruct (Ascii.eqb_spec c a) as [->|Hca].
  - now rewrite Ascii.eqb_refl.
  - now rewrite Hc.
Qed.

Lemma contains_char_lstrip c d s :
  contains_char c s = false -> contains_char c (lstrip d s) = false.
Proof.
  induction s as [|x s IH]; [reflexivity|]. cbn [contains_char lstrip].
  intros [Hx Hs]%orb_false_iff.
  destruct (Ascii.eqb x d); [now apply IH|].
  cbn [contains_char]. now rewrite Hx, Hs.
Qed.

(** Stripping the hyphens that leading underscores have become. *)
Lemma lstrip_replaced s :
  contains_char "-" s = false ->
  lstrip "-" (str_replace "_" "-" s) = str_replace "_" "-" (lstrip "_" s).
Proof.
  induction s as [|c s IH]; [reflexivity|]. cbn [contains_char str_replace lstrip].
  intros [Hc Hs]%orb_false_iff.
  destruct (Ascii.eqb_spec c "_") as [->|Hne].
  - cbn [Ascii.eqb Bool.eqb]. now apply IH.
  - rewrite Hc. cbn [str_replace].
    destruct (Ascii.eqb_spec c "_"); [congruence|reflexivity].
Qed.

(** X18. The destination of a parameter's flag is the parameter's name
    without its leading underscores (parameter names have no hyphen): the
    keyword the handler is called with is the parameter's name exactly
    when the name does not start with an underscore. *)
Theorem flag_destination_is_parameter_name f p i arg :
  command_parser f = Ok p ->
  fn_args f !! i = Some arg ->
  contains_char "-" arg = false ->
  exists a,
    actions p !! S i = Some a
    /\ dest a = Some (lstrip "_" arg)
    /\ (startswith "_" arg = false -> dest a = Some arg).
Proof.
  intros Hp Hi Hh. exists (store_action (defaults_of f) arg).
  assert (Hd : dest (store_action (defaults_of f) arg) = Some (lstrip "_" arg)).
  { cbn [dest store_action]. f_equal. unfold flag_of.
    change (lstrip "-" ("--" +:+ str_replace "_" "-" arg))
      with (lstrip "-" (str_replace "_" "-" arg)).
    rewrite (lstrip_replaced arg Hh).
    apply str_replace_back. now apply contains_char_lstrip. }
  split; [|split; [exact Hd|]].
  - rewrite (add_arguments_actions _ _ _ _ Hp).
    change (map (store_action (defaults_of f)) (fn_args f) !! i
            = Some (store_action (defaults_of f) arg)).
    now rewrite lookup_map, Hi.
  - intros Hs. rewrite Hd. f_equal.
    destruct arg as [|c arg']; [reflexivity|]. cbn [lstrip].
    unfold startswith in Hs. cbn [String.prefix] in Hs.
    destruct (Ascii.eqb_spec c "_") as [->|Hne]; [|reflexivity].
    destruct (ascii_dec "_" "_") as [_|Hn]; [destruct arg'; discriminate|congruence].
Qed.

(** *** Command lines of flags and values *)

Lemma plain_value_cases v :
  plain_value v = true ->
  v = "" \/ exists c v', v = String c v' /\ Ascii.eqb c "-" = false.
Proof.
  unfold plain_value, startswith. destruct v as [|c v']; [now left|].
  cbn [String.prefix]. intros H. right. exists c, v'. split; [reflexivity|].
  destruct (ascii_dec "-" c) as [<-|Hne].
  - destruct v'; discriminate.
  - apply Ascii.eqb_neq. congruence.
Qed.

Lemma parse_optional_plain p v :
  plain_value v = true -> parse_optional p v = Ok None.
Proof.
  intros [->|(c & v' & -> & Hc)]%plain_value_cases; [reflexivity|].
  unfold parse_optional. now rewrite Hc.
Qed.

Lemma plain_value_not_separator v :
  plain_value v = true -> String.eqb v "--" = false.
Proof.
  intros [->|(c & v' & -> & Hc)]%plain_value_cases; [reflexivity|].
  cbn [String.eqb]. now rewrite Hc.
Qed.

(** Flags and plain values are classified one by one. *)
Lemma classify_flags_and_values p (items : list (string * option_tuple * string)) :
  (forall f t v, (f, t, v) ∈ items ->
     String.eqb f "--" = false
     /\ parse_optional p f = Ok (Some t)
     /\ plain_value v = true) ->
  classify p (flat_map (fun x => [x.1.1; x.2]) items)
  = Ok (flat_map (fun x => [(x.1.1, ClsO x.1.2); (x.2, ClsA)]) items).
Proof.
  induction items as [|[[f t] v] items IH]; intros H; [reflexivity|].
  destruct (H f t v (list_elem_of_here _ _)) as (Hf & Hp & Hv).
  cbn [flat_map app fst snd classify].
  rewrite Hf, Hp. cbn [obind].
  rewrite (plain_value_not_separator v Hv), (parse_optional_plain p v Hv).
  cbn [obind]. rewrite IH; [reflexivity|].
  intros f' t' v' H'. apply H. now apply list_elem_of_further.
Qed.

(** Each store flag followed by a plain value stores that value. *)
Lemma scan_flags_and_values p (items : list (string * action * string)) :
  (forall f a v, (f, a, v) ∈ items -> kind a = StoreAction) ->
  forall pd st, (forall a, pd <> Want a) ->
  scan p None
    (flat_map (fun x => [(x.1.1, ClsO (Some x.1.2, x.1.1, None)); (x.2, ClsA)]) items)
    pd st
  = Ok (store_all items st).
Proof.
  induction items as [|[[f a] v] items IH]; intros H pd st Hpd.
  - destruct pd as [|a]; [reflexivity|now destruct (Hpd a)].
  - assert (Hk : kind a = StoreAction) by apply (H f a v), list_elem_of_here.
    cbn [flat_map app fst snd store_all fold_left].
    assert (Hstep : forall rest,
              scan p None ((f, ClsO (Some a, f, None)) :: (v, ClsA) :: rest) pd st
              = scan p None rest Idle (take_store a v st)).
    { intros rest. destruct pd as [|a0]; [|now destruct (Hpd a0)].
      cbn [scan]. rewrite Hk. reflexivity. }
    rewrite Hstep. apply IH; [|discriminate].
    intros f' a' v' H'. apply (H f' a' v'). now apply list_elem_of_further.
Qed.

Lemma store_all_extras items : forall st,
  st_extras (store_all items st) = st_extras st.
Proof.
  induction items as [|x items IH]; intros st; [reflexivity|].
  unfold store_all in *. cbn [fold_left]. now rewrite IH.
Qed.

(** A sub-command parser accepts a command line of store flags with plain
    values when all its required flags are among them. *)
Lemma parse_known_args_flag_values p (items : list (string * action * string)) ns :
  (forall f a v, (f, a, v) ∈ items ->
     String.eqb f "--" = false
     /\ parse_optional p f = Ok (Some (Some a, f, None))
     /\ kind a = StoreAction
     /\ plain_value v = true) ->
  parse_known_args p None (flag_values items) ns =
  let st := store_all items {| st_ns := install_defaults (actions p) ns;
                               st_seen := []; st_extras := [] |} in
  if check_required (actions p) (st_seen st)
  then Ok (st_ns st, [])
  else usage_error.
Proof.
  intros H. unfold parse_known_args, flag_values.
  assert (Hc : classify p (flat_map (fun x : string * action * string => [x.1.1; x.2]) items)
               = Ok (flat_map (fun x : string * action * string =>
                                 [(x.1.1, ClsO (Some x.1.2, x.1.1, None)); (x.2, ClsA)])
                              items)).
  { pose proof (classify_flags_and_values p
                  (map (fun x : string * action * string =>
                          (x.1.1, (Some x.1.2, x.1.1, None), x.2)) items)) as Hc.
    rewrite !flat_map_concat_map, !map_map in Hc.
    rewrite !flat_map_concat_map. apply Hc.
    intros f t v Hin. apply list_elem_of_In, in_map_iff in Hin as ([[f0 a0] v0] & [= <- <- <-] & Hin).
    apply list_elem_of_In in Hin. destruct (H f0 a0 v0 Hin) as (H1 & H2 & _ & H4).
    auto. }
  rewrite Hc. cbn [obind].
  rewrite scan_flags_and_values; [|intros f a v Hin; now apply (H f a v)|discriminate].
  cbn [obind]. cbv zeta. now rewrite store_all_extras.
Qed.

(** The top-level parser hands the strings after a command name to the
    parser of that command and takes over its result. *)
Lemma parse_args_subcommand ap name sub rest r :
  top ap = new_parser ->
  name_parser_map (group ap) !! name = Some sub ->
  plain_value name = true ->
  classify new_parser rest = Ok r ->
  parse_args ap (name :: rest)
  = obind (parse_known_args sub None rest
             (<[sp_dest (group ap) := Some name]> (<[sp_dest (group ap) := None]> ∅)))
          (fun x => match x.2 with
                    | [] => Ok x.1
                    | _ :: _ => usage_error
                    end).
Proof.
  intros Htop Hsub Hname Hc.
  unfold parse_args, parse_known_args at 1. rewrite Htop.
  cbn [classify].
  rewrite (plain_value_not_separator name Hname), (parse_optional_plain _ name Hname).
  cbn [obind]. rewrite Hc. cbn [obind scan starts_positional map fst].
  rewrite (classify_strings _ _ _ Hc).
  unfold subparsers_call at 1. rewrite Hsub.
  destruct (parse_known_args sub None rest _) as [[ns ex]|e]; [|reflexivity].
  cbn. reflexivity.
Qed.

Lemma registry_commands_lookup :
  registry_commands !! "citation" = Some citation_fn
  /\ registry_commands !! "cmeta" = Some cmeta_fn
  /\ registry_commands !! "codegen" = Some codegen_fn
  /\ registry_commands !! "docgen" = Some docgen_fn
  /\ registry_commands !! "maths" = Some maths_fn.
Proof.
  unfold registry_commands.
  repeat split; repeat (rewrite lookup_insert_ne by discriminate);
    apply lookup_insert_eq.
Qed.

(** What [main] does once [parse_args] has returned the namespace. *)
Lemma main_after_parse argv kwargs name fn vals fs :
  parse_args registry_parser argv = Ok kwargs ->
  kwargs !! "cmd" = Some (Some name) ->
  registry_commands !! name = Some fn ->
  bind_kwargs fn (delete "cmd" kwargs) = Ok vals ->
  main argv fs = fn_body fn vals fs.
Proof.
  intros Hp Hcmd Hfn Hb. unfold main.
  unfold bind at 1, lift at 1. rewrite generate_cmd_parser_registry.
  unfold bind at 1, lift at 1. rewrite Hp.
  unfold bind at 1, lift at 1. rewrite Hcmd.
  unfold bind at 1, lift at 1, dict_getitem. rewrite Hfn.
  unfold call_kwargs, bind, lift. now rewrite Hb.
Qed.

Ltac solve_item_facts Hin :=
  repeat (apply elem_of_cons in Hin as [[= -> -> ->]|Hin];
          [repeat split; try assumption; vm_compute; reflexivity|]);
  now apply elem_of_nil in Hin.

(** Runs [main] on the command [name] followed by [items]: parses, then
    looks the handler up and binds its parameters. *)
Ltac main_runs name parser fn items kwargs vals :=
  let Hparse := fresh "Hparse" in
  let tops := constr:(map (fun x : string * action * string =>
                             (x.1.1, (@None action, x.1.1, @None string), x.2)) items) in
  assert (Hparse : parse_args registry_parser (name :: flag_values items) = Ok kwargs);
  [ rewrite (parse_args_subcommand registry_parser name parser (flag_values items)
               (flat_map (fun x : string * option_tuple * string =>
                            [(x.1.1, ClsO x.1.2); (x.2, ClsA)]) tops));
    [ rewrite parse_known_args_flag_values;
      [ vm_compute; reflexivity
      | let Hin := fresh "Hin" in intros ? ? ? Hin; solve_item_facts Hin ]
    | reflexivity | reflexivity | reflexivity
    | apply (classify_flags_and_values new_parser tops);
      let Hin := fresh "Hin" in intros ? ? ? Hin; cbn [map fst snd] in Hin;
      solve_item_facts Hin ]
  | apply (main_after_parse _ _ name fn vals _ Hparse);
    [ vm_compute; reflexivity
    | apply registry_commands_lookup
    | vm_compute; reflexivity ] ].

Lemma main_docgen_call d i o fs :
  plain_value d = true -> plain_value i = true -> plain_value o = true ->
  main ["docgen"; "--doctype"; d; "--input-path"; i; "--output-dir"; o] fs
  = docgen (Some d) (Some i) (Some o) fs.
Proof.
  intros Hd Hi Ho.
  pose (fi := ("--input-path", required_store "--input-path" "input_path", i)).
  pose (fo := ("--output-dir", required_store "--output-dir" "output_dir", o)).
  pose (fd := ("--doctype", required_store "--doctype" "doctype", d)).
  main_runs "docgen" docgen_parser docgen_fn [fd; fi; fo]
    (<["output_dir" := Some o]> (<["input_path" := Some i]>
       (<["doctype" := Some d]> (<["cmd" := Some "docgen"]> (∅ : namespace)))))
    [Some d; Some i; Some o].
Qed.

(** *** Any command line of flags and plain values *)

Lemma flag_values_items f given : flag_values (items_of f given) = flags_for given.
Proof.
  unfold flag_values, flags_for, items_of.
  induction given as [|x given IH]; [reflexivity|].
  cbn [map flat_map fst snd]. now rewrite IH.
Qed.

Lemma items_of_elem f given fl a v :
  (fl, a, v) ∈ items_of f given ->
  exists arg, (arg, v) ∈ given /\ fl = flag_of arg
              /\ a = store_action (defaults_of f) arg.
Proof.
  unfold items_of. intros Hin.
  apply list_elem_of_In, in_map_iff in Hin as ([arg v'] & [= <- <- <-] & Hin).
  exists arg. split; [now apply list_elem_of_In|]. now split.
Qed.

Lemma given_value_Some given arg v :
  given_value given arg = Some v -> (arg, v) ∈ given.
Proof.
  induction given as [|[a0 v0] given IH]; [discriminate|]. cbn [given_value fst snd].
  destruct (given_value given arg) as [w|].
  - intros [= ->]. apply list_elem_of_further. now apply IH.
  - destruct (String.eqb_spec a0 arg) as [->|]; [|discriminate].
    intros [= ->]. apply list_elem_of_here.
Qed.

Lemma given_value_None given arg :
  arg ∉ given.*1 -> given_value given arg = None.
Proof.
  intros Hn. destruct (given_value given arg) as [v|] eqn:E; [|reflexivity].
  exfalso. apply Hn. apply given_value_Some in E.
  change arg with (arg, v).1. now apply list_elem_of_fmap_2.
Qed.

(** With one flag per parameter, the value given is the value of that
    flag, wherever it stands. *)
Lemma given_value_NoDup given arg v :
  NoDup given.*1 -> (given_value given arg = Some v <-> (arg, v) ∈ given).
Proof.
  intros Hnd. split; [apply given_value_Some|].
  induction given as [|[a0 v0] given IH]; intros Hin; [now apply elem_of_nil in Hin|].
  cbn [fmap list_fmap fst] in Hnd. apply NoDup_cons in Hnd as [Ha0 Hnd].
  cbn [given_value fst snd].
  apply elem_of_cons in Hin as [[= -> ->]|Hin].
  - rewrite (given_value_None given a0 Ha0). now rewrite String.eqb_refl.
  - now rewrite (IH Hnd Hin).
Qed.

Lemma given_value_Permutation given given' arg :
  NoDup given.*1 -> given ≡ₚ given' ->
  given_value given arg = given_value given' arg.
Proof.
  intros Hnd Hperm.
  assert (Hnd' : NoDup given'.*1) by now rewrite <- Hperm.
  destruct (given_value given arg) as [v|] eqn:E.
  - symmetry. apply (given_value_NoDup _ _ _ Hnd').
    rewrite <- Hperm. now apply given_value_Some.
  - destruct (given_value given' arg) as [v|] eqn:E'; [|reflexivity].
    apply given_value_Some in E'. rewrite <- Hperm in E'.
    apply (given_value_NoDup _ _ _ Hnd) in E'. congruence.
Qed.

(** The namespace after the flags have been stored. *)
Lemma store_all_ns f given :
  (forall arg v, (arg, v) ∈ given ->
     dest (store_action (defaults_of f) arg) = Some arg) ->
  forall st k,
    st_ns (store_all (items_of f given) st) !! k
    = match given_value given k with
      | Some v => Some (Some v)
      | None => st_ns st !! k
      end.
Proof.
  induction given as [|[arg v] given IH]; intros Hd st k; [reflexivity|].
  change (store_all (items_of f ((arg, v) :: given)) st)
    with (store_all (items_of f given)
            (take_store (store_action (defaults_of f) arg) v st)).
  rewrite IH by (intros arg' v' H'; apply (Hd arg' v'); now apply list_elem_of_further).
  cbn [given_value fst snd].
  destruct (given_value given k); [reflexivity|].
  unfold take_store. cbn [st_ns].
  rewrite (Hd arg v (list_elem_of_here _ _)).
  destruct (String.eqb_spec arg k) as [->|Hne].
  - apply lookup_insert_eq.
  - now apply lookup_insert_ne.
Qed.

(** Every action whose flag is given is marked as seen. *)
Lemma store_all_seen items : forall st a,
  (a ∈ st_seen st \/ exists fl v, (fl, a, v) ∈ items) ->
  a ∈ st_seen (store_all items st).
Proof.
  induction items as [|[[fl0 a0] v0] items IH]; intros st a H.
  - destruct H as [H|(fl & v & H)]; [exact H|now apply elem_of_nil in H].
  - change (store_all ((fl0, a0, v0) :: items) st)
      with (store_all items (take_store a0 v0 st)).
    apply IH. destruct H as [H|(fl & v & H)].
    + left. cbn [take_store st_seen]. now apply list_elem_of_further.
    + apply elem_of_cons in H as [[= -> -> ->]|H].
      * left. cbn [take_store st_seen]. apply list_elem_of_here.
      * right. now exists fl, v.
Qed.

Lemma install_defaults_cons a acts ns :
  install_defaults (a :: acts) ns
  = install_defaults acts
      match dest a with
      | Some d => match ns !! d with
                  | Some _ => ns
                  | None => <[d := action_default a]> ns
                  end
      | None => ns
      end.
Proof. reflexivity. Qed.

(** What the namespace holds already is not replaced by a default. *)
Lemma install_defaults_keep acts : forall (ns : namespace) k v,
  ns !! k = Some v -> install_defaults acts ns !! k = Some v.
Proof.
  induction acts as [|a acts IH]; intros ns k v H; [exact H|].
  rewrite install_defaults_cons. apply IH.
  destruct (dest a) as [d|]; [|exact H].
  destruct (ns !! d) eqn:E; [exact H|].
  rewrite lookup_insert_ne; [exact H|congruence].
Qed.

(** The names the defaults add are destinations of the parser's actions. *)
Lemma install_defaults_dom acts : forall (ns : namespace) k v,
  install_defaults acts ns !! k = Some v ->
  is_Some (ns !! k) \/ exists a, a ∈ acts /\ dest a = Some k.
Proof.
  induction acts as [|a acts IH]; intros ns k v H; [left; eauto|].
  rewrite install_defaults_cons in H.
  destruct (IH _ _ _ H) as [Hs|(a' & Ha' & Hd)].
  - destruct (dest a) as [d|] eqn:Ed; [|now left].
    destruct (ns !! d); [now left|].
    apply lookup_insert_is_Some in Hs as [<-|[_ Hs]]; [|now left].
    right. exists a. split; [apply list_elem_of_here|exact Ed].
  - right. exists a'. split; [now apply list_elem_of_further|exact Hd].
Qed.

(** The top-level parser and the parser of the command together, on a
    command line of store flags with plain values. *)
Lemma parse_args_flag_values ap name sub (items : list (string * action * string)) :
  top ap = new_parser ->
  name_parser_map (group ap) !! name = Some sub ->
  plain_value name = true ->
  (forall fl a v, (fl, a, v) ∈ items ->
     String.eqb fl "--" = false
     /\ parse_optional sub fl = Ok (Some (Some a, fl, None))
     /\ parse_optional new_parser fl = Ok (Some (None, fl, None))
     /\ kind a = StoreAction
     /\ plain_value v = true) ->
  parse_args ap (name :: flag_values items) =
  let st := store_all items
              {| st_ns := install_defaults (actions sub)
                            (<[sp_dest (group ap) := Some name]>
                               (<[sp_dest (group ap) := None]> ∅));
                 st_seen := []; st_extras := [] |} in
  if check_required (actions sub) (st_seen st) then Ok (st_ns st) else usage_error.
Proof.
  intros Htop Hsub Hname H.
  rewrite (parse_args_subcommand ap name sub (flag_values items)
             (flat_map (fun x : string * option_tuple * string =>
                          [(x.1.1, ClsO x.1.2); (x.2, ClsA)])
                (map (fun x : string * action * string =>
                        (x.1.1, (@None action, x.1.1, @None string), x.2)) items)))
    by first
      [ assumption
      | pose proof (classify_flags_and_values new_parser
                      (map (fun x : string * action * string =>
                              (x.1.1, (@None action, x.1.1, @None string), x.2)) items))
          as Hc;
        unfold flag_values; rewrite !flat_map_concat_map, !map_map in Hc;
        rewrite !flat_map_concat_map, !map_map; apply Hc;
        intros fl t v Hin;
        apply list_elem_of_In, in_map_iff in Hin as ([[fl0 a0] v0] & [= <- <- <-] & Hin);
        apply list_elem_of_In in Hin;
        destruct (H fl0 a0 v0 Hin) as (H1 & _ & H3 & _ & H5); auto ].
  rewrite parse_known_args_flag_values
    by (intros fl a v Hin; destruct (H fl a v Hin) as (H1 & H2 & _ & H4 & H5); auto).
  cbv zeta. now destruct (check_required _ _).
Qed.

(** A call with keyword arguments that give every parameter, and nothing
    else, binds each parameter to its keyword's value. *)
Lemma bind_kwargs_all f kwargs (val : string -> argval) :
  (forall k v, kwargs !! k = Some v -> k ∈ fn_args f) ->
  (forall arg, arg ∈ fn_args f -> kwargs !! arg = Some (val arg)) ->
  bind_kwargs f kwargs = Ok (map val (fn_args f)).
Proof.
  intros Hdom Hval. unfold bind_kwargs.
  replace (forallb _ _) with true.
  2:{ symmetry. apply forallb_forall. intros k Hk.
      apply in_map_iff in Hk as ([k' v] & <- & Hk).
      apply list_elem_of_In, elem_of_map_to_list in Hk.
      apply bool_decide_eq_true. now apply (Hdom k' v). }
  rewrite (map_outcome_total _ (fun ia : nat * string => val ia.2)).
  - f_equal. generalize (fn_args f). clear.
    assert (Hg : forall (l : list string) (g : nat -> string -> nat * string),
              (forall i a, (g i a).2 = a) ->
              map (fun ia : nat * string => val ia.2) (imap g l) = map val l).
    { induction l as [|a l IH]; intros g Hg; [reflexivity|].
      cbn [imap map]. rewrite Hg. f_equal. apply IH. intros i b. apply Hg. }
    intros l. now apply Hg.
  - intros [i a] Hin. apply elem_of_lookup_imap in Hin as (i' & a' & [= -> ->] & Hl).
    cbn [fst snd]. rewrite (Hval a'); [reflexivity|].
    now apply list_elem_of_lookup_2 with i'.
Qed.

(** What the builder has made of each parameter of a registered handler. *)
Lemma registry_flag_facts f help p arg :
  (f, help) ∈ cmd_fns -> command_parser f = Ok p -> arg ∈ fn_args f ->
  String.eqb (flag_of arg) "--" = false
  /\ parse_optional p (flag_of arg)
     = Ok (Some (Some (store_action (defaults_of f) arg), flag_of arg, None))
  /\ parse_optional new_parser (flag_of arg) = Ok (Some (None, flag_of arg, None))
  /\ dest (store_action (defaults_of f) arg) = Some arg
  /\ install_defaults (actions p)
       (<["cmd" := Some (fn_name f)]> (<["cmd" := None]> ∅)) !! arg
     = Some (default None (defaults_of f !! arg))
  /\ arg <> "cmd".
Proof.
  unfold cmd_fns. intros Hin Hp Harg.
  repeat (apply elem_of_cons in Hin as [Hin|Hin];
          [injection Hin as -> ->|]); [..|now apply elem_of_nil in Hin].
  - rewrite command_parser_citation in Hp. injection Hp as <-.
    cbn [fn_args citation_fn] in Harg.
    repeat (apply elem_of_cons in Harg as [->|Harg];
            [repeat split; try discriminate; vm_compute; reflexivity|]).
    now apply elem_of_nil in Harg.
  - rewrite command_parser_cmeta in Hp. injection Hp as <-.
    cbn [fn_args cmeta_fn] in Harg.
    repeat (apply elem_of_cons in Harg as [->|Harg];
            [repeat split; try discriminate; vm_compute; reflexivity|]).
    now apply elem_of_nil in Harg.
  - rewrite command_parser_codegen in Hp. injection Hp as <-.
    cbn [fn_args codegen_fn] in Harg.
    repeat (apply elem_of_cons in Harg as [->|Harg];
            [repeat split; try discriminate; vm_compute; reflexivity|]).
    now apply elem_of_nil in Harg.
  - rewrite command_parser_docgen in Hp. injection Hp as <-.
    cbn [fn_args docgen_fn] in Harg.
    repeat (apply elem_of_cons in Harg as [->|Harg];
            [repeat split; try discriminate; vm_compute; reflexivity|]).
    now apply elem_of_nil in Harg.
  - rewrite command_parser_maths in Hp. injection Hp as <-.
    cbn [fn_args maths_fn] in Harg.
    repeat (apply elem_of_cons in Harg as [->|Harg];
            [repeat split; try discriminate; vm_compute; reflexivity|]).
    now apply elem_of_nil in Harg.
Qed.

Lemma registry_dispatch f help :
  (f, help) ∈ cmd_fns ->
  plain_value (fn_name f) = true /\ registry_commands !! fn_name f = Some f.
Proof.
  unfold cmd_fns. intros Hin.
  repeat (apply elem_of_cons in Hin as [Hin|Hin];
          [injection Hin as -> ->|]); [..|now apply elem_of_nil in Hin];
    (split; [reflexivity|apply registry_commands_lookup]).
Qed.

(** A command line that names a registered command and gives parameters of
    its handler plain values, every parameter without a default among
    them, runs the handler: each parameter is bound to the value of the
    last flag for it, or to its flag's default. *)
Lemma main_runs_given f help given fs :
  (f, help) ∈ cmd_fns ->
  (forall arg v, (arg, v) ∈ given -> arg ∈ fn_args f /\ plain_value v = true) ->
  (forall arg, arg ∈ without_default f -> arg ∈ given.*1) ->
  main (fn_name f :: flags_for given) fs
  = fn_body f (map (bound_value f given) (fn_args f)) fs.
Proof.
  intros Hin Hgiven Hreq.
  destruct (registry_signature f help Hin) as (Hnd & _ & _ & _ & p & Hp).
  destruct (registry_command f help p Hin Hp) as (Hsub & _ & _).
  destruct (registry_dispatch f help Hin) as (Hname & Hfn).
  pose proof (fun arg => registry_flag_facts f help p arg Hin Hp) as Hfacts.
  assert (Hdest : forall arg v, (arg, v) ∈ given ->
            dest (store_action (defaults_of f) arg) = Some arg).
  { intros arg v Hav. now apply Hfacts, (Hgiven arg v). }
  assert (Hacts : actions p = help_action :: map (store_action (defaults_of f)) (fn_args f))
    by apply (add_arguments_actions _ _ _ _ Hp).
  set (st0 := {| st_ns := install_defaults (actions p)
                            (<["cmd" := Some (fn_name f)]> (<["cmd" := None]> ∅));
                 st_seen := []; st_extras := [] |}).
  assert (Hparse : parse_args registry_parser (fn_name f :: flags_for given)
                   = Ok (st_ns (store_all (items_of f given) st0))).
  { rewrite <- (flag_values_items f).
    rewrite (parse_args_flag_values registry_parser (fn_name f) p);
      [|reflexivity|exact Hsub|exact Hname|].
    - cbv zeta. fold st0. replace (check_required _ _) with true; [reflexivity|].
      symmetry. unfold check_required. rewrite Hacts. apply forallb_forall.
      intros a [<-|Ha]%in_inv; [reflexivity|].
      apply in_map_iff in Ha as (arg & <- & Harg). apply list_elem_of_In in Harg.
      destruct (required (store_action (defaults_of f) arg)) eqn:Er; [|reflexivity].
      cbn [negb orb]. apply bool_decide_eq_true, store_all_seen. right.
      apply list_elem_of_lookup in Harg as [i Hi].
      rewrite (store_action_required f i arg Hnd Hi) in Er. apply Nat.ltb_lt in Er.
      assert (Hwd : arg ∈ without_default f).
      { unfold without_default. apply list_elem_of_lookup. exists i.
        now rewrite lookup_take_lt. }
      apply Hreq, list_elem_of_fmap in Hwd as ([arg' v] & -> & Hav).
      exists (flag_of arg'), v. unfold items_of.
      apply list_elem_of_In, in_map_iff. exists (arg', v).
      split; [reflexivity|now apply list_elem_of_In].
    - intros fl a v Hitem.
      apply items_of_elem in Hitem as (arg & Hav & -> & ->).
      destruct (Hgiven arg v Hav) as [Harg Hv].
      destruct (Hfacts arg Harg) as (F1 & F2 & F3 & _).
      repeat split; assumption. }
  apply (main_after_parse _ _ (fn_name f) f _ _ Hparse); [|exact Hfn|].
  - rewrite (store_all_ns f given Hdest).
    rewrite given_value_None.
    + apply install_defaults_keep, lookup_insert_eq.
    + intros ([arg v] & Hc & Hav)%list_elem_of_fmap. cbn [fst] in Hc. subst arg.
      destruct (Hgiven _ v Hav) as [Harg _].
      now destruct (Hfacts _ Harg) as (_ & _ & _ & _ & _ & Hcmd).
  - apply bind_kwargs_all.
    + intros k v [Hk Hl]%lookup_delete_Some.
      rewrite (store_all_ns f given Hdest) in Hl.
      destruct (given_value given k) as [w|] eqn:Eg.
      * now apply (Hgiven k w), given_value_Some.
      * cbn [st0 st_ns] in Hl.
        apply install_defaults_dom in Hl as [Hs|(a & Ha & Hd)].
        -- exfalso. apply lookup_insert_is_Some in Hs as [Hs|[_ Hs]]; [congruence|].
           apply lookup_insert_is_Some in Hs as [Hs|[_ Hs]]; [congruence|].
           rewrite lookup_empty in Hs. now destruct Hs.
        -- rewrite Hacts in Ha. apply elem_of_cons in Ha as [->|Ha]; [discriminate|].
           apply list_elem_of_In, in_map_iff in Ha as (arg & <- & Harg).
           apply list_elem_of_In in Harg.
           destruct (Hfacts arg Harg) as (_ & _ & _ & F4 & _).
           rewrite F4 in Hd. now injection Hd as <-.
    + intros arg Harg.
      destruct (Hfacts arg Harg) as (_ & _ & _ & _ & F5 & F6).
      rewrite lookup_delete_ne by congruence.
      rewrite (store_all_ns f given Hdest). unfold bound_value.
      destruct (given_value given arg); [reflexivity|exact F5].
Qed.

(** X1. A command line that names a registered command and gives
    parameters of its handler values that do not start with a hyphen,
    every parameter without a default among them, runs the handler of that
    command with each parameter bound, by name, to the value given for it
    (the last one, when its flag is repeated) or else to its default.
    When no flag is repeated, the order of the flags does not matter. *)
Theorem main_runs_the_handler f help given fs :
  (f, help) ∈ cmd_fns ->
  (forall arg v, (arg, v) ∈ given -> arg ∈ fn_args f /\ plain_value v = true) ->
  (forall arg, arg ∈ without_default f -> arg ∈ given.*1) ->
  main (fn_name f :: flags_for given) fs
  = fn_body f (map (bound_value f given) (fn_args f)) fs
  /\ forall given',
       NoDup given.*1 -> given ≡ₚ given' ->
       main (fn_name f :: flags_for given') fs
       = main (fn_name f :: flags_for given) fs.
Proof.
  intros Hin Hgiven Hreq. split; [now apply (main_runs_given f help)|].
  intros given' Hnd Hperm.
  rewrite (main_runs_given f help given fs Hin Hgiven Hreq).
  rewrite (main_runs_given f help given' fs Hin).
  - f_equal. apply map_ext. intros arg. unfold bound_value.
    now rewrite (given_value_Permutation given given' arg Hnd Hperm).
  - intros arg v Hav. apply (Hgiven arg v). now rewrite Hperm.
  - intros arg Harg. rewrite <- Hperm. now apply Hreq.
Qed.

(** X2. [citation] is called with [file_format = None] when the optional
    flag [--file-format] is left out, and with the given format when it is
    there. *)
Theorem main_citation_file_format i o u ff fs :
  plain_value i = true -> plain_value o = true ->
  plain_value u = true -> plain_value ff = true ->
  main ["citation"; "--input-path"; i; "--output-dir"; o; "--license-uri"; u] fs
  = citation (Some i) (Some o) (Some u) None fs
  /\ main ["citation"; "--input-path"; i; "--output-dir"; o; "--license-uri"; u;
           "--file-format"; ff] fs
     = citation (Some i) (Some o) (Some u) (Some ff) fs.
Proof.
  intros Hi Ho Hu Hff.
  pose (fi := ("--input-path", required_store "--input-path" "input_path", i)).
  pose (fo := ("--output-dir", required_store "--output-dir" "output_dir", o)).
  pose (fu := ("--license-uri", required_store "--license-uri" "license_uri", u)).
  pose (ft := ("--file-format", optional_store "--file-format" "file_format" None, ff)).
  split.
  - main_runs "citation" citation_parser citation_fn [fi; fo; fu]
      (<["file_format" := None]> (<["license_uri" := Some u]>
         (<["output_dir" := Some o]> (<["input_path" := Some i]>
            (<["cmd" := Some "citation"]> (∅ : namespace))))))
      [Some i; Some o; Some u; None].
  - main_runs "citation" citation_parser citation_fn [fi; fo; fu; ft]
      (<["file_format" := Some ff]> (<["license_uri" := Some u]>
         (<["output_dir" := Some o]> (<["input_path" := Some i]>
            (<["cmd" := Some "citation"]> (∅ : namespace))))))
      [Some i; Some o; Some u; Some ff].
Qed.

(** X3. A doctype that is not registered is not a usage error: the command
    line passes the parser, and the run fails in the handler, with a
    [KeyError] and without touching a file. *)
Theorem main_unknown_doctype_fails_in_handler d i o fs :
  plain_value d = true -> plain_value i = true -> plain_value o = true ->
  d <> "htmldoc" -> d <> "tmpdoc" ->
  parse_args registry_parser
    ["docgen"; "--doctype"; d; "--input-path"; i; "--output-dir"; o]
  = Ok (<["output_dir" := Some o]> (<["input_path" := Some i]>
          (<["doctype" := Some d]> (<["cmd" := Some "docgen"]> ∅))))
  /\ main ["docgen"; "--doctype"; d; "--input-path"; i; "--output-dir"; o] fs
     = (Raise KeyError, fs).
Proof.
  intros Hd Hi Ho H1 H2. split.
  - pose (fi := ("--input-path", required_store "--input-path" "input_path", i)).
    pose (fo := ("--output-dir", required_store "--output-dir" "output_dir", o)).
    pose (fd := ("--doctype", required_store "--doctype" "doctype", d)).
    change (parse_args registry_parser ("docgen" :: flag_values [fd; fi; fo]) = Ok
              (<["output_dir" := Some o]> (<["input_path" := Some i]>
                 (<["doctype" := Some d]> (<["cmd" := Some "docgen"]> ∅))))).
    rewrite (parse_args_subcommand registry_parser "docgen" docgen_parser
               (flag_values [fd; fi; fo])
               (flat_map (fun x : string * option_tuple * string =>
                            [(x.1.1, ClsO x.1.2); (x.2, ClsA)])
                  (map (fun x : string * action * string =>
                          (x.1.1, (@None action, x.1.1, @None string), x.2))
                     [fd; fi; fo])));
      [|reflexivity|reflexivity|reflexivity|].
    + rewrite parse_known_args_flag_values; [vm_compute; reflexivity|].
      intros ? ? ? Hin. solve_item_facts Hin.
    + apply (classify_flags_and_values new_parser
               (map (fun x : string * action * string =>
                       (x.1.1, (@None action, x.1.1, @None string), x.2))
                  [fd; fi; fo])).
      intros ? ? ? Hin. cbn [map fst snd] in Hin. solve_item_facts Hin.
  - rewrite main_docgen_call by assumption.
    unfold docgen, bind, lift, dict_getitem. rewrite docs_lookup_spec.
    destruct (String.eqb_spec d "tmpdoc"); [congruence|].
    destruct (String.eqb_spec d "htmldoc"); [congruence|reflexivity].
Qed.

Lemma parse_args_unknown_command ap name rest :
  top ap = new_parser ->
  plain_value name = true ->
  name_parser_map (group ap) !! name = None ->
  parse_args ap (name :: rest) = usage_error.
Proof.
  intros Htop Hname Hnone.
  unfold parse_args, parse_known_args at 1. rewrite Htop.
  cbn [classify].
  rewrite (plain_value_not_separator name Hname), (parse_optional_plain _ name Hname).
  cbn [obind].
  destruct (classify new_parser rest) as [r|e] eqn:Ec.
  - cbn [obind scan starts_positional map fst].
    unfold subparsers_call at 1. now rewrite Hnone.
  - cbn [obind]. now rewrite (classify_raise _ _ _ Ec).
Qed.

(** X4. A command line without a command, or whose first string is not
    the name of a registered command, is a usage error: no handler runs
    and no file is touched. *)
Theorem main_rejects_unknown_command name rest fs :
  plain_value name = true ->
  name ∉ map (fun fh : pyfunc * string => fn_name fh.1) cmd_fns ->
  main [] fs = (Raise (SystemExit 2), fs)
  /\ main (name :: rest) fs = (Raise (SystemExit 2), fs).
Proof.
  intros Hname Hnot.
  assert (Hnone : name_parser_map (group registry_parser) !! name = None).
  { cbn [group registry_parser name_parser_map].
    cbn [map cmd_fns fst fn_name citation_fn cmeta_fn codegen_fn docgen_fn maths_fn]
      in Hnot.
    repeat (rewrite lookup_insert_ne;
            [|intros <-; apply Hnot;
              repeat first [apply list_elem_of_here | apply list_elem_of_further]]).
    apply lookup_empty. }
  split.
  - unfold main, bind, lift. rewrite generate_cmd_parser_registry. reflexivity.
  - unfold main. unfold bind at 1, lift at 1. rewrite generate_cmd_parser_registry.
    unfold bind at 1, lift at 1.
    now rewrite (parse_args_unknown_command registry_parser name rest eq_refl Hname Hnone).
Qed.

(** *** Flags that clash with the help flag *)

Lemma lookup_option_app acts a o :
  lookup_option {| actions := acts |} o = Some a ->
  forall more, lookup_option {| actions := acts ++ more |} o = Some a.
Proof.
  unfold lookup_option, option_string_actions. cbn [actions].
  intros H more. rewrite flat_map_app.
  destruct (find _ (flat_map _ acts)) as [x|] eqn:E; [|discriminate].
  cbn in H. injection H as <-.
  assert (Hf : forall (l l' : list (string * action)) g y,
            find g l = Some y -> find g (l ++ l') = Some y).
  { induction l as [|z l IH]; intros l' g y Hl; [discriminate|].
    cbn [app find] in *. destruct (g z); [exact Hl|now apply IH]. }
  now rewrite (Hf _ _ _ _ E).
Qed.

(** A parameter named [help] makes [add_arguments] fail, whatever comes
    before it. *)
Lemma add_arguments_help_fails defaults args : forall p a,
  lookup_option p "--help" = Some a ->
  "help" ∈ args ->
  exists e, add_arguments p defaults args = Raise e.
Proof.
  induction args as [|arg args IH]; intros p a Hp Hin;
    [now apply elem_of_nil in Hin|].
  cbn [add_arguments]. unfold add_argument. cbv zeta.
  destruct (String.eqb (lstrip "-" (flag_of arg)) ""); [cbn [obind]; eauto|].
  destruct (lookup_option p (flag_of arg)) as [x|] eqn:E; [cbn [obind]; eauto|].
  cbn [obind]. apply elem_of_cons in Hin as [<-|Hin].
  - change (flag_of "help") with "--help" in E. congruence.
  - apply (IH _ a); [|exact Hin].
    destruct p as [acts]. cbn [actions]. now apply lookup_option_app.
Qed.

(** [add_arguments] fails in two ways only: a flag that is there already,
    or a parameter whose flag has no destination. *)
Lemma add_arguments_raise defaults args : forall p e,
  add_arguments p defaults args = Raise e ->
  e = ArgumentError
  \/ (e = ValueError /\ exists arg, arg ∈ args /\ names_a_destination arg = false).
Proof.
  induction args as [|arg args IH]; intros p e H; [discriminate|].
  cbn [add_arguments] in H. unfold add_argument in H. cbv zeta in H.
  destruct (String.eqb (lstrip "-" (flag_of arg)) "") eqn:E.
  - cbn [obind] in H. injection H as <-. right. split; [reflexivity|].
    exists arg. split; [apply list_elem_of_here|].
    unfold names_a_destination. now rewrite E.
  - destruct (lookup_option p (flag_of arg)); cbn [obind] in H.
    + injection H as <-. now left.
    + apply IH in H as [H|[H (arg' & Hin & Hn)]]; [now left|].
      right. split; [exact H|]. exists arg'.
      split; [now apply list_elem_of_further|exact Hn].
Qed.

Lemma add_commands_raise fns : forall commands grp e,
  add_commands fns commands grp = Raise e ->
  e = ArgumentError
  \/ (e = ValueError
      /\ exists g hg arg, (g, hg) ∈ fns /\ arg ∈ fn_args g
                          /\ names_a_destination arg = false).
Proof.
  induction fns as [|[g hg] fns IH]; intros commands grp e H; [discriminate|].
  cbn [add_commands] in H.
  destruct (add_arguments new_parser (defaults_of g) (fn_args g)) as [p|e1] eqn:Ep.
  - cbn [obind] in H. apply IH in H as [H|[H (g' & hg' & arg & Hin & Harg & Hn)]];
      [now left|].
    right. split; [exact H|]. exists g', hg', arg.
    split; [now apply list_elem_of_further|now split].
  - cbn [obind] in H. injection H as <-.
    apply add_arguments_raise in Ep as [Ep|[Ep (arg & Harg & Hn)]]; [now left|].
    right. split; [exact Ep|]. exists g, hg, arg.
    split; [apply list_elem_of_here|now split].
Qed.

(** X19. A handler with a parameter named [help] cannot be registered: its
    flag would be [--help], which every parser already has, so building
    the parser fails, for the whole registry.  The failure is argparse's
    conflict error or its [ValueError] for a flag without a destination;
    it is the conflict error when no parameter of the registry is made of
    underscores only. *)
Theorem generate_cmd_parser_rejects_help_parameter fns f h :
  (f, h) ∈ fns ->
  "help" ∈ fn_args f ->
  (exists e, generate_cmd_parser fns = Raise e
             /\ (e = ArgumentError \/ e = ValueError))
  /\ ((forall g hg arg, (g, hg) ∈ fns -> arg ∈ fn_args g ->
         names_a_destination arg = true) ->
      command_parser f = Raise ArgumentError
      /\ generate_cmd_parser fns = Raise ArgumentError).
Proof.
  intros Hin Hhelp.
  assert (Hf : exists e, command_parser f = Raise e).
  { unfold command_parser.
    apply (add_arguments_help_fails _ _ new_parser help_action);
      [reflexivity|exact Hhelp]. }
  assert (Hc : forall commands grp, exists e, add_commands fns commands grp = Raise e).
  { clear -Hin Hf. destruct Hf as [ef Hf].
    induction fns as [|[g hg] fns IH]; intros commands grp;
      [now apply elem_of_nil in Hin|].
    cbn [add_commands]. fold (command_parser g).
    apply elem_of_cons in Hin as [[= <- <-]|Hin].
    - rewrite Hf. cbn [obind]. eauto.
    - destruct (command_parser g) as [p|e]; cbn [obind]; [now apply IH|eauto]. }
  destruct (Hc ∅ {| sp_dest := "cmd"; choices_actions := []; name_parser_map := ∅ |})
    as [e He].
  pose proof (add_commands_raise _ _ _ _ He) as Hkind.
  unfold generate_cmd_parser. rewrite He. cbn [obind]. split.
  - exists e. split; [reflexivity|]. destruct Hkind as [->|[-> _]]; auto.
  - intros Hnames. split.
    + destruct Hf as [ef Hf]. rewrite Hf. f_equal.
      unfold command_parser in Hf.
      apply add_arguments_raise in Hf as [Hf|[_ (arg & Harg & Hn)]]; [exact Hf|].
      rewrite (Hnames f h arg Hin Harg) in Hn. discriminate.
    + f_equal. destruct Hkind as [Hk|[_ (g & hg & arg & Hg & Harg & Hn)]]; [exact Hk|].
      rewrite (Hnames g hg arg Hg Harg) in Hn. discriminate.
Qed.

End Handlers.

(** ** Examples in the sample environment *)

Lemma citation_writes_license_uri_example :
  citation sample_can_write sample_Cmeta_new
    (Some "bare.cellml") (Some "out") (Some "http://example.org/license") None sample_fs
  = (Ok tt, <["out/license.txt" := Text "http://example.org/license"]> sample_fs)
  /\ citation sample_can_write sample_Cmeta_new
      (Some "uncredited.cellml") (Some "out") (Some "http://example.org/license")
      (Some "cellml") sample_fs
    = (Ok tt, <["out/license.txt" :=
                 Text "http://creativecommons.org/licenses/by/3.0/"]> sample_fs).
Proof.
  split.
  - destruct (citation_writes_license_uri sample_can_write sample_Cmeta_new
                (Some "bare.cellml") (Some "out") "http://example.org/license" None
                sample_fs "out/license.txt" eq_refl eq_refl) as (_ & Hkey & _).
    apply Hkey. intros s Hs. discriminate.
  - destruct (citation_writes_license_uri sample_can_write sample_Cmeta_new
                (Some "uncredited.cellml") (Some "out") "http://example.org/license"
                (Some "cellml") sample_fs "out/license.txt" eq_refl eq_refl)
      as (_ & _ & Huri).
    apply Huri; [discriminate|vm_compute; reflexivity].
Defined.

Lemma citation_falsy_extraction_example :
  is_Some (citation_extract sample_Cmeta_new !! "cellml")
  /\ citation sample_can_write sample_Cmeta_new
      (Some "bare.cellml") (Some "out") (Some "http://example.org/license")
      (Some "cellml") sample_fs
    = (Ok tt, <["out/license.txt" := Text "http://example.org/license"]> sample_fs).
Proof.
  apply (citation_falsy_extraction_falls_back sample_can_write sample_Cmeta_new
           "bare.cellml" (Some "out") "http://example.org/license" sample_fs
           (Text "<bare/>") bare_metadata (PyStr "") "out/license.txt");
    reflexivity.
Defined.

Lemma docgen_unknown_doctype_example :
  docgen sample_can_write sample_tmpdoc2html
    (Some "pdfdoc") (Some "doc.html") (Some "out") sample_fs
  = (Raise KeyError, sample_fs).
Proof.
  apply docgen_unknown_doctype.
  intros s Hs. injection Hs as <-. vm_compute. reflexivity.
Defined.

Lemma docgen_htmldoc_example :
  exists fs',
    docgen sample_can_write sample_tmpdoc2html
      (Some "htmldoc") (Some "doc.html") (Some "out") sample_fs = (Ok tt, fs')
    /\ fs' !! "out/index.html" = fs' !! "doc.html"
    /\ ("doc.html" <> "out/index.html" ->
        fs' = <["out/index.html" := Text "<p>Noble 1962</p>"]> sample_fs).
Proof.
  apply (docgen_htmldoc_copies sample_can_write sample_tmpdoc2html
           "doc.html" (Some "out") sample_fs (Text "<p>Noble 1962</p>")
           "out/index.html"); reflexivity.
Defined.

Lemma cmeta_no_cmetaid_example :
  exists rec,
    cmeta sample_can_write sample_Cmeta_new sample_json_rejects
      (Some "bare.cellml") (Some "out") sample_fs
    = (Ok tt, <["out/cmeta.json" := JsonRecord rec]> sample_fs)
    /\ forall k, k ∈ citation_keys -> rec !! k = None.
Proof.
  destruct (cmeta_no_cmetaid_no_citation_keys sample_can_write sample_Cmeta_new
              sample_json_rejects
              "bare.cellml" (Some "out") sample_fs (Text "<bare/>") bare_metadata
              (PyList []) [] [] "out/cmeta.json")
    as (rec & Hrec & Hok & _ & Hkeys); try reflexivity.
  exists rec. split; [|exact Hkeys].
  apply Hok.
  change (match Ok rec with
          | Ok r => sample_json_rejects (JsonRecord r) = None
          | Raise _ => True
          end).
  rewrite <- Hrec. vm_compute. reflexivity.
Defined.

Lemma cmeta_citation_without_creators_example :
  exists rec,
    cmeta sample_can_write sample_Cmeta_new sample_json_rejects
      (Some "uncredited.cellml") (Some "out") sample_fs
    = (Ok tt, <["out/cmeta.json" := JsonRecord rec]> sample_fs)
    /\ rec !! "citation_id" = Some (PyStr "urn:miriam:pubmed:13939463")
    /\ rec !! "citation_bibliographicCitation" = Some (PyStr "Journal of Physiology")
    /\ rec !! "citation_title"
       = Some (PyStr "A modification of the Hodgkin-Huxley equations")
    /\ is_Some (rec !! "citation_issued")
    /\ rec !! "citation_authors" = None.
Proof.
  destruct (cmeta_citation_without_creators sample_can_write sample_Cmeta_new
              sample_json_rejects
              "uncredited.cellml" (Some "out") sample_fs (Text "<uncredited/>")
              uncredited_metadata (PyStr "noble_1962") [] uncredited_citation []
              (PyList [PyStr "cardiac"]) [PyStr "Noble 1962"]
              [{| vc_given := "Catherine"; vc_family := "Lloyd";
                  vc_orgunit := "Auckland Bioengineering Institute";
                  vc_orgname := "The University of Auckland" |}]
              "out/cmeta.json")
    as (rec & Hrec & Hok & _ & Hkeys); try reflexivity.
  exists rec. split; [|exact Hkeys].
  apply Hok.
  change (match Ok rec with
          | Ok r => sample_json_rejects (JsonRecord r) = None
          | Raise _ => True
          end).
  rewrite <- Hrec. vm_compute. reflexivity.
Defined.

Lemma cmeta_record_contents_example :
  exists rec,
    cmeta sample_can_write sample_Cmeta_new sample_json_rejects
      (Some "uncredited.cellml") (Some "out") sample_fs
    = (Ok tt, <["out/cmeta.json" := JsonRecord rec]> sample_fs)
    /\ is_Some (rec !! "citation_id")
    /\ rec !! "model_title" = Some (PyStr "Noble 1962")
    /\ rec !! "model_author" = Some (PyStr "Catherine Lloyd")
    /\ rec !! "keywords" = Some (PyList [PyStr "cardiac"]).
Proof.
  destruct (cmeta_record_contents sample_can_write sample_Cmeta_new
              sample_json_rejects
              "uncredited.cellml" (Some "out") sample_fs (Text "<uncredited/>")
              uncredited_metadata [PyStr "noble_1962"] [uncredited_citation]
              (PyList [PyStr "cardiac"]) [PyStr "Noble 1962"]
              [{| vc_given := "Catherine"; vc_family := "Lloyd";
                  vc_orgunit := "Auckland Bioengineering Institute";
                  vc_orgname := "The University of Auckland" |}]
              "out/cmeta.json")
    as (rec & Hrec & Hok & _ & _ & Hcit & Htitle & Hauthor & _ & Hkw);
    try reflexivity.
  exists rec. split; [|split; [apply Hcit; discriminate|]].
  2:{ split; [exact Htitle|]. split; [exact Hauthor|exact Hkw]. }
  apply Hok.
  change (match Ok rec with
          | Ok r => sample_json_rejects (JsonRecord r) = None
          | Raise _ => True
          end).
  rewrite <- Hrec. vm_compute. reflexivity.
Defined.

(** The keyword extraction of the bare metadata yields nothing, and the
    record has a [keywords] entry all the same: the claim that every
    sub-extraction that yields nothing leaves no entry fails for the
    keywords. *)
Lemma cmeta_keywords_entry_without_keywords :
  get_keywords bare_metadata = Ok (PyList [])
  /\ truthy (PyList []) = false
  /\ cmeta sample_can_write sample_Cmeta_new sample_json_rejects
       (Some "bare.cellml") (Some "out") sample_fs
     = (Ok tt, <["out/cmeta.json" := JsonRecord {["keywords" := PyList []]}]> sample_fs)
  /\ ({["keywords" := PyList []]} : gmap string pyval) !! "keywords" <> None.
Proof.
  split; [reflexivity|]. split; [reflexivity|]. split.
  - vm_compute. reflexivity.
  - rewrite lookup_singleton_eq. discriminate.
Qed.

Lemma required_flag_omitted_example :
  exists e,
    parse_args registry_parser ["docgen"; "--doctype"; "htmldoc"; "--output-dir"; "out"]
    = Raise e
    /\ main sample_can_write sample_Cmeta_new unit sample_loadFromURL
         sample_exportCeleds sample_extractMaths sample_mathc2p sample_tmpdoc2html
         sample_json_rejects
         ["docgen"; "--doctype"; "htmldoc"; "--output-dir"; "out"] sample_fs
       = (Raise e, sample_fs)
    /\ (e = SystemExit 2 \/ e = SystemExit 0 \/ e = IndexError)
    /\ (help_requested docgen_parser ["--doctype"; "htmldoc"; "--output-dir"; "out"] = false ->
        e = SystemExit 2)
    /\ (e = IndexError -> "-h=" ∈ ["--doctype"; "htmldoc"; "--output-dir"; "out"]).
Proof.
  apply (required_flag_omitted_stops_in_parser sample_can_write sample_Cmeta_new unit
           sample_loadFromURL sample_exportCeleds sample_extractMaths sample_mathc2p
           sample_tmpdoc2html sample_json_rejects
           (docgen_fn sample_can_write sample_tmpdoc2html) "CellML docgen"
           docgen_parser (required_store "--input-path" "input_path")
           ["--doctype"; "htmldoc"; "--output-dir"; "out"] sample_fs).
  - unfold cmd_fns. do 3 apply list_elem_of_further. apply list_elem_of_here.
  - vm_compute. reflexivity.
  - unfold docgen_parser. cbn [actions].
    do 2 apply list_elem_of_further. apply list_elem_of_here.
  - reflexivity.
  - vm_compute. reflexivity.
Defined.

(** A command line for [citation] that gives none of the required flags but
    asks for help: parsing ends the run, with exit status 0 and not with a
    usage failure. *)
Lemma help_flag_is_no_usage_failure :
  flag_omitted citation_parser (required_store "--input-path" "input_path") ["-h"] = true
  /\ parse_args registry_parser ["citation"; "-h"] = Raise (SystemExit 0)
  /\ main sample_can_write sample_Cmeta_new unit sample_loadFromURL
       sample_exportCeleds sample_extractMaths sample_mathc2p sample_tmpdoc2html
       sample_json_rejects
       ["citation"; "-h"] sample_fs
     = (Raise (SystemExit 0), sample_fs)
  /\ SystemExit 0 <> SystemExit 2.
Proof.
  split; [vm_compute; reflexivity|]. split; [vm_compute; reflexivity|].
  split; [|discriminate].
  unfold main, bind, lift. rewrite generate_cmd_parser_registry.
  assert (H : parse_args registry_parser ["citation"; "-h"] = Raise (SystemExit 0))
    by (vm_compute; reflexivity).
  now rewrite H.
Qed.

Lemma registry_required_iff_no_default_example :
  exists commands ap sub_ap a,
    generate_cmd_parser
      (cmd_fns sample_can_write sample_Cmeta_new unit sample_loadFromURL
         sample_exportCeleds sample_extractMaths sample_mathc2p sample_tmpdoc2html
         sample_json_rejects)
    = Ok (commands, ap)
    /\ name_parser_map (group ap) !! "citation" = Some sub_ap
    /\ actions sub_ap !! 4 = Some a
    /\ option_strings a = ["--file-format"]
    /\ dest a = Some "file_format"
    /\ required a = false
    /\ (required a = false -> Some None = Some (action_default a)).
Proof.
  apply (registry_required_iff_no_default sample_can_write sample_Cmeta_new unit
           sample_loadFromURL sample_exportCeleds sample_extractMaths sample_mathc2p
           sample_tmpdoc2html sample_json_rejects
           (citation_fn sample_can_write sample_Cmeta_new) "Citation" 3 "file_format").
  - unfold cmd_fns. apply list_elem_of_here.
  - reflexivity.
Defined.

Lemma registry_one_subcommand_example :
  exists commands ap sub_ap,
    generate_cmd_parser
      (cmd_fns sample_can_write sample_Cmeta_new unit sample_loadFromURL
         sample_exportCeleds sample_extractMaths sample_mathc2p sample_tmpdoc2html
         sample_json_rejects)
    = Ok (commands, ap)
    /\ commands !! "citation" = Some (citation_fn sample_can_write sample_Cmeta_new)
    /\ filter (fun c => c.1 = "citation") (choices_actions (group ap))
       = [("citation", "Citation")]
    /\ name_parser_map (group ap) !! "citation" = Some sub_ap
    /\ flat_map option_strings (actions sub_ap)
       = ["-h"; "--help"; "--input-path"; "--output-dir"; "--license-uri"; "--file-format"]
    /\ (forall n, is_Some (name_parser_map (group ap) !! n) ->
          exists f' help',
            (f', help') ∈ cmd_fns sample_can_write sample_Cmeta_new unit sample_loadFromURL
                             sample_exportCeleds sample_extractMaths sample_mathc2p
                             sample_tmpdoc2html sample_json_rejects
            /\ fn_name f' = n).
Proof.
  apply (registry_one_subcommand_per_handler sample_can_write sample_Cmeta_new unit
           sample_loadFromURL sample_exportCeleds sample_extractMaths sample_mathc2p
           sample_tmpdoc2html sample_json_rejects
           (citation_fn sample_can_write sample_Cmeta_new) "Citation").
  unfold cmd_fns. apply list_elem_of_here.
Defined.

(** A flag that is left out is pre-populated with its default in the
    namespace the handler is called with. *)
Lemma citation_file_format_prepopulated :
  match parse_args registry_parser
          ["citation"; "--input-path"; "bare.cellml"; "--output-dir"; "out";
           "--license-uri"; "http://example.org/license"] with
  | Ok kwargs =>
      kwargs !! "file_format" = Some None
      /\ kwargs !! "license_uri" = Some (Some "http://example.org/license")
      /\ kwargs !! "cmd" = Some (Some "citation")
  | Raise _ => False
  end.
Proof. vm_compute. repeat split. Qed.

(** With more than one default the builder pairs parameters and defaults
    the wrong way round: the flags stay optional, their defaults are
    swapped. *)
Lemma two_defaults_are_swapped :
  declared_default two_defaults_fn 1 = Some (Some "x")
  /\ declared_default two_defaults_fn 2 = Some (Some "y")
  /\ defaults_of two_defaults_fn !! "b" = Some (Some "y")
  /\ defaults_of two_defaults_fn !! "c" = Some (Some "x")
  /\ defaults_of two_defaults_fn !! "a" = None.
Proof. repeat split; vm_compute; reflexivity. Qed.

(** ** Further examples *)

Lemma main_runs_the_handler_example :
  main sample_can_write sample_Cmeta_new unit sample_loadFromURL sample_exportCeleds
    sample_extractMaths sample_mathc2p sample_tmpdoc2html sample_json_rejects
    ["cmeta"; "--output-dir"; "out"; "--input-path"; "bare.cellml"] sample_fs
  = cmeta sample_can_write sample_Cmeta_new sample_json_rejects
      (Some "bare.cellml") (Some "out") sample_fs
  /\ forall given',
       NoDup [("output_dir", "out"); ("input_path", "bare.cellml")].*1 ->
       [("output_dir", "out"); ("input_path", "bare.cellml")] ≡ₚ given' ->
       main sample_can_write sample_Cmeta_new unit sample_loadFromURL sample_exportCeleds
         sample_extractMaths sample_mathc2p sample_tmpdoc2html sample_json_rejects
         ("cmeta" :: flags_for given') sample_fs
       = main sample_can_write sample_Cmeta_new unit sample_loadFromURL sample_exportCeleds
           sample_extractMaths sample_mathc2p sample_tmpdoc2html sample_json_rejects
           ["cmeta"; "--output-dir"; "out"; "--input-path"; "bare.cellml"] sample_fs.
Proof.
  apply (main_runs_the_handler sample_can_write sample_Cmeta_new unit
           sample_loadFromURL sample_exportCeleds sample_extractMaths
           sample_mathc2p sample_tmpdoc2html sample_json_rejects
           (cmeta_fn sample_can_write sample_Cmeta_new sample_json_rejects)
           "CellML metadata"
           [("output_dir", "out"); ("input_path", "bare.cellml")] sample_fs).
  - unfold cmd_fns. apply list_elem_of_further, list_elem_of_here.
  - intros arg v Hin.
    repeat (apply elem_of_cons in Hin as [[= -> ->]|Hin];
            [split; [|reflexivity]; cbn [fn_args cmeta_fn];
             repeat first [apply list_elem_of_here | apply list_elem_of_further]|]).
    now apply elem_of_nil in Hin.
  - intros arg Hin. vm_compute in Hin.
    repeat (apply elem_of_cons in Hin as [->|Hin];
            [cbn; repeat first [apply list_elem_of_here | apply list_elem_of_further]|]).
    now apply elem_of_nil in Hin.
Defined.

Lemma main_citation_file_format_example :
  main sample_can_write sample_Cmeta_new unit sample_loadFromURL sample_exportCeleds
    sample_extractMaths sample_mathc2p sample_tmpdoc2html sample_json_rejects
    ["citation"; "--input-path"; "bare.cellml"; "--output-dir"; "out";
     "--license-uri"; "http://example.org/license"] sample_fs
  = citation sample_can_write sample_Cmeta_new (Some "bare.cellml") (Some "out")
      (Some "http://example.org/license") None sample_fs
  /\ main sample_can_write sample_Cmeta_new unit sample_loadFromURL sample_exportCeleds
       sample_extractMaths sample_mathc2p sample_tmpdoc2html sample_json_rejects
       ["citation"; "--input-path"; "bare.cellml"; "--output-dir"; "out";
        "--license-uri"; "http://example.org/license"; "--file-format"; "cellml"]
       sample_fs
     = citation sample_can_write sample_Cmeta_new (Some "bare.cellml") (Some "out")
         (Some "http://example.org/license") (Some "cellml") sample_fs.
Proof.
  apply (main_citation_file_format sample_can_write sample_Cmeta_new unit
           sample_loadFromURL sample_exportCeleds sample_extractMaths
           sample_mathc2p sample_tmpdoc2html sample_json_rejects
           "bare.cellml" "out" "http://example.org/license" "cellml" sample_fs);
    reflexivity.
Defined.

Lemma main_unknown_doctype_example :
  parse_args registry_parser
    ["docgen"; "--doctype"; "pdfdoc"; "--input-path"; "doc.html"; "--output-dir"; "out"]
  = Ok (<["output_dir" := Some "out"]> (<["input_path" := Some "doc.html"]>
          (<["doctype" := Some "pdfdoc"]> (<["cmd" := Some "docgen"]> ∅))))
  /\ main sample_can_write sample_Cmeta_new unit sample_loadFromURL sample_exportCeleds
       sample_extractMaths sample_mathc2p sample_tmpdoc2html sample_json_rejects
       ["docgen"; "--doctype"; "pdfdoc"; "--input-path"; "doc.html"; "--output-dir"; "out"]
       sample_fs
     = (Raise KeyError, sample_fs).
Proof.
  apply (main_unknown_doctype_fails_in_handler sample_can_write sample_Cmeta_new unit
           sample_loadFromURL sample_exportCeleds sample_extractMaths
           sample_mathc2p sample_tmpdoc2html
           sample_json_rejects "pdfdoc" "doc.html" "out" sample_fs);
    try reflexivity; discriminate.
Defined.

Lemma main_rejects_unknown_command_example :
  main sample_can_write sample_Cmeta_new unit sample_loadFromURL sample_exportCeleds
    sample_extractMaths sample_mathc2p sample_tmpdoc2html sample_json_rejects [] sample_fs
  = (Raise (SystemExit 2), sample_fs)
  /\ main sample_can_write sample_Cmeta_new unit sample_loadFromURL sample_exportCeleds
       sample_extractMaths sample_mathc2p sample_tmpdoc2html sample_json_rejects
       ["convert"; "--input-path"; "doc.html"] sample_fs
     = (Raise (SystemExit 2), sample_fs).
Proof.
  apply (main_rejects_unknown_command sample_can_write sample_Cmeta_new unit
           sample_loadFromURL sample_exportCeleds sample_extractMaths
           sample_mathc2p sample_tmpdoc2html
           sample_json_rejects "convert" ["--input-path"; "doc.html"]
           sample_fs); [reflexivity|].
  cbn. intros Hin.
  repeat (apply elem_of_cons in Hin as [Hin|Hin]; [discriminate|]).
  now apply elem_of_nil in Hin.
Defined.

Lemma handlers_change_only_their_output_example :
  (cmeta sample_can_write sample_Cmeta_new sample_json_rejects
     (Some "bare.cellml") (Some "out") sample_fs).2
    !! "doc.html" = sample_fs !! "doc.html"
  /\ (docgen sample_can_write sample_tmpdoc2html
        (Some "htmldoc") (Some "doc.html") (Some "out") sample_fs).2
       !! "bare.cellml" = sample_fs !! "bare.cellml".
Proof.
  split.
  - apply (handlers_change_only_their_output sample_can_write sample_Cmeta_new unit
             sample_loadFromURL sample_extractMaths sample_mathc2p sample_tmpdoc2html
             sample_json_rejects
             (Some "bare.cellml") (Some "out") None None None "doc.html" sample_fs).
    intros out [= <-]. discriminate.
  - apply (handlers_change_only_their_output sample_can_write sample_Cmeta_new unit
             sample_loadFromURL sample_extractMaths sample_mathc2p sample_tmpdoc2html
             sample_json_rejects
             (Some "doc.html") (Some "out") None None (Some "htmldoc") "bare.cellml"
             sample_fs).
    intros out [= <-]. discriminate.
Defined.

Lemma missing_input_example :
  cmeta sample_can_write sample_Cmeta_new
  sample_json_rejects (Some "absent.cellml") (Some "out") sample_fs
  = (Raise IOError, sample_fs)
  /\ docgen sample_can_write sample_tmpdoc2html
       (Some "htmldoc") (Some "absent.cellml") (Some "out") sample_fs
     = (Raise IOError, sample_fs)
  /\ docgen sample_can_write sample_tmpdoc2html
       (Some "tmpdoc") (Some "absent.cellml") (Some "out") sample_fs
     = (Raise IOError, sample_fs)
  /\ citation sample_can_write sample_Cmeta_new (Some "absent.cellml") (Some "out")
       (Some "http://example.org/license") (Some "cellml") sample_fs
     = (Raise IOError, sample_fs).
Proof.
  apply (missing_input_fails_before_output sample_can_write sample_Cmeta_new
           sample_tmpdoc2html sample_json_rejects "absent.cellml" (Some "out")
           (Some "http://example.org/license") sample_fs).
  reflexivity.
Defined.

Lemma maths_converts_example :
  maths sample_can_write string path_loadFromURL path_extractMaths tagging_mathc2p
  sample_json_rejects
    (Some "heart.cellml") (Some "out") sample_fs
  = (Ok tt,
     <["out/math.json" :=
         JsonValue (PyList [PyTuple [PyStr "membrane";
                                     PyList [PyStr "<mrow><ci>V</ci></mrow>";
                                             PyStr "<mrow><cn>1</cn></mrow>"]];
                            PyTuple [PyStr "sodium"; PyList []]])]> sample_fs).
Proof.
  refine (proj1 (maths_converts_each_expression sample_can_write string path_loadFromURL
                   path_extractMaths tagging_mathc2p sample_json_rejects
                   (Some "heart.cellml") (Some "out")
                   sample_fs "heart.cellml" heart_maths tagging "out/math.json"
                   eq_refl eq_refl _ eq_refl eq_refl) _).
  - intros kv e Hkv He.
    repeat (apply elem_of_cons in Hkv as [->|Hkv];
            [cbn [snd] in He;
             repeat (apply elem_of_cons in He as [->|He]; [reflexivity|]);
             now apply elem_of_nil in He|]).
    now apply elem_of_nil in Hkv.
  - vm_compute. reflexivity.
Defined.

Lemma maths_failed_conversion_example :
  exists e,
    maths sample_can_write string path_loadFromURL path_extractMaths tagging_mathc2p
    sample_json_rejects
      (Some "odd.cellml") (Some "out") sample_fs
    = (Raise e, sample_fs).
Proof.
  apply (maths_failed_conversion_writes_nothing sample_can_write string
           path_loadFromURL path_extractMaths tagging_mathc2p sample_json_rejects
           (Some "odd.cellml") (Some "out") sample_fs "odd.cellml" odd_maths
           (PyStr "membrane", ["<ci>V</ci>"; "<bad/>"]) "<bad/>" (LibraryError "XSLT"));
    try reflexivity.
  - apply list_elem_of_here.
  - apply list_elem_of_further, list_elem_of_here.
Defined.

Lemma docgen_tmpdoc_example :
  docgen sample_can_write wrapping_tmpdoc2html
    (Some "tmpdoc") (Some "doc.html") (Some "out") sample_fs
  = (Ok tt, <["out/index.html" := Text "<html><p>Noble 1962</p></html>"]> sample_fs)
  /\ docgen sample_can_write wrapping_tmpdoc2html
       (Some "tmpdoc") (Some "cmeta.json") (Some "out")
       (<["cmeta.json" := JsonRecord ∅]> sample_fs)
     = (Raise (LibraryError "tmpdoc2html"), <["cmeta.json" := JsonRecord ∅]> sample_fs).
Proof.
  split.
  - apply (docgen_tmpdoc_writes_transform sample_can_write wrapping_tmpdoc2html
             "doc.html" (Some "out") sample_fs (Text "<p>Noble 1962</p>"));
      reflexivity.
  - apply (docgen_tmpdoc_writes_transform sample_can_write wrapping_tmpdoc2html
             "cmeta.json" (Some "out") (<["cmeta.json" := JsonRecord ∅]> sample_fs)
             (JsonRecord ∅)); reflexivity.
Defined.

Lemma codegen_writes_example :
  exists fs',
    codegen sample_can_write string path_loadFromURL path_exportCeleds
      (Some "heart.cellml") (Some "out") sample_fs = (Ok tt, fs')
    /\ fs' !! "out/code.C.c" = Some (Text "double rates[1];")
    /\ fs' !! "out/code.Python.py" = Some (Text "from math import *")
    /\ fs' !! "doc.html" = sample_fs !! "doc.html".
Proof.
  destruct (codegen_writes_one_file_per_language sample_can_write string
              path_loadFromURL path_exportCeleds (Some "heart.cellml") (Some "out")
              sample_fs "heart.cellml" heart_celeds eq_refl eq_refl)
    as (fs' & Hrun & Hfiles & Hframe).
  - apply (bool_decide_unpack _). vm_compute. exact I.
  - intros k v Hin.
    repeat (apply elem_of_cons in Hin as [[= -> ->]|Hin];
            [do 2 eexists; repeat split; reflexivity|]).
    now apply elem_of_nil in Hin.
  - exists fs'. split; [exact Hrun|]. split; [|split].
    + destruct (Hfiles "C" "double rates[1];") as (out & Hout & Hl);
        [apply list_elem_of_here|].
      vm_compute in Hout. injection Hout as <-. exact Hl.
    + destruct (Hfiles "Python" "from math import *") as (out & Hout & Hl);
        [apply list_elem_of_further, list_elem_of_here|].
      vm_compute in Hout. injection Hout as <-. exact Hl.
    + apply Hframe. intros k Hk.
      repeat (apply elem_of_cons in Hk as [->|Hk]; [vm_compute; discriminate|]).
      now apply elem_of_nil in Hk.
Defined.

Lemma codegen_unknown_language_example :
  codegen sample_can_write string path_loadFromURL path_exportCeleds
    (Some "odd.cellml") (Some "out") sample_fs
  = (Raise KeyError, <["out/code.C.c" := Text "double rates[1];"]> sample_fs).
Proof.
  apply (codegen_unknown_language_keeps_earlier_files sample_can_write string
           path_loadFromURL path_exportCeleds (Some "odd.cellml") (Some "out")
           sample_fs "odd.cellml" [("C", PyStr "double rates[1];")]
           "Java" (PyStr "class Model {}") [("Python", PyStr "from math import *")]);
    reflexivity.
Defined.

Lemma cmeta_issued_example :
  exists rec,
    cmeta sample_can_write sample_Cmeta_new sample_json_rejects
      (Some "uncredited.cellml") (Some "out") sample_fs
    = (Ok tt, <["out/cmeta.json" := JsonRecord rec]> sample_fs)
    /\ rec !! "citation_issued" = Some (PyStr "1962-01").
Proof.
  destruct (cmeta_issued_is_checked sample_can_write sample_Cmeta_new
              sample_json_rejects
              "uncredited.cellml" (Some "out") sample_fs (Text "<uncredited/>")
              uncredited_metadata (PyStr "noble_1962") [] uncredited_citation []
              (PyList [PyStr "cardiac"]) [PyStr "Noble 1962"]
              [{| vc_given := "Catherine"; vc_family := "Lloyd";
                  vc_orgunit := "Auckland Bioengineering Institute";
                  vc_orgname := "The University of Auckland" |}]
              "out/cmeta.json")
    as (rec & Hrec & Hok & _ & Hissued); try reflexivity.
  exists rec. split; [|exact Hissued].
  apply Hok.
  change (match Ok rec with
          | Ok r => sample_json_rejects (JsonRecord r) = None
          | Raise _ => True
          end).
  rewrite <- Hrec. vm_compute. reflexivity.
Defined.

Lemma cmeta_authors_example :
  exists rec,
    cmeta sample_can_write credited_Cmeta_new
    sample_json_rejects (Some "hh.cellml") (Some "out") credited_fs
    = (Ok tt, <["out/cmeta.json" := JsonRecord rec]> credited_fs)
    /\ rec !! "citation_authors"
       = Some (PyList [PyTuple [PyStr "Hodgkin"; PyStr "Alan"; PyStr "Lloyd"];
                       PyTuple [PyStr "Huxley"; PyStr "Andrew"; PyStr ""]]).
Proof.
  destruct (cmeta_authors_one_triple_per_creator sample_can_write credited_Cmeta_new
              sample_json_rejects
              "hh.cellml" (Some "out") credited_fs (Text "<credited/>")
              credited_metadata (PyStr "hodgkin_1952") [] credited_citation []
              (PyList []) [] [] "out/cmeta.json")
    as (rec & Hrec & Hok & _ & Hauthors); try reflexivity.
  1: discriminate.
  exists rec. split; [|exact Hauthors].
  apply Hok.
  change (match Ok rec with
          | Ok r => sample_json_rejects (JsonRecord r) = None
          | Raise _ => True
          end).
  rewrite <- Hrec. vm_compute. reflexivity.
Defined.

Lemma generate_cmd_parser_maps_example :
  (<["f" := two_defaults_fn]> ∅ : gmap string pyfunc) !! "f" = Some two_defaults_fn
  /\ exists p, command_parser two_defaults_fn = Ok p
               /\ (<["f" := two_defaults_parser]> ∅ : gmap string ArgumentParser) !! "f"
                  = Some p.
Proof.
  refine (generate_cmd_parser_maps_each_handler [(two_defaults_fn, "two defaults")]
            (<["f" := two_defaults_fn]> ∅)
            {| top := new_parser;
               group := {| sp_dest := "cmd";
                           choices_actions := [("f", "two defaults")];
                           name_parser_map := <["f" := two_defaults_parser]> ∅ |} |}
            two_defaults_fn "two defaults" _ _ _).
  - reflexivity.
  - apply (bool_decide_unpack _). vm_compute. exact I.
  - apply list_elem_of_here.
Defined.

Lemma builder_required_example :
  exists a,
    actions two_defaults_parser !! 1 = Some a
    /\ option_strings a = ["--a"]
    /\ kind a = StoreAction
    /\ required a = true.
Proof.
  apply (builder_required_for_any_signature two_defaults_fn two_defaults_parser 0 "a").
  - reflexivity.
  - apply (bool_decide_unpack _). vm_compute. exact I.
  - reflexivity.
Defined.

Lemma builder_pairs_defaults_example :
  exists a,
    actions two_defaults_parser !! 2 = Some a
    /\ Some (action_default a) = Some (Some "y")
    /\ declared_default two_defaults_fn 1 = Some (Some "x").
Proof.
  apply (builder_pairs_defaults_in_reverse two_defaults_fn two_defaults_parser 1 "b").
  - reflexivity.
  - apply (bool_decide_unpack _). vm_compute. exact I.
  - reflexivity.
  - simpl. lia.
Defined.

Lemma flag_destination_example :
  exists a,
    actions citation_parser !! 3 = Some a
    /\ dest a = Some "license_uri"
    /\ (startswith "_" "license_uri" = false -> dest a = Some "license_uri").
Proof.
  apply (flag_destination_is_parameter_name
           (citation_fn sample_can_write sample_Cmeta_new) citation_parser 2
           "license_uri"); reflexivity.
Defined.

Lemma explain_fn_is_rejected :
  command_parser explain_fn = Raise ArgumentError
  /\ generate_cmd_parser [(two_defaults_fn, "two defaults"); (explain_fn, "Explain")]
     = Raise ArgumentError.
Proof.
  destruct (generate_cmd_parser_rejects_help_parameter
              [(two_defaults_fn, "two defaults"); (explain_fn, "Explain")]
              explain_fn "Explain") as [_ H].
  - apply list_elem_of_further, list_elem_of_here.
  - apply list_elem_of_further, list_elem_of_here.
  - apply H. intros g hg arg Hg Harg.
    repeat (apply elem_of_cons in Hg as [[= -> ->]|Hg];
            [cbn [fn_args two_defaults_fn explain_fn] in Harg;
             repeat (apply elem_of_cons in Harg as [->|Harg]; [reflexivity|]);
             now apply elem_of_nil in Harg|]).
    now apply elem_of_nil in Hg.
Defined.

(** A parameter that is a lone underscore is refused first: its flag is
    [---], which leaves no destination. *)
Lemma underscore_parameter_has_no_destination :
  flag_of "_" = "---"
  /\ command_parser blank_fn = Raise ValueError
  /\ generate_cmd_parser [(blank_fn, "Blank")] = Raise ValueError.
Proof. repeat split. Qed.

(** A title that is not UTF-8: [cmeta.json] has been opened when the
    encoder raises, and is left unfinished. *)
Lemma cmeta_leaves_unfinished_record :
  cmeta sample_can_write garbled_Cmeta_new sample_json_rejects
    (Some "garbled.cellml") (Some "out") garbled_fs
  = (Raise ValueError,
     <["out/cmeta.json" :=
         JsonCut (JsonRecord (<["model_title" := PyStr (String "255"%char "")]>
                                {["keywords" := PyList []]}))]> garbled_fs).
Proof. vm_compute. reflexivity. Qed.
